(* ===================================================================== *)
(* userbase-server: the realtime fan-out engine.                         *)
(*                                                                       *)
(* A shallow embedding of the Connection and Connections classes and a   *)
(* verification of the push pipeline, the contiguity gate, the bundling  *)
(* trigger, the rollback writer, the seed-exchange mediator and the      *)
(* connection registry, and of the functions of user.js that drive the   *)
(* mediator: key validation and the seed exchange against its table.     *)
(*                                                                       *)
(* Modelling conventions                                                 *)
(*  - JS numbers that hold sequence numbers, sizes and timestamps are Z. *)
(*  - `undefined` is None; a JS string is truthy iff it is not empty.    *)
(*  - JS objects used as dictionaries are gmap / gset of their own       *)
(*    properties. userId, connectionId and databaseId are assumed not    *)
(*    to name properties of Object.prototype; clientId comes from the    *)
(*    URL the client connects with, and reading uniqueClients[clientId]  *)
(*    goes through the prototype as in JS.                               *)
(*  - push is async. Connection.push is a push run from entry to end     *)
(*    with nothing else on the connection in between; pushBegin and      *)
(*    pushResume split it at its first await, for pushes that overlap.   *)
(*  - A socket is the log of what was sent on it and its close code.     *)
(*  - Mutation of an object reached through a reference is written as    *)
(*    explicit state passing: the callee returns the new object and the  *)
(*    caller stores it back where the reference lives.                   *)
(*  - The DynamoDB table is a list of rows; other writers may commit     *)
(*    rows between any two store operations of this process.             *)
(*  - The seed exchange and users tables are maps by primary key; a     *)
(*    schedule tells which calls of the document client the service      *)
(*    fails.                                                             *)
(* ===================================================================== *)

From stdpp Require Import base list strings gmap sorting.
From Stdlib Require Import ZArith Lia.

Open Scope Z_scope.

(* --------------------------------------------------------------------- *)
(* Constants                                                             *)
(* --------------------------------------------------------------------- *)

Definition SECONDS_BEFORE_ROLLBACK_GAP_TRIGGERED : Z := 1000 * 10.
Definition TRANSACTION_SIZE_BUNDLE_TRIGGER : Z := 1024 * 50.

(* JS truthiness of a value that is either undefined or a string. *)
Definition truthy (v : option string) : bool :=
  match v with
  | Some s => negb (String.eqb s "")
  | None => false
  end.

(* --------------------------------------------------------------------- *)
(* Data model                                                            *)
(* --------------------------------------------------------------------- *)

(* A row of the transactions table, keyed by (database-id, sequence-no).
   creation-date is kept as milliseconds since the epoch. *)
Module Item.
Record t := mk {
  database_id : string;
  sequence_no : Z;
  command : string;
  key : option string;
  record : option string;
  operations : option string;
  creation_date : Z
}.
End Item.

(* The wire shape of one transaction inside an ApplyTransactions message. *)
Module Tx.
Record t := mk {
  seqNo : Z;
  command : string;
  key : option string;
  record : option string;
  operations : option string;
  dbId : string
}.
End Tx.

(* The payload object built by push (route is fixed: ApplyTransactions). *)
Module Payload.
Record t := mk {
  dbId : string;
  dbNameHash : option string;
  dbKey : option string;
  bundleSeqNo : option Z;
  bundle : option string
}.
End Payload.

Inductive Message :=
| ApplyTransactions (payload : Payload.t) (transactionLog : list Tx.t) (buildBundle : bool)
| ReceiveRequestForSeed (requesterPublicKey : option string)
| ReceiveSeed (encryptedSeed : string) (senderPublicKey : string).

(* statusCodes['Client Already Connected'] *)
Inductive StatusCode := Client_Already_Connected.

Module Socket.
Record t := mk {
  sent : list Message;
  closed : option StatusCode
}.

Definition send (socket : t) (m : Message) : t :=
  {| sent := sent socket ++ [m]; closed := closed socket |}.

Definition close (socket : t) (code : StatusCode) : t :=
  {| sent := sent socket; closed := Some code |}.
End Socket.

Module DatabaseState.
Record t := mk {
  bundleSeqNo : Z;
  lastSeqNo : Z;
  transactionLogSize : Z;
  init : bool
}.
End DatabaseState.

(* --------------------------------------------------------------------- *)
(* Array helpers used by sendPayload                                     *)
(* --------------------------------------------------------------------- *)

(* Array.prototype.findIndex; None stands for -1. *)
Fixpoint findIndex {A : Type} (p : A → bool) (l : list A) : option nat :=
  match l with
  | [] => None
  | x :: l' => if p x then Some O else S <$> findIndex p l'
  end.

(* The projection applied by the .map(...) of sendPayload. *)
Definition toWire (transaction : Item.t) : Tx.t :=
  {| Tx.seqNo := Item.sequence_no transaction;
     Tx.command := Item.command transaction;
     Tx.key := Item.key transaction;
     Tx.record := Item.record transaction;
     Tx.operations := Item.operations transaction;
     Tx.dbId := Item.database_id transaction |}.

(* `x !== y + 1` where y may be undefined: undefined + 1 is NaN, and
   nothing is equal to NaN. *)
Definition neq_succ_of (x : Z) (y : option Z) : bool :=
  match y with
  | Some b => negb (x =? b + 1)
  | None => true
  end.

(* --------------------------------------------------------------------- *)
(* The transactions table (DynamoDB)                                     *)
(* --------------------------------------------------------------------- *)

Inductive Error :=
| ConditionalCheckFailedException
| TypeError.

Inductive Result (A : Type) :=
| Ok (a : A)
| Throw (e : Error).
Arguments Ok {A} a.
Arguments Throw {A} e.

Module Ddb.
(* table: the rows currently stored.
   inflight: commits of other writers that have not landed yet; the
     head batch lands just before the next store operation of this
     process (each commit is itself a conditional put).
   pageSize: how many rows one query response carries at most. *)
Record t := mk {
  table : list Item.t;
  inflight : list (list Item.t);
  pageSize : positive
}.

Record QueryResponse := mkResponse {
  Items : list Item.t;
  LastEvaluatedKey : option Z
}.

Definition sameKey (a b : Item.t) : bool :=
  String.eqb (Item.database_id a) (Item.database_id b)
  && (Item.sequence_no a =? Item.sequence_no b).

Definition occupied (rows : list Item.t) (item : Item.t) : bool :=
  existsb (sameKey item) rows.

(* A commit of another writer; its ConditionExpression is
   attribute_not_exists as well, so it is dropped on an occupied slot. *)
Definition commit (rows : list Item.t) (item : Item.t) : list Item.t :=
  if occupied rows item then rows else rows ++ [item].

(* The head batch of in-flight commits lands. *)
Definition settle (w : t) : t :=
  match inflight w with
  | [] => w
  | batch :: later =>
    {| table := foldl commit (table w) batch;
       inflight := later;
       pageSize := pageSize w |}
  end.

(* KeyConditionExpression "#dbId = :dbId and #seqNo > :seqNo", resumed
   after ExclusiveStartKey. *)
Definition selected (dbId : string) (seqNo : Z) (ExclusiveStartKey : option Z)
    (row : Item.t) : bool :=
  String.eqb (Item.database_id row) dbId
  && (seqNo <? Item.sequence_no row)
  && match ExclusiveStartKey with
     | Some k => k <? Item.sequence_no row
     | None => true
     end.

Definition bySeqNo (a b : Item.t) : Prop :=
  Item.sequence_no a ≤ Item.sequence_no b.

#[global] Instance bySeqNo_dec : RelDecision bySeqNo :=
  λ a b, Z.le_dec (Item.sequence_no a) (Item.sequence_no b).

(** Modelled from the spec: ddbClient.query, the store's paginated range
    query (the DynamoDB client is not part of the sources): the rows of the
    partition with sort key above :seqNo and above ExclusiveStartKey, in
    ascending sort-key order, one page at a time; LastEvaluatedKey is set
    when rows remain. *)
Definition query (w : t) (dbId : string) (seqNo : Z) (ExclusiveStartKey : option Z)
    : t * QueryResponse :=
  let w' := settle w in
  let rows := merge_sort bySeqNo
                (List.filter (selected dbId seqNo ExclusiveStartKey) (table w')) in
  let page := take (Pos.to_nat (pageSize w')) rows in
  (w', {| Items := page;
          LastEvaluatedKey :=
            if (length page <? length rows)%nat
            then Item.sequence_no <$> last page
            else None |}).

(** Modelled from the spec: ddbClient.put with ConditionExpression
    attribute_not_exists(database-id), the store's conditional put: it fails
    distinguishably when a row exists at the primary key of the item. *)
Definition put (w : t) (item : Item.t) : t * Result () :=
  let w' := settle w in
  if occupied (table w') item
  then (w', Throw ConditionalCheckFailedException)
  else ({| table := table w' ++ [item];
           inflight := inflight w';
           pageSize := pageSize w' |}, Ok ()).
End Ddb.

(* The local variables of the scan loop of push. *)
Module Scan.
Record t := mk {
  lastSeqNo : Z;
  gapInSeqNo : bool;
  ddbTransactionLog : list Item.t
}.
End Scan.

Inductive Outcome :=
| Returned
| Threw (e : Error).

(* --------------------------------------------------------------------- *)
(* class Connection                                                      *)
(* --------------------------------------------------------------------- *)

Module Connection.

Record t := mk {
  userId : string;
  socket : Socket.t;
  clientId : string;
  id : string;
  databases : gmap string DatabaseState.t;
  keyValidated : bool;
  requesterPublicKey : option string
}.

Definition set_socket (this : t) (s : Socket.t) : t :=
  mk (userId this) s (clientId this) (id this) (databases this)
     (keyValidated this) (requesterPublicKey this).

Definition set_database (this : t) (databaseId : string) (d : DatabaseState.t) : t :=
  mk (userId this) (socket this) (clientId this) (id this)
     (<[databaseId := d]> (databases this))
     (keyValidated this) (requesterPublicKey this).

(* constructor(userId, socket, clientId); uuid is the value of uuidv4(). *)
Definition new (userId : string) (socket : Socket.t) (clientId : string) (uuid : string) : t :=
  mk userId socket clientId uuid ∅ false None.

Definition openDatabase (this : t) (databaseId : string) (bundleSeqNo : Z)
    (reopenAtSeqNo : option Z) : t :=
  set_database this databaseId
    {| DatabaseState.bundleSeqNo := if 0 <? bundleSeqNo then bundleSeqNo else -1;
       DatabaseState.lastSeqNo :=
         match reopenAtSeqNo with
         | Some r => if r =? 0 then 0 else r
         | None => 0
         end;
       DatabaseState.transactionLogSize := 0;
       DatabaseState.init := bool_decide (reopenAtSeqNo ≠ None) |}.

Definition validateKey (this : t) : t :=
  mk (userId this) (socket this) (clientId this) (id this) (databases this)
     true (requesterPublicKey this).

Section Methods.

(* utils.estimateSizeOfDdbItem, opaque to the core. *)
Variable estimateSizeOfDdbItem : Item.t → Z.
(* db.getBundle(databaseId, bundleSeqNo), the awaited value. *)
Variable getBundle : string → Z → option string.
(* new Date(), in milliseconds; one push is modelled at one instant. *)
Variable now : Z.

Definition sizeOf (transactions : list Item.t) : Z :=
  foldl (λ size transaction, size + estimateSizeOfDdbItem transaction) 0 transactions.

(* sendPayload(payload, ddbTransactionLog, database): returns the
   connection (its socket may have received a message) and the database
   object as it is after the call. *)
Definition sendPayload (this : t) (payload : Payload.t)
    (ddbTransactionLog : list Item.t) (database : DatabaseState.t)
    : t * DatabaseState.t :=
  match findIndex (λ transaction,
          DatabaseState.lastSeqNo database <? Item.sequence_no transaction)
          ddbTransactionLog with
  | None => (this, database)
  | Some indexOfFirstTransactionToSend =>
    let sliced := drop indexOfFirstTransactionToSend ddbTransactionLog in
    let size := sizeOf sliced in
    let transactionLog := toWire <$> sliced in
    match transactionLog with
    | [] => (this, database)
    | first :: _ =>
      if negb (Tx.seqNo first =? DatabaseState.lastSeqNo database + 1)
         && neq_succ_of (Tx.seqNo first) (Payload.bundleSeqNo payload)
      then (this, database)
      else
        let '(socket', transactionLogSize') :=
          if TRANSACTION_SIZE_BUNDLE_TRIGGER <=? DatabaseState.transactionLogSize database + size
          then (Socket.send (socket this) (ApplyTransactions payload transactionLog true), 0)
          else (Socket.send (socket this) (ApplyTransactions payload transactionLog false),
                DatabaseState.transactionLogSize database + size) in
        (set_socket this socket',
         {| DatabaseState.bundleSeqNo := DatabaseState.bundleSeqNo database;
            DatabaseState.lastSeqNo := Tx.seqNo (List.last transactionLog first);
            DatabaseState.transactionLogSize := transactionLogSize';
            DatabaseState.init := true |})
    end
  end.

Definition rolledBackItem (databaseId : string) (i : Z) : Item.t :=
  {| Item.database_id := databaseId;
     Item.sequence_no := i;
     Item.command := "Rollback";
     Item.key := None;
     Item.record := None;
     Item.operations := None;
     Item.creation_date := now |}.

(* The for loop of rollback: n iterations remain, i is the loop index. *)
Fixpoint rollbackLoop (n : nat) (i : Z) (databaseId : string) (ddbClient : Ddb.t)
    (rolledBackTransactions : list Item.t) : Ddb.t * Result (list Item.t) :=
  match n with
  | O => (ddbClient, Ok rolledBackTransactions)
  | S n' =>
    let rolledbBackItem := rolledBackItem databaseId i in
    match Ddb.put ddbClient rolledbBackItem with
    | (ddbClient', Throw e) => (ddbClient', Throw e)
    | (ddbClient', Ok _) =>
      rollbackLoop n' (i + 1) databaseId ddbClient'
        (rolledBackTransactions ++ [rolledbBackItem])
    end
  end.

(* rollback(lastSeqNo, thisSeqNo, databaseId, ddbClient):
   for (i = lastSeqNo + 1; i <= thisSeqNo - 1; i++) *)
Definition rollback (lastSeqNo thisSeqNo : Z) (databaseId : string) (ddbClient : Ddb.t)
    : Ddb.t * Result (list Item.t) :=
  rollbackLoop (Z.to_nat (thisSeqNo - 1 - lastSeqNo)) (lastSeqNo + 1) databaseId ddbClient [].

Definition notYetSent (database : DatabaseState.t) (transaction : Item.t) : bool :=
  DatabaseState.lastSeqNo database <? Item.sequence_no transaction.

(* The for loop over the rows of one page. *)
Fixpoint scanItems (database : DatabaseState.t) (databaseId : string)
    (items : list Item.t) (ddbClient : Ddb.t) (st : Scan.t)
    : Ddb.t * Result Scan.t :=
  match items with
  | [] => (ddbClient, Ok st)
  | item :: rest =>
    if Scan.gapInSeqNo st then (ddbClient, Ok st)
    else
      let gapInSeqNo := Scan.lastSeqNo st + 1 <? Item.sequence_no item in
      let secondsSinceCreation := now - Item.creation_date item in
      if gapInSeqNo && (SECONDS_BEFORE_ROLLBACK_GAP_TRIGGERED <? secondsSinceCreation)
      then
        match rollback (Scan.lastSeqNo st) (Item.sequence_no item) databaseId ddbClient with
        | (ddbClient', Throw e) => (ddbClient', Throw e)
        | (ddbClient', Ok rolledBackTransactions) =>
          let log := Scan.ddbTransactionLog st
                     ++ List.filter (notYetSent database) rolledBackTransactions in
          scanItems database databaseId rest ddbClient'
            {| Scan.lastSeqNo := Item.sequence_no item;
               Scan.gapInSeqNo := gapInSeqNo;
               Scan.ddbTransactionLog :=
                 if notYetSent database item then log ++ [item] else log |}
        end
      else if gapInSeqNo
      then
        scanItems database databaseId rest ddbClient
          {| Scan.lastSeqNo := Scan.lastSeqNo st;
             Scan.gapInSeqNo := gapInSeqNo;
             Scan.ddbTransactionLog := Scan.ddbTransactionLog st |}
      else
        scanItems database databaseId rest ddbClient
          {| Scan.lastSeqNo := Item.sequence_no item;
             Scan.gapInSeqNo := gapInSeqNo;
             Scan.ddbTransactionLog :=
               if notYetSent database item
               then Scan.ddbTransactionLog st ++ [item]
               else Scan.ddbTransactionLog st |}
  end.

(* The do ... while loop over the pages; seqNo is the ":seqNo" value of
   params, fixed when params is built. None: the fuel ran out. *)
Fixpoint scanPages (fuel : nat) (database : DatabaseState.t) (databaseId : string)
    (seqNo : Z) (ExclusiveStartKey : option Z) (ddbClient : Ddb.t) (st : Scan.t)
    : option (Ddb.t * Result Scan.t) :=
  match fuel with
  | O => None
  | S fuel' =>
    let '(ddbClient1, transactionLogResponse) :=
      Ddb.query ddbClient databaseId seqNo ExclusiveStartKey in
    match scanItems database databaseId (Ddb.Items transactionLogResponse) ddbClient1 st with
    | (ddbClient2, Throw e) => Some (ddbClient2, Throw e)
    | (ddbClient2, Ok st') =>
      match Ddb.LastEvaluatedKey transactionLogResponse with
      | Some k =>
        if Scan.gapInSeqNo st' then Some (ddbClient2, Ok st')
        else scanPages fuel' database databaseId seqNo (Some k) ddbClient2 st'
      | None => Some (ddbClient2, Ok st')
      end
    end
  end.

(* async push(databaseId, dbNameHash, dbKey, reopenAtSeqNo).
   Threw e: the catch block logs and rethrows, so the promise of push
   rejects with e. *)
Definition push (fuel : nat) (ddbClient : Ddb.t) (this : t) (databaseId : string)
    (dbNameHash dbKey : option string) (reopenAtSeqNo : option Z)
    : option (Ddb.t * t * Outcome) :=
  match databases this !! databaseId with
  | None => Some (ddbClient, this, Returned)
  | Some database =>
    let reopeningDatabase := bool_decide (reopenAtSeqNo ≠ None) in
    let openingDatabase := truthy dbNameHash && truthy dbKey && negb reopeningDatabase in
    let bundleSeqNo := DatabaseState.bundleSeqNo database in
    let attach := (0 <? bundleSeqNo) && (DatabaseState.lastSeqNo database =? 0) in
    let payload :=
      {| Payload.dbId := databaseId;
         Payload.dbNameHash := if openingDatabase then dbNameHash else None;
         Payload.dbKey := if openingDatabase then dbKey else None;
         Payload.bundleSeqNo := if attach then Some bundleSeqNo else None;
         Payload.bundle := if attach then getBundle databaseId bundleSeqNo else None |} in
    let lastSeqNo := if attach then bundleSeqNo else DatabaseState.lastSeqNo database in
    match scanPages fuel database databaseId lastSeqNo None ddbClient
            {| Scan.lastSeqNo := lastSeqNo;
               Scan.gapInSeqNo := false;
               Scan.ddbTransactionLog := [] |} with
    | None => None
    | Some (ddbClient', Throw e) => Some (ddbClient', this, Threw e)
    | Some (ddbClient', Ok st) =>
      let ddbTransactionLog := Scan.ddbTransactionLog st in
      if openingDatabase && negb (DatabaseState.lastSeqNo database =? 0)
      then Some (ddbClient', this, Returned)
      else if reopeningDatabase
              && negb (bool_decide (Some (DatabaseState.lastSeqNo database) = reopenAtSeqNo))
      then Some (ddbClient', this, Returned)
      else if negb openingDatabase && negb (DatabaseState.init database)
      then Some (ddbClient', this, Returned)
      else
        match ddbTransactionLog with
        | [] =>
          if openingDatabase || reopeningDatabase
          then
            let this' := set_socket this
                           (Socket.send (socket this) (ApplyTransactions payload [] false)) in
            let database' :=
              {| DatabaseState.bundleSeqNo := DatabaseState.bundleSeqNo database;
                 DatabaseState.lastSeqNo :=
                   if truthy (Payload.bundle payload)
                   then bundleSeqNo
                   else DatabaseState.lastSeqNo database;
                 DatabaseState.transactionLogSize := DatabaseState.transactionLogSize database;
                 DatabaseState.init := true |} in
            Some (ddbClient', set_database this' databaseId database', Returned)
          else Some (ddbClient', this, Returned)
        | _ =>
          let '(this', database') := sendPayload this payload ddbTransactionLog database in
          Some (ddbClient', set_database this' databaseId database', Returned)
        end
    end
  end.

(* push is async: between its entry and what follows its first await
   (db.getBundle when the bundle preface applies, else the first query) other
   calls on the connection may run. Pending holds the locals of push that
   are fixed by then: they come from the arguments and from the DatabaseState
   as it is on entry (payload.bundle is assigned after the await, from values
   read before it). *)
Record Pending := mkPending {
  pendingPayload : Payload.t;
  pendingReopenAtSeqNo : option Z;
  pendingOpeningDatabase : bool;
  pendingBundleSeqNo : Z;
  pendingLastSeqNo : Z
}.

(* push up to its first await; None: the database is not open and push
   returns at once. *)
Definition pushBegin (this : t) (databaseId : string)
    (dbNameHash dbKey : option string) (reopenAtSeqNo : option Z) : option Pending :=
  match databases this !! databaseId with
  | None => None
  | Some database =>
    let reopeningDatabase := bool_decide (reopenAtSeqNo ≠ None) in
    let openingDatabase := truthy dbNameHash && truthy dbKey && negb reopeningDatabase in
    let bundleSeqNo := DatabaseState.bundleSeqNo database in
    let attach := (0 <? bundleSeqNo) && (DatabaseState.lastSeqNo database =? 0) in
    Some {| pendingPayload :=
              {| Payload.dbId := databaseId;
                 Payload.dbNameHash := if openingDatabase then dbNameHash else None;
                 Payload.dbKey := if openingDatabase then dbKey else None;
                 Payload.bundleSeqNo := if attach then Some bundleSeqNo else None;
                 Payload.bundle :=
                   if attach then getBundle databaseId bundleSeqNo else None |};
            pendingReopenAtSeqNo := reopenAtSeqNo;
            pendingOpeningDatabase := openingDatabase;
            pendingBundleSeqNo := bundleSeqNo;
            pendingLastSeqNo :=
              if attach then bundleSeqNo else DatabaseState.lastSeqNo database |}
  end.

(* The rest of a pending push, run in one piece on the connection as it is
   when the push resumes: the scan from the sequence number fixed on entry,
   then the re-checks and the send, which read database.lastSeqNo and
   database.init as they are now. database is the object the push holds; no
   code removes or replaces an entry of databases, so it is still the entry
   of databaseId (the first branch is not reached). *)
Definition pushResume (fuel : nat) (ddbClient : Ddb.t) (this : t) (databaseId : string)
    (pending : Pending) : option (Ddb.t * t * Outcome) :=
  match databases this !! databaseId with
  | None => Some (ddbClient, this, Returned)
  | Some database =>
    let reopenAtSeqNo := pendingReopenAtSeqNo pending in
    let reopeningDatabase := bool_decide (reopenAtSeqNo ≠ None) in
    let openingDatabase := pendingOpeningDatabase pending in
    let payload := pendingPayload pending in
    let lastSeqNo := pendingLastSeqNo pending in
    match scanPages fuel database databaseId lastSeqNo None ddbClient
            {| Scan.lastSeqNo := lastSeqNo;
               Scan.gapInSeqNo := false;
               Scan.ddbTransactionLog := [] |} with
    | None => None
    | Some (ddbClient', Throw e) => Some (ddbClient', this, Threw e)
    | Some (ddbClient', Ok st) =>
      let ddbTransactionLog := Scan.ddbTransactionLog st in
      if openingDatabase && negb (DatabaseState.lastSeqNo database =? 0)
      then Some (ddbClient', this, Returned)
      else if reopeningDatabase
              && negb (bool_decide (Some (DatabaseState.lastSeqNo database) = reopenAtSeqNo))
      then Some (ddbClient', this, Returned)
      else if negb openingDatabase && negb (DatabaseState.init database)
      then Some (ddbClient', this, Returned)
      else
        match ddbTransactionLog with
        | [] =>
          if openingDatabase || reopeningDatabase
          then
            let this' := set_socket this
                           (Socket.send (socket this) (ApplyTransactions payload [] false)) in
            let database' :=
              {| DatabaseState.bundleSeqNo := DatabaseState.bundleSeqNo database;
                 DatabaseState.lastSeqNo :=
                   if truthy (Payload.bundle payload)
                   then pendingBundleSeqNo pending
                   else DatabaseState.lastSeqNo database;
                 DatabaseState.transactionLogSize := DatabaseState.transactionLogSize database;
                 DatabaseState.init := true |} in
            Some (ddbClient', set_database this' databaseId database', Returned)
          else Some (ddbClient', this, Returned)
        | _ =>
          let '(this', database') := sendPayload this payload ddbTransactionLog database in
          Some (ddbClient', set_database this' databaseId database', Returned)
        end
    end
  end.

Definition openSeedRequest (this : t) (requesterPublicKey' : option string) : t :=
  mk (userId this) (socket this) (clientId this) (id this) (databases this)
     (keyValidated this) requesterPublicKey'.

Definition sendSeedRequest (this : t) (requesterPublicKey' : option string) : t :=
  if negb (keyValidated this) then this
  else set_socket this
         (Socket.send (socket this) (ReceiveRequestForSeed requesterPublicKey')).

Definition sendSeed (this : t) (senderPublicKey : string)
    (requesterPublicKey' : option string) (encryptedSeed : string) : t :=
  if bool_decide (requesterPublicKey this ≠ requesterPublicKey') then this
  else set_socket this
         (Socket.send (socket this) (ReceiveSeed encryptedSeed senderPublicKey)).

Definition deleteSeedRequest (this : t) : t :=
  mk (userId this) (socket this) (clientId this) (id this) (databases this)
     (keyValidated this) None.

End Methods.

End Connection.

(* --------------------------------------------------------------------- *)
(* class Connections: the process-wide registry                          *)
(* --------------------------------------------------------------------- *)

(* The property names a plain object inherits from Object.prototype. Read
   through an object that has no own property of that name, each gives a
   function (or, for __proto__, the prototype object): a truthy value. *)
Definition objectPrototypeKeys : list string :=
  ["constructor"; "hasOwnProperty"; "isPrototypeOf"; "propertyIsEnumerable";
   "toLocaleString"; "toString"; "valueOf"; "__proto__";
   "__defineGetter__"; "__defineSetter__"; "__lookupGetter__"; "__lookupSetter__"].

Definition inherited (key : string) : bool := bool_decide (key ∈ objectPrototypeKeys).

Module Connections.

(* The two static properties; None is `undefined` (before the first
   register). *)
Record t := mk {
  sockets : option (gmap string (gmap string Connection.t));
  uniqueClients : option (gset string)
}.

Definition initial : t := mk None None.

(* static register(userId, socket, clientId); uuid is the value uuidv4()
   yields inside the Connection constructor. Returns the registry, the
   socket as the call leaves it, and the connection (None for `false`).
   uniqueClients holds the own properties of the object; the test
   !Connections.uniqueClients[clientId] reads through the prototype, so it
   is false as well for a clientId that names an inherited property. *)
Definition register (C : t) (userId : string) (socket : Socket.t) (clientId : string)
    (uuid : string) : t * Socket.t * option Connection.t :=
  let sockets1 := default ∅ (sockets C) in
  let sockets2 :=
    match sockets1 !! userId with
    | None => <[userId := ∅]> sockets1
    | Some _ => sockets1
    end in
  let uniqueClients1 := default ∅ (uniqueClients C) in
  if bool_decide (clientId ∉ uniqueClients1) && negb (inherited clientId)
  then
    let uniqueClients2 := {[clientId]} ∪ uniqueClients1 in
    let connection := Connection.new userId socket clientId uuid in
    let sockets3 :=
      <[userId := <[Connection.id connection := connection]> (default ∅ (sockets2 !! userId))]>
        sockets2 in
    (mk (Some sockets3) (Some uniqueClients2), socket, Some connection)
  else
    (mk (Some sockets2) (Some uniqueClients1),
     Socket.close socket Client_Already_Connected, None).

(* static close(connection). Reading a property of undefined throws a
   TypeError; the first delete has already happened when the second
   statement throws. *)
Definition close (C : t) (connection : Connection.t) : t * Outcome :=
  match sockets C with
  | None => (C, Threw TypeError)
  | Some sockets0 =>
    match sockets0 !! Connection.userId connection with
    | None => (C, Threw TypeError)
    | Some conns =>
      let sockets1 :=
        <[Connection.userId connection := delete (Connection.id connection) conns]> sockets0 in
      match uniqueClients C with
      | None => (mk (Some sockets1) None, Threw TypeError)
      | Some uniqueClients0 =>
        (mk (Some sockets1) (Some (uniqueClients0 ∖ {[Connection.clientId connection]})),
         Returned)
      end
    end
  end.

(* static sendSeedRequest(userId, connectionId, requesterPublicKey) *)
Definition sendSeedRequest (C : t) (userId connectionId : string)
    (requesterPublicKey : option string) : t :=
  match sockets C with
  | None => C
  | Some sockets0 =>
    match sockets0 !! userId with
    | None => C
    | Some conns =>
      match conns !! connectionId with
      | None => C
      | Some conn =>
        let conns1 :=
          <[connectionId := Connection.openSeedRequest conn requesterPublicKey]> conns in
        let conns2 :=
          (λ connection, Connection.sendSeedRequest connection requesterPublicKey) <$> conns1 in
        mk (Some (<[userId := conns2]> sockets0)) (uniqueClients C)
      end
    end
  end.

(* static sendSeed(userId, senderPublicKey, requesterPublicKey, encryptedSeed) *)
Definition sendSeed (C : t) (userId : string) (senderPublicKey : string)
    (requesterPublicKey : option string) (encryptedSeed : string) : t :=
  match sockets C with
  | None => C
  | Some sockets0 =>
    match sockets0 !! userId with
    | None => C
    | Some conns =>
      let conns1 :=
        (λ conn, Connection.sendSeed conn senderPublicKey requesterPublicKey encryptedSeed)
          <$> conns in
      mk (Some (<[userId := conns1]> sockets0)) (uniqueClients C)
    end
  end.

Section Dispatch.

Variable estimateSizeOfDdbItem : Item.t → Z.
Variable getBundle : string → Z → option string.
Variable now : Z.

(* The body of the for loop of static push(transaction, userId), for one
   connection of the user. *)
Definition pushTo (fuel : nat) (ddbClient : Ddb.t) (conn : Connection.t)
    (transaction : Item.t) : option (Ddb.t * Connection.t * Outcome) :=
  let databaseId := Item.database_id transaction in
  match Connection.databases conn !! databaseId with
  | Some database =>
    if Item.sequence_no transaction =? DatabaseState.lastSeqNo database + 1
    then
      let payload :=
        {| Payload.dbId := databaseId;
           Payload.dbNameHash := None;
           Payload.dbKey := None;
           Payload.bundleSeqNo := None;
           Payload.bundle := None |} in
      let '(conn', database') :=
        Connection.sendPayload estimateSizeOfDdbItem conn payload [transaction] database in
      Some (ddbClient, Connection.set_database conn' databaseId database', Returned)
    else
      Connection.push estimateSizeOfDdbItem getBundle now fuel ddbClient conn
        databaseId None None None
  | None =>
    Connection.push estimateSizeOfDdbItem getBundle now fuel ddbClient conn
      databaseId None None None
  end.

(* static openDatabase(userId, connectionId, databaseId, bundleSeqNo,
   dbNameHash, dbKey, reopenAtSeqNo). conn.push is not awaited: the call
   returns true whatever becomes of the push; here the push is run to its end
   and the connection it leaves is the one in the registry, which is the
   state once the push has ended when no other push or fan-out on the
   database ran meanwhile (pushes that overlap are composed from pushBegin
   and pushResume). The boolean is false for the `undefined` of the early
   return. *)
Definition openDatabase (fuel : nat) (ddbClient : Ddb.t) (C : t)
    (userId connectionId databaseId : string) (bundleSeqNo : Z)
    (dbNameHash dbKey : option string) (reopenAtSeqNo : option Z)
    : option (Ddb.t * t * bool) :=
  match sockets C with
  | None => Some (ddbClient, C, false)
  | Some sockets0 =>
    match sockets0 !! userId with
    | None => Some (ddbClient, C, false)
    | Some conns =>
      match conns !! connectionId with
      | None => Some (ddbClient, C, false)
      | Some conn =>
        let conn1 :=
          match Connection.databases conn !! databaseId with
          | None => Connection.openDatabase conn databaseId bundleSeqNo reopenAtSeqNo
          | Some _ => conn
          end in
        match Connection.push estimateSizeOfDdbItem getBundle now fuel ddbClient conn1
                databaseId dbNameHash dbKey reopenAtSeqNo with
        | None => None
        | Some (ddbClient', conn2, _) =>
          Some (ddbClient',
                mk (Some (<[userId := <[connectionId := conn2]> conns]> sockets0))
                   (uniqueClients C),
                true)
        end
      end
    end
  end.

End Dispatch.

End Connections.

(* --------------------------------------------------------------------- *)
(* user.js: key validation and the seed exchange                         *)
(* --------------------------------------------------------------------- *)

Definition HOURS_IN_A_DAY : Z := 24.
Definition SECONDS_IN_A_DAY : Z := 60 * 60 * HOURS_IN_A_DAY.

(* getTtl(secondsToLive); now is Date.now(), in milliseconds. *)
Definition getTtl (now secondsToLive : Z) : Z := now / 1000 + secondsToLive.

(* What a rejected promise of the document client carries: an error whose
   name the code inspects, or a failure of the service itself. *)
Inductive Exception :=
| Named (name : Error)
| ServiceFailure.

Inductive Reply (A : Type) :=
| Done (a : A)
| Rejected (e : Exception).
Arguments Done {A} a.
Arguments Rejected {A} e.

Module Tables.
(* A row of the seed exchange table; its key is
   (user-id, requester-public-key). *)
Record SeedExchangeRow := mkSeedExchangeRow {
  encrypted_seed : option string;
  ttl : option Z
}.

(* The attributes of a row of the users table that userSavedSeed reads or
   writes; its key is (username, app-id). seed_not_saved_yet: the attribute
   seed-not-saved-yet exists. *)
Record UserRow := mkUserRow {
  user_id : string;
  public_key : string;
  seed_not_saved_yet : bool
}.

(* faults: for each coming call of the document client, whether the service
   fails it; past the end of the list no call fails. Expiry of rows by ttl is
   outside this model: it covers a span in which no row expires. *)
Record t := mk {
  seedExchange : gmap (string * string) SeedExchangeRow;
  users : gmap (string * string) UserRow;
  faults : list bool
}.

Definition call (w : t) : t * bool :=
  match faults w with
  | fault :: later => (mk (seedExchange w) (users w) later, fault)
  | [] => (w, false)
  end.

(** Modelled from the spec: the conditional put of the seed-exchange store,
    with ConditionExpression attribute_not_exists(user-id): it fails
    distinguishably when a row exists at the key. *)
Definition putSeedExchange (w : t) (key : string * string) (ttl' : Z) : t * Reply () :=
  let '(w1, fault) := call w in
  if fault then (w1, Rejected ServiceFailure)
  else
    match seedExchange w1 !! key with
    | Some _ => (w1, Rejected (Named ConditionalCheckFailedException))
    | None =>
      (mk (<[key := mkSeedExchangeRow None (Some ttl')]> (seedExchange w1))
          (users w1) (faults w1),
       Done ())
    end.

(** Modelled from the spec: get of the seed-exchange store; Item is undefined
    when no row is at the key. *)
Definition getSeedExchange (w : t) (key : string * string)
    : t * Reply (option SeedExchangeRow) :=
  let '(w1, fault) := call w in
  if fault then (w1, Rejected ServiceFailure)
  else (w1, Done (seedExchange w1 !! key)).

(** Modelled from the spec: update of the seed-exchange store with
    UpdateExpression set encrypted-seed, without a condition: the attribute
    is set on the row at the key, and a row holding the key and the
    attribute is created when none is there. *)
Definition updateSeedExchange (w : t) (key : string * string) (encryptedSeed : string)
    : t * Reply () :=
  let '(w1, fault) := call w in
  if fault then (w1, Rejected ServiceFailure)
  else
    (mk (<[key := mkSeedExchangeRow (Some encryptedSeed)
                    (seedExchange w1 !! key ≫= ttl)]> (seedExchange w1))
        (users w1) (faults w1),
     Done ()).

(** Modelled from the spec: delete of the seed-exchange store. *)
Definition deleteSeedExchange (w : t) (key : string * string) : t * Reply () :=
  let '(w1, fault) := call w in
  if fault then (w1, Rejected ServiceFailure)
  else (mk (delete key (seedExchange w1)) (users w1) (faults w1), Done ()).

(** Modelled from the spec: update of the users table with UpdateExpression
    remove seed-not-saved-yet and ConditionExpression
    attribute_exists(seed-not-saved-yet) and user-id = :userId and
    public-key = :publicKey; the condition is false when no row is at the
    key. *)
Definition removeSeedNotSavedYet (w : t) (key : string * string)
    (userId publicKey : string) : t * Reply () :=
  let '(w1, fault) := call w in
  if fault then (w1, Rejected ServiceFailure)
  else
    match users w1 !! key with
    | Some row =>
      if seed_not_saved_yet row
         && bool_decide (user_id row = userId)
         && bool_decide (public_key row = publicKey)
      then (mk (seedExchange w1)
               (<[key := mkUserRow (user_id row) (public_key row) false]> (users w1))
               (faults w1),
            Done ())
      else (w1, Rejected (Named ConditionalCheckFailedException))
    | None => (w1, Rejected (Named ConditionalCheckFailedException))
    end.
End Tables.

Module User.

(* The attributes of the user object that validateKey reads. *)
Record t := mk {
  username : string;
  app_id : string;
  user_id : string;
  public_key : string;
  seed_not_saved_yet : bool
}.

(* The entries of statusCodes that these functions use. *)
Inductive Status := Bad_Request | Unauthorized | Internal_Server_Error.

(* What a response carries: a text, a text ending in `${e}`, or
   { senderPublicKey, encryptedSeed }. *)
Inductive Data :=
| Text (text : string)
| TextWith (text : string) (e : Exception)
| SeedReply (senderPublicKey encryptedSeed : string).

(* responseBuilder.successResponse(data), responseBuilder.errorResponse(status, data) *)
Inductive Response :=
| successResponse (data : Data)
| errorResponse (status : Status) (data : Data).

(* userSavedSeed(userId, appId, username, publicKey) *)
Definition userSavedSeed (ddbClient : Tables.t) (userId appId username' publicKey : string)
    : Tables.t * Reply () :=
  Tables.removeSeedNotSavedYet ddbClient (username', appId) userId publicKey.

(* deleteSeedRequest(userId, conn): a failure of the delete is logged and
   swallowed. The store takes no key without requester-public-key; the
   parameter validation of the document client throws before any call. *)
Definition deleteSeedRequest (ddbClient : Tables.t) (userId : string) (conn : Connection.t)
    : Tables.t * Connection.t :=
  match Connection.requesterPublicKey conn with
  | None => (ddbClient, conn)
  | Some requesterPublicKey =>
    match Tables.deleteSeedExchange ddbClient (userId, requesterPublicKey) with
    | (ddbClient1, Done _) => (ddbClient1, Connection.deleteSeedRequest conn)
    | (ddbClient1, Rejected _) => (ddbClient1, conn)
    end
  end.

(* exports.validateKey(validationMessage, userProvidedValidationMessage,
   user, conn); validationMessage stands for
   validationMessage.toString('base64'). *)
Definition validateKey (ddbClient : Tables.t) (validationMessage : string)
    (userProvidedValidationMessage : option string) (user : t) (conn : Connection.t)
    : Tables.t * Connection.t * Response :=
  if bool_decide (Some validationMessage = userProvidedValidationMessage) then
    if seed_not_saved_yet user then
      match userSavedSeed ddbClient (user_id user) (app_id user) (username user)
              (public_key user) with
      | (ddbClient1, Done _) =>
        (ddbClient1, Connection.validateKey conn, successResponse (Text "Success!"))
      | (ddbClient1, Rejected (Named ConditionalCheckFailedException)) =>
        (ddbClient1, conn, errorResponse Unauthorized (Text "Invalid seed"))
      | (ddbClient1, Rejected _) =>
        (ddbClient1, conn, errorResponse Internal_Server_Error (Text "Failed to validate key"))
      end
    else
      let '(ddbClient1, conn1) :=
        if truthy (Connection.requesterPublicKey conn)
        then deleteSeedRequest ddbClient (user_id user) conn
        else (ddbClient, conn) in
      (ddbClient1, Connection.validateKey conn1, successResponse (Text "Success!"))
  else
    (ddbClient, conn, errorResponse Unauthorized (Text "Failed to validate key")).

(* exports.requestSeed(userId, senderPublicKey, connectionId, requesterPublicKey) *)
Definition requestSeed (now : Z) (ddbClient : Tables.t) (connections : Connections.t)
    (userId senderPublicKey connectionId : string) (requesterPublicKey : option string)
    : Tables.t * Connections.t * Response :=
  let sent := successResponse (Text "Successfully sent out request for seed!") in
  let failed e :=
    errorResponse Internal_Server_Error (TextWith "Failed to request seed with " e) in
  match requesterPublicKey with
  | None =>
    (ddbClient, connections, errorResponse Bad_Request (Text "Missing requester public key"))
  | Some key =>
    if negb (truthy requesterPublicKey)
    then (ddbClient, connections,
          errorResponse Bad_Request (Text "Missing requester public key"))
    else
      match Tables.putSeedExchange ddbClient (userId, key) (getTtl now SECONDS_IN_A_DAY) with
      | (ddbClient1, Done _) =>
        (ddbClient1,
         Connections.sendSeedRequest connections userId connectionId requesterPublicKey,
         sent)
      | (ddbClient1, Rejected (Named ConditionalCheckFailedException)) =>
        match Tables.getSeedExchange ddbClient1 (userId, key) with
        | (ddbClient2, Done (Some existingSeedExchange)) =>
          match Tables.encrypted_seed existingSeedExchange with
          | Some encryptedSeed =>
            if truthy (Some encryptedSeed)
            then (ddbClient2, connections,
                  successResponse (SeedReply senderPublicKey encryptedSeed))
            else (ddbClient2,
                  Connections.sendSeedRequest connections userId connectionId
                    requesterPublicKey,
                  sent)
          | None =>
            (ddbClient2,
             Connections.sendSeedRequest connections userId connectionId requesterPublicKey,
             sent)
          end
        | (ddbClient2, Done None) =>
          (* existingSeedExchange is undefined: reading its property throws *)
          (ddbClient2, connections, failed (Named TypeError))
        | (ddbClient2, Rejected e) => (ddbClient2, connections, failed e)
        end
      | (ddbClient1, Rejected e) => (ddbClient1, connections, failed e)
      end
  end.

(* exports.sendSeed(userId, senderPublicKey, requesterPublicKey, encryptedSeed) *)
Definition sendSeed (ddbClient : Tables.t) (connections : Connections.t)
    (userId senderPublicKey : string) (requesterPublicKey encryptedSeed : option string)
    : Tables.t * Connections.t * Response :=
  match requesterPublicKey, encryptedSeed with
  | Some key, Some seed =>
    if negb (truthy requesterPublicKey) || negb (truthy encryptedSeed)
    then (ddbClient, connections, errorResponse Bad_Request (Text "Missing required items"))
    else
      match Tables.updateSeedExchange ddbClient (userId, key) seed with
      | (ddbClient1, Done _) =>
        (ddbClient1,
         Connections.sendSeed connections userId senderPublicKey requesterPublicKey seed,
         successResponse (Text "Success!"))
      | (ddbClient1, Rejected e) =>
        (ddbClient1, connections,
         errorResponse Internal_Server_Error (TextWith "Failed to send seed with " e))
      end
  | _, _ => (ddbClient, connections, errorResponse Bad_Request (Text "Missing required items"))
  end.

End User.

(* ===================================================================== *)
(* Vocabulary of the statements                                          *)
(* ===================================================================== *)

(* The entries of the buffer that sendPayload keeps: the slice from the
   first entry whose seqNo is above database.lastSeqNo. *)
Definition sliceToSend (database : DatabaseState.t) (ddbTransactionLog : list Item.t)
    : list Item.t :=
  match findIndex (Connection.notYetSent database) ddbTransactionLog with
  | Some i => drop i ddbTransactionLog
  | None => []
  end.

(* The first entry that survives the trim to seqNo > database.lastSeqNo. *)
Definition firstSurviving (database : DatabaseState.t) (ddbTransactionLog : list Item.t)
    : option Item.t :=
  head (List.filter (Connection.notYetSent database) ddbTransactionLog).

(* The contiguity gate, as the specification words it. *)
Definition contiguous (payload : Payload.t) (database : DatabaseState.t) (first : Item.t)
    : Prop :=
  Item.sequence_no first = DatabaseState.lastSeqNo database + 1
  ∨ ∃ b, Payload.bundleSeqNo payload = Some b ∧ Item.sequence_no first = b + 1.

Definition ascending (l : list Item.t) : Prop := StronglySorted Ddb.bySeqNo l.

(* How many rows of l the predicate p selects. *)
Definition cnt (p : Item.t → bool) (l : list Item.t) : nat := length (List.filter p l).

(* The rows that may still show up in a query: stored or in flight. *)
Definition remaining (p : Item.t → bool) (w : Ddb.t) : nat :=
  cnt p (Ddb.table w ++ concat (Ddb.inflight w)).

(* The sentinels for the slots i, i + 1, ..., i + n - 1, in this order. *)
Definition sentinels (now : Z) (databaseId : string) (i : Z) (n : nat) : list Item.t :=
  Connection.rolledBackItem now databaseId <$> seqZ i (Z.of_nat n).

(* The buffer is in ascending seqNo order and lies at or below the cursor. *)
Definition scanInv (st : Scan.t) : Prop :=
  ascending (Scan.ddbTransactionLog st)
  ∧ Forall (λ x, Item.sequence_no x ≤ Scan.lastSeqNo st) (Scan.ddbTransactionLog st).

(* Every row the scan can ever be shown: stored or in flight. *)
Definition rowsInSight (w : Ddb.t) : nat :=
  length (Ddb.table w ++ concat (Ddb.inflight w)).

Definition reopeningDatabase (reopenAtSeqNo : option Z) : bool :=
  bool_decide (reopenAtSeqNo ≠ None).

Definition openingDatabase (dbNameHash dbKey : option string) (reopenAtSeqNo : option Z)
    : bool :=
  truthy dbNameHash && truthy dbKey && negb (reopeningDatabase reopenAtSeqNo).

(* The bundle preface applies. *)
Definition attachesBundle (database : DatabaseState.t) : bool :=
  (0 <? DatabaseState.bundleSeqNo database) && (DatabaseState.lastSeqNo database =? 0).

(* The payload object of push when the scan starts. *)
Definition pushPayload (getBundle : string → Z → option string) (databaseId : string)
    (dbNameHash dbKey : option string) (reopenAtSeqNo : option Z)
    (database : DatabaseState.t) : Payload.t :=
  {| Payload.dbId := databaseId;
     Payload.dbNameHash :=
       if openingDatabase dbNameHash dbKey reopenAtSeqNo then dbNameHash else None;
     Payload.dbKey :=
       if openingDatabase dbNameHash dbKey reopenAtSeqNo then dbKey else None;
     Payload.bundleSeqNo :=
       if attachesBundle database then Some (DatabaseState.bundleSeqNo database) else None;
     Payload.bundle :=
       if attachesBundle database
       then getBundle databaseId (DatabaseState.bundleSeqNo database)
       else None |}.

(* The local variables of push when the scan starts. *)
Definition startScan (database : DatabaseState.t) : Scan.t :=
  {| Scan.lastSeqNo :=
       if attachesBundle database
       then DatabaseState.bundleSeqNo database
       else DatabaseState.lastSeqNo database;
     Scan.gapInSeqNo := false;
     Scan.ddbTransactionLog := [] |}.

(* The range scan of push as a whole. *)
Definition scan (now : Z) (fuel : nat) (ddbClient : Ddb.t) (databaseId : string)
    (database : DatabaseState.t) : option (Ddb.t * Result Scan.t) :=
  Connection.scanPages now fuel database databaseId
    (Scan.lastSeqNo (startScan database)) None ddbClient (startScan database).

(* sockets[userId][connectionId], None when any step is undefined. *)
Definition connectionAt (C : Connections.t) (userId connectionId : string)
    : option Connection.t :=
  match default ∅ (Connections.sockets C) !! userId with
  | Some conns => conns !! connectionId
  | None => None
  end.

(* The clientIds marked present in uniqueClients. *)
Definition presentClients (C : Connections.t) : gset string :=
  default ∅ (Connections.uniqueClients C).

(* Exactly one Connection with this clientId exists in sockets. *)
Definition exactlyOne (C : Connections.t) (clientId : string) : Prop :=
  ∃ u i c, connectionAt C u i = Some c ∧ Connection.clientId c = clientId
    ∧ ∀ u' i' c', connectionAt C u' i' = Some c' → Connection.clientId c' = clientId →
        u' = u ∧ i' = i.

Inductive Op :=
| Register (userId : string) (socket : Socket.t) (clientId uuid : string)
| Close (connection : Connection.t).

Definition step (C : Connections.t) (op : Op) : Connections.t :=
  match op with
  | Register userId socket clientId uuid =>
    (Connections.register C userId socket clientId uuid).1.1
  | Close connection => (Connections.close C connection).1
  end.

Definition run (ops : list Op) : Connections.t := foldl step Connections.initial ops.

(* The registries reached when every register mints a connectionId not in
   use for the user, and every close is given a connection that is in the
   registry at that moment. *)
Inductive reachable : Connections.t → Prop :=
| reachable_initial : reachable Connections.initial
| reachable_register C userId socket clientId uuid :
    reachable C →
    connectionAt C userId uuid = None →
    reachable (step C (Register userId socket clientId uuid))
| reachable_close C connection :
    reachable C →
    connectionAt C (Connection.userId connection) (Connection.id connection)
    = Some connection →
    reachable (step C (Close connection)).

Record registryInv (C : Connections.t) : Prop := {
  inv_indexed : ∀ u i c, connectionAt C u i = Some c →
    Connection.clientId c ∈ presentClients C
    ∧ Connection.userId c = u ∧ Connection.id c = i;
  inv_present : ∀ clientId, clientId ∈ presentClients C →
    ∃ u i c, connectionAt C u i = Some c ∧ Connection.clientId c = clientId;
  inv_unique : ∀ u i c u' i' c',
    connectionAt C u i = Some c → connectionAt C u' i' = Some c' →
    Connection.clientId c = Connection.clientId c' → u = u' ∧ i = i'
}.

(* --------------------------------------------------------------------- *)
(* Vocabulary for the store and the batches                              *)
(* --------------------------------------------------------------------- *)

(* The primary key of a row: (database-id, sequence-no). *)
Definition keyOf (row : Item.t) : string * Z :=
  (Item.database_id row, Item.sequence_no row).

(* At most one row per primary key. *)
Definition keysUnique (rows : list Item.t) : Prop := NoDup (keyOf <$> rows).





(* A DatabaseState that a push or a fan-out may leave in place of another:
   same bundleSeqNo, init not cleared, lastSeqNo not lowered, and the
   unbundled byte count still below the bundling trigger. *)
Record advances (database database' : DatabaseState.t) : Prop := {
  adv_bundleSeqNo :
    DatabaseState.bundleSeqNo database' = DatabaseState.bundleSeqNo database;
  adv_init :
    DatabaseState.init database = true → DatabaseState.init database' = true;
  adv_lastSeqNo :
    DatabaseState.lastSeqNo database ≤ DatabaseState.lastSeqNo database';
  adv_size :
    DatabaseState.transactionLogSize database < TRANSACTION_SIZE_BUNDLE_TRIGGER →
    DatabaseState.transactionLogSize database' < TRANSACTION_SIZE_BUNDLE_TRIGGER
}.

(* The payload of the fan-out fast path. *)
Definition fanOutPayload (transaction : Item.t) : Payload.t :=
  {| Payload.dbId := Item.database_id transaction;
     Payload.dbNameHash := None;
     Payload.dbKey := None;
     Payload.bundleSeqNo := None;
     Payload.bundle := None |}.

(* No row is older than the rollback threshold. *)
Definition allYoung (now : Z) (rows : list Item.t) : Prop :=
  Forall (λ row, now - Item.creation_date row ≤ SECONDS_BEFORE_ROLLBACK_GAP_TRIGGERED) rows.

(* The operation is a register call for this user. *)
Definition registersUser (userId : string) (op : Op) : Prop :=
  match op with
  | Register u _ _ _ => u = userId
  | Close _ => False
  end.

(* No row of the database is stored or in flight. *)
Definition noRowsOf (databaseId : string) (w : Ddb.t) : Prop :=
  Forall (λ row, Item.database_id row ≠ databaseId)
         (Ddb.table w ++ concat (Ddb.inflight w)).

(* --------------------------------------------------------------------- *)
(* Sample data for the closed examples                                   *)
(* --------------------------------------------------------------------- *)

Definition sampleSize (transaction : Item.t) : Z := 100.

Definition sampleBundle (databaseId : string) (bundleSeqNo : Z) : option string :=
  Some "blob".

Definition sampleItem (seqNo creationDate : Z) : Item.t :=
  Item.mk "D" seqNo "Insert" None None None creationDate.

Definition sampleSocket : Socket.t := Socket.mk [] None.

Definition sampleConnection : Connection.t :=
  Connection.new "U" sampleSocket "C" "id1".

Definition barePayload : Payload.t := Payload.mk "D" None None None None.

(* A connection with database "D" open at lastSeqNo = 4. *)
Definition connectionAt4 : Connection.t :=
  Connection.set_database sampleConnection "D" (DatabaseState.mk (-1) 4 0 true).

(* Row 8 of database D is old, the client is at lastSeqNo = 4, and another
   writer commits row 6 while the rollback of slots 5..7 is under way. *)
Definition racingTable : Ddb.t :=
  Ddb.mk [sampleItem 8 8000] [[]; []; [sampleItem 6 99000]] 10.

(* The registry after the first successful registration of client "C". *)
Definition oneClient : Connections.t :=
  (Connections.register Connections.initial "U" sampleSocket "C" "id1").1.1.

Definition firstConnection : Connection.t := Connection.new "U" sampleSocket "C" "id1".

(* Client "C" registers, closes, registers again, and the first connection is
   closed once more. *)
Definition staleCloseRun : Connections.t :=
  run [Register "U" sampleSocket "C" "id1"; Close firstConnection;
       Register "U" sampleSocket "C" "id2"; Close firstConnection].

(* Devices A (validated) and N (new, waiting for the seed under key pkN) of
   user U, and a device of user V that happens to wait under the same key. *)
Definition deviceA : Connection.t :=
  Connection.validateKey (Connection.new "U" sampleSocket "cA" "idA").

Definition deviceN : Connection.t :=
  Connection.openSeedRequest (Connection.new "U" sampleSocket "cN" "idN") (Some "pkN").

Definition deviceV : Connection.t :=
  Connection.openSeedRequest (Connection.new "V" sampleSocket "cV" "idV") (Some "pkN").

Definition seedRegistry : Connections.t :=
  Connections.mk
    (Some {[ "U" := {[ "idA" := deviceA; "idN" := deviceN ]};
             "V" := {[ "idV" := deviceV ]} ]})
    (Some {[ "cA"; "cN"; "cV" ]}).

(* Database "D" just opened for the first time with a bundle at 3, and the
   table with the rows 4 and 5 that follow the bundle. *)
Definition freshAt3 : Connection.t := Connection.openDatabase sampleConnection "D" 3 None.

Definition rowsAfterBundle : Ddb.t := Ddb.mk [sampleItem 4 0; sampleItem 5 0] [] 10.

(* Rows 5 and 6 of database D, stored out of order. *)
Definition twoRows : Ddb.t := Ddb.mk [sampleItem 6 0; sampleItem 5 0] [] 10.

(* User "U" signed up as alice and has not saved the seed yet; the seed
   exchange table is empty. *)
Definition sampleUser : User.t := User.mk "alice" "app" "U" "pkU" true.

Definition sampleTables : Tables.t :=
  Tables.mk ∅ {[ ("alice", "app") := Tables.mkUserRow "U" "pkU" true ]} [].

(* A returning user, and tables in which device N's request is pending. *)
Definition returningUser : User.t := User.mk "alice" "app" "U" "pkU" false.

Definition pendingTables : Tables.t :=
  Tables.mk {[ ("U", "pkN") := Tables.mkSeedExchangeRow None (Some 86500) ]}
            {[ ("alice", "app") := Tables.mkUserRow "U" "pkU" false ]} [].

(* ===================================================================== *)
(* Verification                                                          *)
(* ===================================================================== *)

(* --------------------------------------------------------------------- *)
(* findIndex and slice                                                   *)
(* --------------------------------------------------------------------- *)

Lemma findIndex_None {A : Type} (p : A → bool) (l : list A) :
  findIndex p l = None → List.filter p l = [].
Proof.
  induction l as [|x l IH]; simpl; [done|].
  destruct (p x); [done|].
  destruct (findIndex p l); [done|]. intros _. by apply IH.
Qed.

Lemma findIndex_Some {A : Type} (p : A → bool) (l : list A) (i : nat) :
  findIndex p l = Some i →
  ∃ x rest, drop i l = x :: rest ∧ p x = true
            ∧ List.filter p l = x :: List.filter p rest.
Proof.
  revert i. induction l as [|x l IH]; simpl; intros i; [done|].
  destruct (p x) eqn:Hpx.
  - intros [= <-]. exists x, l. by rewrite drop_0.
  - destruct (findIndex p l) as [j|]; [|done].
    intros [= <-]. destruct (IH j eq_refl) as (y & rest & Hd & Hy & Hf).
    exists y, rest. simpl. by rewrite Hd.
Qed.

Lemma sliceToSend_head database log :
  head (sliceToSend database log) = firstSurviving database log.
Proof.
  unfold sliceToSend, firstSurviving.
  destruct (findIndex _ log) as [i|] eqn:Hi.
  - destruct (findIndex_Some _ _ _ Hi) as (x & rest & -> & _ & ->). done.
  - by rewrite (findIndex_None _ _ Hi).
Qed.

Lemma gate_reflect payload database (first : Item.t) :
  negb (Item.sequence_no first =? DatabaseState.lastSeqNo database + 1)
  && neq_succ_of (Item.sequence_no first) (Payload.bundleSeqNo payload) = false
  ↔ contiguous payload database first.
Proof.
  unfold contiguous, neq_succ_of.
  destruct (Z.eqb_spec (Item.sequence_no first) (DatabaseState.lastSeqNo database + 1)).
  - simpl. split; [by left | done].
  - simpl. destruct (Payload.bundleSeqNo payload) as [b|].
    + destruct (Z.eqb_spec (Item.sequence_no first) (b + 1)); simpl.
      * split; [right; eauto | done].
      * split; [done|]. intros [?|(b' & [= <-] & ?)]; done.
    + split; [done|]. intros [?|(b' & ? & ?)]; done.
Qed.

Lemma last_cons_default {A : Type} (l : list A) (x d : A) :
  List.last (x :: l) d = List.last l x.
Proof.
  revert x d. induction l as [|y l IH]; intros x d; [done|].
  change (List.last (x :: y :: l) d) with (List.last (y :: l) d).
  rewrite IH. symmetry. apply IH.
Qed.

Lemma last_toWire (rest : list Item.t) (first d : Item.t) :
  Tx.seqNo (List.last (toWire first :: (toWire <$> rest)) (toWire d))
  = Item.sequence_no (List.last rest first).
Proof.
  rewrite last_cons_default. revert first.
  induction rest as [|y rest IH]; intros first; [done|].
  cbn [fmap list_fmap]. rewrite !last_cons_default. apply IH.
Qed.

(* sendPayload, unfolded once and for all into its three exits. *)
Lemma sendPayload_cases est this payload log database :
  (firstSurviving database log = None
   ∧ Connection.sendPayload est this payload log database = (this, database))
  ∨ (∃ first rest,
       sliceToSend database log = first :: rest
       ∧ firstSurviving database log = Some first
       ∧ ¬ contiguous payload database first
       ∧ Connection.sendPayload est this payload log database = (this, database))
  ∨ (∃ first rest,
       sliceToSend database log = first :: rest
       ∧ firstSurviving database log = Some first
       ∧ contiguous payload database first
       ∧ Connection.sendPayload est this payload log database =
         let size := Connection.sizeOf est (first :: rest) in
         let transactionLog := toWire <$> (first :: rest) in
         let full :=
           bool_decide (TRANSACTION_SIZE_BUNDLE_TRIGGER
                        ≤ DatabaseState.transactionLogSize database + size) in
         (Connection.set_socket this
            (Socket.send (Connection.socket this)
               (ApplyTransactions payload transactionLog full)),
          {| DatabaseState.bundleSeqNo := DatabaseState.bundleSeqNo database;
             DatabaseState.lastSeqNo := Item.sequence_no (List.last rest first);
             DatabaseState.transactionLogSize :=
               if full then 0 else DatabaseState.transactionLogSize database + size;
             DatabaseState.init := true |})).
Proof.
  pose proof (sliceToSend_head database log) as Hhead.
  unfold Connection.sendPayload, sliceToSend in *.
  change (λ transaction : Item.t,
            DatabaseState.lastSeqNo database <? Item.sequence_no transaction)
    with (Connection.notYetSent database).
  destruct (findIndex (Connection.notYetSent database) log) as [i|] eqn:Hi.
  - destruct (drop i log) as [|first rest] eqn:Hd.
    { left. by rewrite <- Hhead. }
    right. simpl in Hhead. cbn [fmap list_fmap].
    change (Tx.seqNo (toWire first)) with (Item.sequence_no first).
    destruct (negb _ && _) eqn:Hgate.
    + left. exists first, rest. repeat split; [done|].
      intros Hc. apply gate_reflect in Hc. congruence.
    + right. exists first, rest. apply gate_reflect in Hgate.
      repeat split; [done..|].
      cbn zeta.
      rewrite last_toWire.
      destruct (Z.leb_spec TRANSACTION_SIZE_BUNDLE_TRIGGER
                  (DatabaseState.transactionLogSize database
                   + Connection.sizeOf est (first :: rest))).
      * by rewrite bool_decide_eq_true_2.
      * rewrite bool_decide_eq_false_2; [done | lia].
  - left. by rewrite <- Hhead.
Qed.

(* --------------------------------------------------------------------- *)
(* sendPayload: the contiguity gate and the bundling trigger             *)
(* --------------------------------------------------------------------- *)

(** C1. sendPayload sends nothing unless the first entry of the buffer whose
    seqNo is above database.lastSeqNo has seqNo = database.lastSeqNo + 1, or
    seqNo = payload.bundleSeqNo + 1 when the payload carries a bundleSeqNo
    (without one that alternative does not exist): for every buffer and
    DatabaseState failing the gate, the connection (its socket included) and
    the DatabaseState come back unchanged. *)
Theorem sendPayload_contiguity_gate
    (est : Item.t → Z) (this : Connection.t) (payload : Payload.t)
    (log : list Item.t) (database : DatabaseState.t)
    (Hgate : ∀ first, firstSurviving database log = Some first →
       Item.sequence_no first ≠ DatabaseState.lastSeqNo database + 1
       ∧ match Payload.bundleSeqNo payload with
         | Some b => Item.sequence_no first ≠ b + 1
         | None => True
         end) :
  Connection.sendPayload est this payload log database = (this, database).
Proof.
  destruct (sendPayload_cases est this payload log database)
    as [[_ ->]|[(first & rest & _ & _ & _ & ->)|(first & rest & _ & Hf & Hc & _)]];
    [done..|].
  destruct (Hgate first Hf) as [Hne Hb].
  destruct Hc as [?|(b & Hsome & ?)]; [done|].
  rewrite Hsome in Hb. done.
Qed.

Lemma sendPayload_contiguity_gate_witness :
  Connection.sendPayload sampleSize sampleConnection barePayload
    [sampleItem 3 0; sampleItem 7 0; sampleItem 8 0]
    (DatabaseState.mk (-1) 4 0 true)
  = (sampleConnection, DatabaseState.mk (-1) 4 0 true).
Proof.
  apply sendPayload_contiguity_gate.
  intros first [= <-]. simpl. split; [lia | exact I].
Defined.

(* The gate is exact: when it holds, a message goes out. *)
Lemma sendPayload_emits_when_contiguous est this payload log database first :
  firstSurviving database log = Some first →
  contiguous payload database first →
  ∃ m, Socket.sent (Connection.socket
         (Connection.sendPayload est this payload log database).1)
       = Socket.sent (Connection.socket this) ++ [m].
Proof.
  intros Hf Hc.
  destruct (sendPayload_cases est this payload log database)
    as [[Hn _]|[(f & rest & _ & Hf' & Hnc & _)|(f & rest & _ & _ & _ & ->)]].
  - congruence.
  - rewrite Hf in Hf'. injection Hf' as <-. done.
  - simpl. eauto.
Qed.

(** C3. For every emission of sendPayload, with size the estimated size of
    the entries sent: the message carries buildBundle = true exactly when
    database.transactionLogSize + size >= 50 * 1024, and then
    transactionLogSize is reset to 0; otherwise the message carries no flag
    and transactionLogSize grows by size. *)
Theorem sendPayload_bundle_trigger
    (est : Item.t → Z) (this this' : Connection.t) (payload : Payload.t)
    (log : list Item.t) (database database' : DatabaseState.t)
    (Hcall : Connection.sendPayload est this payload log database = (this', database'))
    (Hemit : Socket.sent (Connection.socket this') ≠ Socket.sent (Connection.socket this)) :
  let size := Connection.sizeOf est (sliceToSend database log) in
  let transactionLog := toWire <$> sliceToSend database log in
  (50 * 1024 ≤ DatabaseState.transactionLogSize database + size
   ∧ Socket.sent (Connection.socket this')
     = Socket.sent (Connection.socket this)
       ++ [ApplyTransactions payload transactionLog true]
   ∧ DatabaseState.transactionLogSize database' = 0)
  ∨ (DatabaseState.transactionLogSize database + size < 50 * 1024
     ∧ Socket.sent (Connection.socket this')
       = Socket.sent (Connection.socket this)
         ++ [ApplyTransactions payload transactionLog false]
     ∧ DatabaseState.transactionLogSize database'
       = DatabaseState.transactionLogSize database + size).
Proof.
  intros size transactionLog. subst size transactionLog.
  destruct (sendPayload_cases est this payload log database)
    as [[_ Heq]|[(first & rest & _ & _ & _ & Heq)|(first & rest & Hs & _ & _ & Heq)]].
  - rewrite Heq in Hcall. injection Hcall as <- <-. done.
  - rewrite Heq in Hcall. injection Hcall as <- <-. done.
  - rewrite Heq in Hcall. cbn zeta in Hcall. injection Hcall as <- <-.
    rewrite Hs. simpl.
    change (50 * 1024) with TRANSACTION_SIZE_BUNDLE_TRIGGER.
    case_bool_decide as Hfull.
    + left. done.
    + right. split; [lia | done].
Qed.

Lemma sendPayload_bundle_trigger_witness :
  (50 * 1024 ≤ 51150 + 100
   ∧ Socket.sent (Connection.socket
       (Connection.sendPayload sampleSize sampleConnection barePayload
          [sampleItem 5 0] (DatabaseState.mk (-1) 4 51150 true)).1)
     = [ApplyTransactions barePayload [toWire (sampleItem 5 0)] true]
   ∧ DatabaseState.transactionLogSize
       (Connection.sendPayload sampleSize sampleConnection barePayload
          [sampleItem 5 0] (DatabaseState.mk (-1) 4 51150 true)).2 = 0)
  ∨ (51150 + 100 < 50 * 1024
     ∧ Socket.sent (Connection.socket
         (Connection.sendPayload sampleSize sampleConnection barePayload
            [sampleItem 5 0] (DatabaseState.mk (-1) 4 51150 true)).1)
       = [ApplyTransactions barePayload [toWire (sampleItem 5 0)] false]
     ∧ DatabaseState.transactionLogSize
         (Connection.sendPayload sampleSize sampleConnection barePayload
            [sampleItem 5 0] (DatabaseState.mk (-1) 4 51150 true)).2 = 51150 + 100).
Proof.
  exact (sendPayload_bundle_trigger sampleSize sampleConnection _ barePayload
           [sampleItem 5 0] (DatabaseState.mk (-1) 4 51150 true) _
           eq_refl ltac:(vm_compute; discriminate)).
Defined.

(* --------------------------------------------------------------------- *)
(* The store: rows are never removed, pages are ascending                *)
(* --------------------------------------------------------------------- *)

Arguments Ddb.query : simpl never.
Arguments Ddb.put : simpl never.

#[global] Instance bySeqNo_trans : Transitive Ddb.bySeqNo.
Proof. unfold Ddb.bySeqNo. intros x y z ??. lia. Qed.

#[global] Instance bySeqNo_total : Total Ddb.bySeqNo.
Proof. unfold Ddb.bySeqNo. intros x y. lia. Qed.

Lemma commit_incl rows item x : x ∈ rows → x ∈ Ddb.commit rows item.
Proof.
  unfold Ddb.commit. destruct (Ddb.occupied rows item); [done|].
  intros. apply elem_of_app. by left.
Qed.

Lemma foldl_commit_incl batch rows x : x ∈ rows → x ∈ foldl Ddb.commit rows batch.
Proof.
  revert rows. induction batch as [|b batch IH]; intros rows Hx; [done|].
  simpl. apply IH. by apply commit_incl.
Qed.

Lemma settle_incl w x : x ∈ Ddb.table w → x ∈ Ddb.table (Ddb.settle w).
Proof.
  unfold Ddb.settle. destruct (Ddb.inflight w); [done|].
  simpl. apply foldl_commit_incl.
Qed.

Lemma put_incl w item x : x ∈ Ddb.table w → x ∈ Ddb.table (Ddb.put w item).1.
Proof.
  intros Hx. apply settle_incl in Hx. unfold Ddb.put.
  destruct (Ddb.occupied _ item); simpl; [done|].
  apply elem_of_app. by left.
Qed.

Lemma put_Ok w item w' u :
  Ddb.put w item = (w', Ok u) →
  item ∈ Ddb.table w' ∧ Ddb.occupied (Ddb.table (Ddb.settle w)) item = false.
Proof.
  unfold Ddb.put. destruct (Ddb.occupied _ item) eqn:Ho; [done|].
  intros [= <-]. simpl. split; [set_solver|done].
Qed.

Lemma put_Throw w item w' e :
  Ddb.put w item = (w', Throw e) →
  w' = Ddb.settle w ∧ e = ConditionalCheckFailedException
  ∧ Ddb.occupied (Ddb.table w') item = true.
Proof.
  unfold Ddb.put. destruct (Ddb.occupied _ item) eqn:Ho; [|done].
  by intros [= <- <-].
Qed.

Lemma cnt_app p l1 l2 : cnt p (l1 ++ l2) = (cnt p l1 + cnt p l2)%nat.
Proof. unfold cnt. by rewrite List.filter_app, length_app. Qed.

Lemma cnt_commit p rows item :
  (cnt p (Ddb.commit rows item) ≤ cnt p rows + cnt p [item])%nat.
Proof.
  unfold Ddb.commit. destruct (Ddb.occupied rows item); [lia|].
  rewrite cnt_app. lia.
Qed.

Lemma cnt_foldl_commit p batch rows :
  (cnt p (foldl Ddb.commit rows batch) ≤ cnt p rows + cnt p batch)%nat.
Proof.
  revert rows. induction batch as [|b batch IH]; intros rows; simpl; [lia|].
  specialize (IH (Ddb.commit rows b)). pose proof (cnt_commit p rows b).
  change (b :: batch) with ([b] ++ batch). rewrite cnt_app. lia.
Qed.

Lemma remaining_settle p w : (remaining p (Ddb.settle w) ≤ remaining p w)%nat.
Proof.
  unfold remaining, Ddb.settle.
  destruct (Ddb.inflight w) as [|batch later] eqn:Hin; [rewrite Hin; lia|].
  simpl. rewrite !cnt_app. pose proof (cnt_foldl_commit p batch (Ddb.table w)). lia.
Qed.

Lemma cnt_lt (p q : Item.t → bool) (l : list Item.t) (x : Item.t) :
  (∀ y, q y = true → p y = true) → x ∈ l → p x = true → q x = false →
  (cnt q l < cnt p l)%nat.
Proof.
  intros Hqp. unfold cnt.
  induction l as [|y l IH]; intros Hx Hp Hq; [by apply elem_of_nil in Hx|].
  assert (∀ l', length (List.filter q l') ≤ length (List.filter p l'))%nat as Hle.
  { clear -Hqp. induction l' as [|z l' IH]; simpl; [lia|].
    destruct (q z) eqn:Hz; [rewrite (Hqp z Hz); simpl; lia|].
    destruct (p z); simpl; lia. }
  apply elem_of_cons in Hx as [<-|Hx].
  - simpl. rewrite Hp, Hq. simpl. specialize (Hle l). lia.
  - specialize (IH Hx Hp Hq). simpl.
    destruct (q y) eqn:Hz; [rewrite (Hqp y Hz); simpl; lia|].
    destruct (p y); simpl; lia.
Qed.

(* What one page of the range query guarantees. *)
Lemma query_spec w dbId seqNo esk w1 resp :
  Ddb.query w dbId seqNo esk = (w1, resp) →
  w1 = Ddb.settle w
  ∧ ascending (Ddb.Items resp)
  ∧ (∀ x, x ∈ Ddb.Items resp →
       x ∈ Ddb.table w1 ∧ Ddb.selected dbId seqNo esk x = true)
  ∧ (∀ k, Ddb.LastEvaluatedKey resp = Some k →
       ∃ x, last (Ddb.Items resp) = Some x ∧ Item.sequence_no x = k).
Proof.
  unfold Ddb.query. intros [= <- <-]. simpl.
  set (rows := merge_sort Ddb.bySeqNo _).
  assert (ascending rows) as Hsorted.
  { apply (Sorted_StronglySorted _), (Sorted_merge_sort _). }
  split; [done|]. split; [|split].
  - rewrite <- (take_drop (Pos.to_nat (Ddb.pageSize (Ddb.settle w))) rows) in Hsorted.
    by apply StronglySorted_app_1_l in Hsorted.
  - intros x Hx. apply elem_of_take in Hx as (i & Hx & _).
    apply list_elem_of_lookup_2 in Hx. unfold rows in Hx.
    rewrite merge_sort_Permutation in Hx.
    apply list_elem_of_In, List.filter_In in Hx as [Hx Hsel].
    by apply list_elem_of_In in Hx.
  - intros k. destruct (_ <? _)%nat; [|done].
    destruct (last _) as [x|]; [|done]. intros [= <-]. eauto.
Qed.

Lemma selected_resume dbId seqNo esk x y :
  Ddb.selected dbId seqNo esk x = true →
  Ddb.selected dbId seqNo (Some (Item.sequence_no x)) y = true →
  Ddb.selected dbId seqNo esk y = true.
Proof.
  unfold Ddb.selected. destruct esk as [k0|]; intros Hx Hy.
  - apply andb_true_iff in Hx as [Hx1 Hx2]. apply andb_true_iff in Hy as [Hy1 Hy2].
    rewrite Hy1. simpl. apply Z.ltb_lt in Hx2, Hy2. apply Z.ltb_lt. lia.
  - apply andb_true_iff in Hy as [Hy1 _]. rewrite Hy1. done.
Qed.

Lemma selected_not_self dbId seqNo x :
  Ddb.selected dbId seqNo (Some (Item.sequence_no x)) x = false.
Proof.
  unfold Ddb.selected. rewrite (Z.ltb_irrefl (Item.sequence_no x)).
  apply andb_false_r.
Qed.

(* Each further page leaves strictly fewer rows to come. *)
Lemma query_progress w dbId seqNo esk w1 resp k :
  Ddb.query w dbId seqNo esk = (w1, resp) →
  Ddb.LastEvaluatedKey resp = Some k →
  (remaining (Ddb.selected dbId seqNo (Some k)) w1
   < remaining (Ddb.selected dbId seqNo esk) w)%nat.
Proof.
  intros Hq Hk. destruct (query_spec _ _ _ _ _ _ Hq) as (Hw & _ & Hin & Hlast).
  subst w1.
  destruct (Hlast k Hk) as (x & Hx & <-).
  assert (x ∈ Ddb.Items resp) as Hxin.
  { apply last_Some in Hx as [l' Hl']. rewrite Hl'.
    apply elem_of_app. right. apply list_elem_of_here. }
  destruct (Hin x Hxin) as [Htable Hsel].
  eapply Nat.lt_le_trans; [|apply remaining_settle].
  unfold remaining. eapply (cnt_lt _ _ _ x).
  - intros y. by apply selected_resume.
  - apply elem_of_app. by left.
  - done.
  - apply selected_not_self.
Qed.

(* --------------------------------------------------------------------- *)
(* rollback                                                              *)
(* --------------------------------------------------------------------- *)

Lemma sentinels_S now databaseId i n :
  sentinels now databaseId i (S n)
  = Connection.rolledBackItem now databaseId i :: sentinels now databaseId (i + 1) n.
Proof.
  unfold sentinels. rewrite seqZ_cons by lia. cbn [fmap list_fmap].
  do 3 f_equal. lia.
Qed.

Lemma sentinels_range now databaseId i n x :
  x ∈ sentinels now databaseId i n →
  ∃ m, x = Connection.rolledBackItem now databaseId m ∧ i ≤ m < i + Z.of_nat n.
Proof.
  unfold sentinels. intros (m & -> & Hm)%list_elem_of_fmap.
  apply elem_of_seqZ in Hm. eauto.
Qed.

Lemma sentinels_ascending now databaseId i n : ascending (sentinels now databaseId i n).
Proof.
  revert i. induction n as [|n IH]; intros i; [constructor|].
  rewrite sentinels_S. constructor; [apply IH|].
  apply Forall_forall. intros x (m & -> & Hm)%sentinels_range.
  unfold Ddb.bySeqNo. simpl. lia.
Qed.

Lemma rollbackLoop_incl now n i databaseId w acc x :
  x ∈ Ddb.table w →
  x ∈ Ddb.table (Connection.rollbackLoop now n i databaseId w acc).1.
Proof.
  revert i w acc. induction n as [|n IH]; intros i w acc Hx; [done|].
  simpl. pose proof (put_incl w (Connection.rolledBackItem now databaseId i) x Hx) as Hput.
  destruct (Ddb.put w _) as [w1 [u|e]]; [|done]. by apply IH.
Qed.

(* All puts succeeded: the list returned holds one sentinel per slot, in
   increasing order, and each of them is in the table. *)
Lemma rollbackLoop_Ok now n i databaseId w acc w' l :
  Connection.rollbackLoop now n i databaseId w acc = (w', Ok l) →
  l = acc ++ sentinels now databaseId i n
  ∧ ∀ x, x ∈ sentinels now databaseId i n → x ∈ Ddb.table w'.
Proof.
  revert i w acc. induction n as [|n IH]; intros i w acc.
  - simpl. intros [= <- <-]. split; [by rewrite app_nil_r|].
    intros x Hx. by apply elem_of_nil in Hx.
  - simpl. destruct (Ddb.put w _) as [w1 [u|e]] eqn:Hput; [|done].
    intros Hrec. destruct (IH _ _ _ Hrec) as [-> Hin].
    rewrite sentinels_S. split; [by rewrite <- app_assoc|].
    intros x [->|Hx]%elem_of_cons; [|by apply Hin].
    apply put_Ok in Hput as [Hput _].
    apply (rollbackLoop_incl now n (i + 1) databaseId w1
             (acc ++ [Connection.rolledBackItem now databaseId i])) in Hput.
    by rewrite Hrec in Hput.
Qed.

(* A put failed: the loop stopped at the first occupied slot i + k; the
   sentinels of the k slots before it stay in the table. *)
Lemma rollbackLoop_Throw now n i databaseId w acc w' e :
  Connection.rollbackLoop now n i databaseId w acc = (w', Throw e) →
  e = ConditionalCheckFailedException
  ∧ ∃ k : nat, (k < n)%nat
      ∧ (∀ x, x ∈ sentinels now databaseId i k → x ∈ Ddb.table w')
      ∧ Ddb.occupied (Ddb.table w')
          (Connection.rolledBackItem now databaseId (i + Z.of_nat k)) = true.
Proof.
  revert i w acc. induction n as [|n IH]; intros i w acc; [done|].
  simpl. destruct (Ddb.put w _) as [w1 [u|e1]] eqn:Hput.
  - intros Hrec. destruct (IH _ _ _ Hrec) as (-> & k & Hk & Hin & Hocc).
    split; [done|]. exists (S k). split; [lia|]. split.
    + rewrite sentinels_S. intros x [->|Hx]%elem_of_cons; [|by apply Hin].
      apply put_Ok in Hput as [Hput _].
      apply (rollbackLoop_incl now n (i + 1) databaseId w1
               (acc ++ [Connection.rolledBackItem now databaseId i])) in Hput.
      by rewrite Hrec in Hput.
    + by replace (i + Z.of_nat (S k)) with (i + 1 + Z.of_nat k) by lia.
  - intros [= <- <-]. apply put_Throw in Hput as (_ & -> & Hocc).
    split; [done|]. exists O. split; [lia|]. split.
    + intros x Hx. by apply elem_of_nil in Hx.
    + by rewrite Z.add_0_r.
Qed.

(* --------------------------------------------------------------------- *)
(* The scan loop of push                                                 *)
(* --------------------------------------------------------------------- *)

Lemma ascending_filter p l : ascending l → ascending (List.filter p l).
Proof.
  unfold ascending. induction 1 as [|x l Hl IH Hx]; simpl; [constructor|].
  destruct (p x); [|done]. constructor; [done|].
  apply Forall_forall. intros y Hy%list_elem_of_In%List.filter_In.
  destruct Hy as [Hy _]. apply list_elem_of_In in Hy.
  by apply (proj1 (Forall_forall _ _) Hx).
Qed.

Lemma scanInv_push st l c :
  scanInv st → ascending l → Scan.lastSeqNo st ≤ c →
  Forall (λ x, Scan.lastSeqNo st ≤ Item.sequence_no x ≤ c) l →
  ∀ gap, scanInv {| Scan.lastSeqNo := c; Scan.gapInSeqNo := gap;
                    Scan.ddbTransactionLog := Scan.ddbTransactionLog st ++ l |}.
Proof.
  intros [Hasc Hle] Hl Hc Hrange gap. split; simpl.
  - apply StronglySorted_app_2; [|done..].
    intros x1 x2 H1 H2. unfold Ddb.bySeqNo.
    apply (proj1 (Forall_forall _ _) Hle) in H1.
    apply (proj1 (Forall_forall _ _) Hrange) in H2. lia.
  - apply Forall_app. split.
    + eapply Forall_impl; [exact Hle|]. simpl. lia.
    + eapply Forall_impl; [exact Hrange|]. simpl. lia.
Qed.

Lemma scanItems_stopped now database databaseId items w st :
  Scan.gapInSeqNo st = true →
  Connection.scanItems now database databaseId items w st = (w, Ok st).
Proof. intros Hgap. destruct items; simpl; [done|]. by rewrite Hgap. Qed.

(* A page that raises no gap issues no put and leaves the cursor on its
   last row. *)
Lemma scanItems_quiet now database databaseId items w st w' st' :
  Connection.scanItems now database databaseId items w st = (w', Ok st') →
  Scan.gapInSeqNo st' = false →
  w' = w ∧ ∀ x, last items = Some x → Scan.lastSeqNo st' = Item.sequence_no x.
Proof.
  revert w st. induction items as [|item rest IH]; intros w st.
  - simpl. intros [= <- <-] _. done.
  - simpl. destruct (Scan.gapInSeqNo st) eqn:Hgap.
    { intros [= <- <-] Hno. congruence. }
    destruct (Scan.lastSeqNo st + 1 <? Item.sequence_no item) eqn:Hjump.
    + (* a gap: the flag stays set, whichever branch handles it *)
      intros Hscan Hno. exfalso.
      destruct (SECONDS_BEFORE_ROLLBACK_GAP_TRIGGERED <? now - Item.creation_date item);
        simpl in Hscan.
      * destruct (Connection.rollback _ _ _ _ _) as [w1 [rolled|e]]; [|done].
        rewrite scanItems_stopped in Hscan by done. by simplify_eq/=.
      * rewrite scanItems_stopped in Hscan by done. by simplify_eq/=.
    + simpl. intros Hscan Hno.
      destruct (IH _ _ Hscan Hno) as [-> Hlast]. split; [done|].
      intros x Hx. destruct rest as [|y rest].
      * simpl in Hx, Hscan. by simplify_eq/=.
      * apply Hlast. by rewrite last_cons_cons in Hx.
Qed.

Lemma rollback_Ok now lastSeqNo thisSeqNo databaseId w w' rolled :
  Connection.rollback now lastSeqNo thisSeqNo databaseId w = (w', Ok rolled) →
  rolled = sentinels now databaseId (lastSeqNo + 1) (Z.to_nat (thisSeqNo - 1 - lastSeqNo))
  ∧ ∀ x, x ∈ rolled → x ∈ Ddb.table w'.
Proof.
  unfold Connection.rollback. intros H.
  destruct (rollbackLoop_Ok _ _ _ _ _ _ _ _ H) as [-> Hin]. done.
Qed.

(* The scan keeps its buffer ascending and never moves the cursor down. *)
Lemma scanItems_inv now database databaseId items w st w' st' :
  scanInv st → ascending items →
  Forall (λ x, Scan.lastSeqNo st ≤ Item.sequence_no x) items →
  Connection.scanItems now database databaseId items w st = (w', Ok st') →
  scanInv st' ∧ Scan.lastSeqNo st ≤ Scan.lastSeqNo st'.
Proof.
  revert w st. induction items as [|item rest IH]; intros w st Hinv Hasc Hlow.
  - simpl. intros [= <- <-]. split; [done | lia].
  - simpl. destruct (Scan.gapInSeqNo st) eqn:Hgap.
    { intros [= <- <-]. split; [done | lia]. }
    apply StronglySorted_inv in Hasc as [Hasc Hrest].
    apply Forall_cons in Hlow as [Hitem Hlow].
    assert (Forall (λ x, Item.sequence_no item ≤ Item.sequence_no x) rest) as Hnext
      by exact Hrest.
    destruct (Scan.lastSeqNo st + 1 <? Item.sequence_no item) eqn:Hjump.
    + destruct (SECONDS_BEFORE_ROLLBACK_GAP_TRIGGERED <? now - Item.creation_date item);
        simpl.
      * destruct (Connection.rollback _ _ _ _ _) as [w1 [rolled|e]] eqn:Hroll; [|done].
        rewrite scanItems_stopped by done. intros [= <- <-].
        apply rollback_Ok in Hroll as [-> _]. apply Z.ltb_lt in Hjump.
        split; [|simpl; lia].
        set (new := List.filter (Connection.notYetSent database) _).
        assert (ascending new) as Hnew
          by apply ascending_filter, sentinels_ascending.
        assert (Forall (λ x, Scan.lastSeqNo st ≤ Item.sequence_no x
                             ≤ Item.sequence_no item - 1) new) as Hrange.
        { apply Forall_forall. intros x Hx%list_elem_of_In%List.filter_In.
          destruct Hx as [Hx _]. apply list_elem_of_In, sentinels_range in Hx.
          destruct Hx as (m & -> & Hm). simpl. lia. }
        destruct (Connection.notYetSent database item).
        -- rewrite <- app_assoc. apply scanInv_push; [done| |lia|].
           ++ apply StronglySorted_app_2; [|done|repeat constructor].
              intros x1 x2 H1 ->%list_elem_of_singleton. unfold Ddb.bySeqNo.
              apply (proj1 (Forall_forall _ _) Hrange) in H1. lia.
           ++ apply Forall_app. split.
              ** eapply Forall_impl; [exact Hrange|]. simpl. lia.
              ** repeat constructor; lia.
        -- apply scanInv_push; [done..|lia|].
           eapply Forall_impl; [exact Hrange|]. simpl. lia.
      * rewrite scanItems_stopped by done. intros [= <- <-]. split; [|simpl; lia].
        destruct Hinv as [H1 H2]. by split.
    + simpl. intros Hscan.
      assert (scanInv
                {| Scan.lastSeqNo := Item.sequence_no item;
                   Scan.gapInSeqNo := false;
                   Scan.ddbTransactionLog :=
                     if Connection.notYetSent database item
                     then Scan.ddbTransactionLog st ++ [item]
                     else Scan.ddbTransactionLog st |}) as Hinv'.
      { destruct (Connection.notYetSent database item).
        - apply scanInv_push; [done|repeat constructor|done|].
          repeat constructor; lia.
        - rewrite <- (app_nil_r (Scan.ddbTransactionLog st)).
          apply scanInv_push; [done|constructor|done|constructor]. }
      destruct (IH _ _ Hinv' Hasc Hnext Hscan) as [Hfin Hle].
      split; [done|]. simpl in Hle. lia.
Qed.

Lemma cnt_le_length p l : (cnt p l ≤ length l)%nat.
Proof.
  unfold cnt. induction l as [|x l IH]; simpl; [lia|].
  destruct (p x); simpl; lia.
Qed.

(* The do-while loop ends: one unit of fuel per row in sight is enough. *)
Lemma scanPages_total now database databaseId seqNo fuel esk w st :
  (remaining (Ddb.selected databaseId seqNo esk) w < fuel)%nat →
  is_Some (Connection.scanPages now fuel database databaseId seqNo esk w st).
Proof.
  revert esk w st. induction fuel as [|fuel IH]; intros esk w st Hfuel; [lia|].
  cbn [Connection.scanPages]. destruct (Ddb.query w databaseId seqNo esk) as [w1 resp] eqn:Hq.
  destruct (Connection.scanItems _ _ _ _ _ _) as [w2 [st'|e]] eqn:Hscan; [|by eexists].
  destruct (Ddb.LastEvaluatedKey resp) as [k|] eqn:Hk; [|by eexists].
  destruct (Scan.gapInSeqNo st') eqn:Hgap; [by eexists|].
  destruct (scanItems_quiet _ _ _ _ _ _ _ _ Hscan Hgap) as [-> _].
  apply IH. pose proof (query_progress _ _ _ _ _ _ _ Hq Hk). lia.
Qed.

(* More fuel does not change a result. *)
Lemma scanPages_fuel_mono now database databaseId seqNo fuel fuel' esk w st r :
  Connection.scanPages now fuel database databaseId seqNo esk w st = Some r →
  (fuel ≤ fuel')%nat →
  Connection.scanPages now fuel' database databaseId seqNo esk w st = Some r.
Proof.
  revert fuel' esk w st. induction fuel as [|fuel IH]; intros fuel' esk w st; [done|].
  destruct fuel' as [|fuel']; [lia|]. cbn [Connection.scanPages].
  destruct (Ddb.query w databaseId seqNo esk) as [w1 resp].
  destruct (Connection.scanItems _ _ _ _ _ _) as [w2 [st'|e]]; [|done].
  destruct (Ddb.LastEvaluatedKey resp) as [k|]; [|done].
  destruct (Scan.gapInSeqNo st'); [done|].
  intros Hrec Hle. apply IH; [done | lia].
Qed.

Lemma selected_above databaseId seqNo esk x :
  Ddb.selected databaseId seqNo esk x = true →
  seqNo < Item.sequence_no x
  ∧ match esk with Some k => k < Item.sequence_no x | None => True end.
Proof.
  unfold Ddb.selected. intros [[_ H1]%andb_true_iff H2]%andb_true_iff.
  apply Z.ltb_lt in H1. split; [done|].
  destruct esk; [by apply Z.ltb_lt | done].
Qed.

(* The whole scan keeps the buffer ascending. *)
Lemma scanPages_inv now database databaseId seqNo fuel esk w st w' st' :
  scanInv st →
  Scan.lastSeqNo st ≤ match esk with Some k => k | None => seqNo end →
  Connection.scanPages now fuel database databaseId seqNo esk w st = Some (w', Ok st') →
  scanInv st' ∧ Scan.lastSeqNo st ≤ Scan.lastSeqNo st'.
Proof.
  revert esk w st. induction fuel as [|fuel IH]; intros esk w st Hinv Hentry; [done|].
  cbn [Connection.scanPages]. destruct (Ddb.query w databaseId seqNo esk) as [w1 resp] eqn:Hq.
  destruct (query_spec _ _ _ _ _ _ Hq) as (_ & Hasc & Hsel & Hlast).
  assert (Forall (λ x, Scan.lastSeqNo st ≤ Item.sequence_no x) (Ddb.Items resp)) as Hlow.
  { apply Forall_forall. intros x Hx. destruct (Hsel x Hx) as [_ Hx'].
    apply selected_above in Hx' as [H1 H2]. destruct esk; lia. }
  destruct (Connection.scanItems _ _ _ _ _ _) as [w2 [st1|e]] eqn:Hscan; [|done].
  destruct (scanItems_inv _ _ _ _ _ _ _ _ Hinv Hasc Hlow Hscan) as [Hinv1 Hle1].
  destruct (Ddb.LastEvaluatedKey resp) as [k|] eqn:Hk.
  - destruct (Scan.gapInSeqNo st1) eqn:Hgap.
    + intros [= <- <-]. done.
    + intros Hrec.
      destruct (scanItems_quiet _ _ _ _ _ _ _ _ Hscan Hgap) as [_ Hcursor].
      destruct (Hlast k eq_refl) as (x & Hx & <-).
      destruct (IH (Some (Item.sequence_no x)) w2 st1 Hinv1) as [Hfin Hle2]; [|done|].
      * rewrite (Hcursor x Hx). lia.
      * split; [done | lia].
  - intros [= <- <-]. done.
Qed.

(* --------------------------------------------------------------------- *)
(* sendPayload and lastSeqNo                                             *)
(* --------------------------------------------------------------------- *)

Lemma sliceToSend_ascending database log :
  ascending log → ascending (sliceToSend database log).
Proof.
  unfold sliceToSend. intros Hasc.
  destruct (findIndex _ log) as [i|]; [|constructor].
  rewrite <- (take_drop i log) in Hasc. by apply StronglySorted_app_1_r in Hasc.
Qed.

Lemma firstSurviving_above database log first :
  firstSurviving database log = Some first →
  DatabaseState.lastSeqNo database < Item.sequence_no first.
Proof.
  unfold firstSurviving. intros Hhead.
  assert (first ∈ List.filter (Connection.notYetSent database) log) as Hin.
  { destruct (List.filter _ log) as [|y l]; [done|].
    simpl in Hhead. injection Hhead as ->. apply list_elem_of_here. }
  apply list_elem_of_In, List.filter_In in Hin as [_ Hp].
  by apply Z.ltb_lt in Hp.
Qed.

Lemma last_ascending (first : Item.t) (rest : list Item.t) :
  ascending (first :: rest) →
  Item.sequence_no first ≤ Item.sequence_no (List.last rest first).
Proof.
  intros [_ Hall]%StronglySorted_inv.
  destruct rest as [|y rest] using rev_ind; [simpl; lia|].
  rewrite List.last_last.
  apply Forall_app in Hall as [_ Hy]. by apply Forall_inv in Hy.
Qed.

(* On a buffer in ascending seqNo order, sendPayload never lowers
   database.lastSeqNo. *)
Lemma sendPayload_lastSeqNo est this payload log database :
  ascending log →
  DatabaseState.lastSeqNo database
  ≤ DatabaseState.lastSeqNo (Connection.sendPayload est this payload log database).2.
Proof.
  intros Hasc.
  destruct (sendPayload_cases est this payload log database)
    as [[_ ->]|[(first & rest & _ & _ & _ & ->)|(first & rest & Hs & Hf & _ & ->)]];
    [simpl; lia..|].
  simpl. apply firstSurviving_above in Hf.
  apply (sliceToSend_ascending database) in Hasc. rewrite Hs in Hasc.
  apply last_ascending in Hasc. lia.
Qed.

(* sendPayload touches the socket of the connection and nothing else. *)
Lemma sendPayload_connection est this payload log database :
  ∃ socket',
    (Connection.sendPayload est this payload log database).1
    = Connection.set_socket this socket'.
Proof.
  destruct (sendPayload_cases est this payload log database)
    as [[_ ->]|[(first & rest & _ & _ & _ & ->)|(first & rest & _ & _ & _ & ->)]];
    simpl; [exists (Connection.socket this); by destruct this..|eauto].
Qed.

(* --------------------------------------------------------------------- *)
(* push                                                                  *)
(* --------------------------------------------------------------------- *)

Lemma push_closed est gb now fuel w this databaseId h k r :
  Connection.databases this !! databaseId = None →
  Connection.push est gb now fuel w this databaseId h k r = Some (w, this, Returned).
Proof. unfold Connection.push. by intros ->. Qed.

Lemma push_out_of_fuel est gb now fuel w this databaseId h k r database :
  Connection.databases this !! databaseId = Some database →
  scan now fuel w databaseId database = None →
  Connection.push est gb now fuel w this databaseId h k r = None.
Proof.
  intros Hdb Hscan. unfold Connection.push. rewrite Hdb. cbn zeta.
  unfold scan, startScan, attachesBundle in Hscan. cbn [Scan.lastSeqNo] in Hscan.
  by rewrite Hscan.
Qed.

Lemma push_scan_Throw est gb now fuel w this databaseId h k r database w' e :
  Connection.databases this !! databaseId = Some database →
  scan now fuel w databaseId database = Some (w', Throw e) →
  Connection.push est gb now fuel w this databaseId h k r = Some (w', this, Threw e).
Proof.
  intros Hdb Hscan. unfold Connection.push. rewrite Hdb. cbn zeta.
  unfold scan, startScan, attachesBundle in Hscan. cbn [Scan.lastSeqNo] in Hscan.
  by rewrite Hscan.
Qed.

(* push after a scan that ended normally. *)
Lemma push_scan_Ok est gb now fuel w this databaseId h k r database w' st :
  Connection.databases this !! databaseId = Some database →
  scan now fuel w databaseId database = Some (w', Ok st) →
  Connection.push est gb now fuel w this databaseId h k r =
  let opening := openingDatabase h k r in
  let reopening := reopeningDatabase r in
  let payload := pushPayload gb databaseId h k r database in
  if opening && negb (DatabaseState.lastSeqNo database =? 0)
  then Some (w', this, Returned)
  else if reopening && negb (bool_decide (Some (DatabaseState.lastSeqNo database) = r))
  then Some (w', this, Returned)
  else if negb opening && negb (DatabaseState.init database)
  then Some (w', this, Returned)
  else
    match Scan.ddbTransactionLog st with
    | [] =>
      if opening || reopening
      then
        Some (w',
              Connection.set_database
                (Connection.set_socket this
                   (Socket.send (Connection.socket this)
                      (ApplyTransactions payload [] false)))
                databaseId
                {| DatabaseState.bundleSeqNo := DatabaseState.bundleSeqNo database;
                   DatabaseState.lastSeqNo :=
                     if truthy (Payload.bundle payload)
                     then DatabaseState.bundleSeqNo database
                     else DatabaseState.lastSeqNo database;
                   DatabaseState.transactionLogSize :=
                     DatabaseState.transactionLogSize database;
                   DatabaseState.init := true |},
              Returned)
      else Some (w', this, Returned)
    | _ :: _ =>
      Some (w',
            Connection.set_database
              (Connection.sendPayload est this payload (Scan.ddbTransactionLog st) database).1
              databaseId
              (Connection.sendPayload est this payload (Scan.ddbTransactionLog st) database).2,
            Returned)
    end.
Proof.
  intros Hdb Hscan. unfold Connection.push. rewrite Hdb. cbn zeta.
  unfold scan, startScan, attachesBundle in Hscan. cbn [Scan.lastSeqNo] in Hscan.
  rewrite Hscan.
  fold (reopeningDatabase r). fold (openingDatabase h k r).
  fold (attachesBundle database). fold (pushPayload gb databaseId h k r database).
  repeat (destruct (_ && _); [done|]).
  destruct (Scan.ddbTransactionLog st) as [|t log]; [done|].
  by destruct (Connection.sendPayload _ _ _ _ _).
Qed.

Lemma scan_total now fuel w databaseId database :
  (rowsInSight w < fuel)%nat → is_Some (scan now fuel w databaseId database).
Proof.
  intros Hfuel. apply scanPages_total. unfold remaining, rowsInSight in *.
  eapply Nat.le_lt_trans; [apply cnt_le_length | done].
Qed.

(* push always completes, given one unit of fuel per row in sight. *)
Lemma push_total est gb now fuel w this databaseId h k r :
  (rowsInSight w < fuel)%nat →
  is_Some (Connection.push est gb now fuel w this databaseId h k r).
Proof.
  intros Hfuel.
  destruct (Connection.databases this !! databaseId) as [database|] eqn:Hdb.
  - destruct (scan_total now fuel w databaseId database Hfuel) as [[w' [st|e]] Hscan].
    + rewrite (push_scan_Ok _ _ _ _ _ _ _ _ _ _ _ _ _ Hdb Hscan). cbn zeta.
      repeat (destruct (_ && _); [by eexists|]).
      destruct (Scan.ddbTransactionLog st); [|by eexists].
      destruct (_ || _); by eexists.
    + rewrite (push_scan_Throw _ _ _ _ _ _ _ _ _ _ _ _ _ Hdb Hscan). by eexists.
  - rewrite push_closed by done. by eexists.
Qed.

(* The result of push does not depend on the fuel, once there is enough. *)
Lemma push_fuel_mono est gb now fuel fuel' w this databaseId h k r res :
  Connection.push est gb now fuel w this databaseId h k r = Some res →
  (fuel ≤ fuel')%nat →
  Connection.push est gb now fuel' w this databaseId h k r = Some res.
Proof.
  intros Hpush Hle.
  destruct (Connection.databases this !! databaseId) as [database|] eqn:Hdb;
    [|rewrite push_closed in *; done].
  destruct (scan now fuel w databaseId database) as [[w' [st|e]]|] eqn:Hscan.
  - pose proof (scanPages_fuel_mono _ _ _ _ _ _ _ _ _ _ Hscan Hle) as Hscan'.
    rewrite (push_scan_Ok _ _ _ _ _ _ _ _ _ _ _ _ _ Hdb Hscan) in Hpush.
    by rewrite (push_scan_Ok _ _ _ _ _ _ _ _ _ _ _ _ _ Hdb Hscan').
  - pose proof (scanPages_fuel_mono _ _ _ _ _ _ _ _ _ _ Hscan Hle) as Hscan'.
    rewrite (push_scan_Throw _ _ _ _ _ _ _ _ _ _ _ _ _ Hdb Hscan) in Hpush.
    by rewrite (push_scan_Throw _ _ _ _ _ _ _ _ _ _ _ _ _ Hdb Hscan').
  - by rewrite (push_out_of_fuel _ _ _ _ _ _ _ _ _ _ _ Hdb Hscan) in Hpush.
Qed.

Lemma scan_ascending now fuel w databaseId database w' st :
  scan now fuel w databaseId database = Some (w', Ok st) →
  ascending (Scan.ddbTransactionLog st).
Proof.
  unfold scan. intros Hscan.
  eapply scanPages_inv in Hscan as [[Hasc _] _]; [done| |simpl; lia].
  split; simpl; constructor.
Qed.

Lemma bundle_truthy_attached gb databaseId h k r database :
  truthy (Payload.bundle (pushPayload gb databaseId h k r database)) = true →
  0 < DatabaseState.bundleSeqNo database ∧ DatabaseState.lastSeqNo database = 0.
Proof.
  unfold pushPayload, attachesBundle. simpl.
  destruct (0 <? DatabaseState.bundleSeqNo database) eqn:H1; [|done].
  destruct (DatabaseState.lastSeqNo database =? 0) eqn:H2; [|done].
  intros _. apply Z.ltb_lt in H1. apply Z.eqb_eq in H2. done.
Qed.

(* A completed push keeps every database of the connection open and never
   lowers its lastSeqNo. *)
Lemma push_lastSeqNo est gb now fuel w this databaseId h k r w' this' out d database :
  Connection.push est gb now fuel w this databaseId h k r = Some (w', this', out) →
  Connection.databases this !! d = Some database →
  ∃ database', Connection.databases this' !! d = Some database'
    ∧ DatabaseState.lastSeqNo database ≤ DatabaseState.lastSeqNo database'.
Proof.
  intros Hpush Hd.
  assert (∃ database', Connection.databases this !! d = Some database'
            ∧ DatabaseState.lastSeqNo database ≤ DatabaseState.lastSeqNo database')
    as Hsame by (exists database; split; [done | lia]).
  destruct (Connection.databases this !! databaseId) as [db0|] eqn:Hdb;
    [|rewrite push_closed in Hpush by done; by simplify_eq].
  destruct (scan now fuel w databaseId db0) as [[w1 [st|e]]|] eqn:Hscan;
    [|rewrite (push_scan_Throw _ _ _ _ _ _ _ _ _ _ _ _ _ Hdb Hscan) in Hpush;
      by simplify_eq
     |rewrite (push_out_of_fuel _ _ _ _ _ _ _ _ _ _ _ Hdb Hscan) in Hpush; done].
  rewrite (push_scan_Ok _ _ _ _ _ _ _ _ _ _ _ _ _ Hdb Hscan) in Hpush.
  cbn zeta in Hpush.
  repeat (destruct (_ && _); [by simplify_eq|]).
  destruct (Scan.ddbTransactionLog st) as [|t log] eqn:Hlog.
  - destruct (_ || _); [|by simplify_eq].
    injection Hpush as <- <- <-. simpl.
    destruct (decide (d = databaseId)) as [->|Hne];
      [|rewrite lookup_insert_ne by done; exact Hsame].
    rewrite lookup_insert_eq. eexists. split; [done|]. simpl.
    assert (database = db0) as -> by congruence.
    destruct (truthy _) eqn:Hb; [|lia].
    apply (bundle_truthy_attached gb databaseId h k r) in Hb. lia.
  - injection Hpush as <- <- <-.
    set (payload := pushPayload gb databaseId h k r db0).
    destruct (sendPayload_connection est this payload (t :: log) db0) as [socket' ->].
    simpl.
    destruct (decide (d = databaseId)) as [->|Hne];
      [|rewrite lookup_insert_ne by done; exact Hsame].
    rewrite lookup_insert_eq. eexists. split; [done|].
    assert (database = db0) as -> by congruence.
    apply sendPayload_lastSeqNo. rewrite <- Hlog. by eapply scan_ascending.
Qed.

Lemma pushTo_lastSeqNo est gb now fuel w conn transaction w' conn' out d database :
  Connections.pushTo est gb now fuel w conn transaction = Some (w', conn', out) →
  Connection.databases conn !! d = Some database →
  ∃ database', Connection.databases conn' !! d = Some database'
    ∧ DatabaseState.lastSeqNo database ≤ DatabaseState.lastSeqNo database'.
Proof.
  unfold Connections.pushTo. intros Hpush Hd.
  destruct (Connection.databases conn !! Item.database_id transaction)
    as [db0|] eqn:Hdb; [|by eapply push_lastSeqNo].
  destruct (_ =? _); [|by eapply push_lastSeqNo].
  set (payload := Payload.mk _ _ _ _ _) in Hpush.
  destruct (Connection.sendPayload est conn payload [transaction] db0)
    as [conn1 db1] eqn:Hsend.
  injection Hpush as <- <- <-.
  pose proof (sendPayload_lastSeqNo est conn payload [transaction] db0) as Hmono.
  destruct (sendPayload_connection est conn payload [transaction] db0) as [socket' Hconn].
  rewrite Hsend in Hmono, Hconn. simpl in Hmono, Hconn. subst conn1. simpl.
  destruct (decide (d = Item.database_id transaction)) as [->|Hne].
  - rewrite lookup_insert_eq. eexists. split; [done|].
    assert (database = db0) as -> by congruence.
    apply Hmono. repeat constructor.
  - rewrite lookup_insert_ne by done. exists database. split; [done | lia].
Qed.

(** C4. In push, when the scan leaves the buffer empty: if the call is an
    opening with database.lastSeqNo = 0, or a reopening at
    database.lastSeqNo of an initialised database (the post-scan re-checks
    pass), the payload is still sent with an empty transactionLog, lastSeqNo
    becomes bundleSeqNo when the payload carries a bundle (a non-empty blob)
    and is unchanged otherwise, and init becomes true; if the call is neither
    an opening nor a reopening, nothing is sent and the connection, its
    DatabaseState included, is unchanged. *)
Theorem push_empty_buffer
    (est : Item.t → Z) (gb : string → Z → option string) (now : Z) (fuel : nat)
    (w : Ddb.t) (this : Connection.t) (databaseId : string)
    (h k : option string) (r : option Z)
    (database : DatabaseState.t) (w' : Ddb.t) (st : Scan.t)
    (Hdb : Connection.databases this !! databaseId = Some database)
    (Hscan : scan now fuel w databaseId database = Some (w', Ok st))
    (Hempty : Scan.ddbTransactionLog st = []) :
  let payload := pushPayload gb databaseId h k r database in
  ((openingDatabase h k r = true ∧ DatabaseState.lastSeqNo database = 0
    ∨ reopeningDatabase r = true ∧ r = Some (DatabaseState.lastSeqNo database)
      ∧ DatabaseState.init database = true) →
   Connection.push est gb now fuel w this databaseId h k r =
   Some (w',
         Connection.set_database
           (Connection.set_socket this
              (Socket.send (Connection.socket this) (ApplyTransactions payload [] false)))
           databaseId
           {| DatabaseState.bundleSeqNo := DatabaseState.bundleSeqNo database;
              DatabaseState.lastSeqNo :=
                if truthy (Payload.bundle payload)
                then DatabaseState.bundleSeqNo database
                else DatabaseState.lastSeqNo database;
              DatabaseState.transactionLogSize := DatabaseState.transactionLogSize database;
              DatabaseState.init := true |},
         Returned))
  ∧ (openingDatabase h k r = false → reopeningDatabase r = false →
     Connection.push est gb now fuel w this databaseId h k r = Some (w', this, Returned)).
Proof.
  intros payload. subst payload.
  rewrite (push_scan_Ok _ _ _ _ _ _ _ _ _ _ _ _ _ Hdb Hscan). cbn zeta.
  rewrite Hempty. split.
  - intros [[Hopen Hzero]|(Hreopen & -> & Hinit)].
    + assert (reopeningDatabase r = false) as Hre.
      { unfold openingDatabase in Hopen. by destruct (reopeningDatabase r), (truthy h), (truthy k). }
      rewrite Hopen, Hre, Hzero. done.
    + assert (openingDatabase h k (Some (DatabaseState.lastSeqNo database)) = false) as Hop.
      { unfold openingDatabase. rewrite Hreopen. by destruct (truthy h), (truthy k). }
      rewrite Hop, Hreopen, Hinit. simpl. by rewrite bool_decide_eq_true_2.
  - intros -> ->. simpl. by destruct (DatabaseState.init database).
Qed.

Lemma push_empty_buffer_witness :
  Connection.push sampleSize sampleBundle 100000 5 (Ddb.mk [] [] 2)
    (Connection.openDatabase sampleConnection "D" 100 None)
    "D" (Some "h") (Some "k") None
  = Some (Ddb.mk [] [] 2,
          Connection.set_database
            (Connection.set_socket sampleConnection
               (Socket.mk
                  [ApplyTransactions
                     (Payload.mk "D" (Some "h") (Some "k") (Some 100) (Some "blob"))
                     [] false]
                  None))
            "D" (DatabaseState.mk 100 100 0 true),
          Returned).
Proof.
  exact (proj1 (push_empty_buffer sampleSize sampleBundle 100000 5 (Ddb.mk [] [] 2)
                  (Connection.openDatabase sampleConnection "D" 100 None)
                  "D" (Some "h") (Some "k") None
                  (DatabaseState.mk 100 0 0 false) (Ddb.mk [] [] 2)
                  (Scan.mk 100 false [])
                  eq_refl eq_refl eq_refl)
               (or_introl (conj eq_refl eq_refl))).
Defined.

(* --------------------------------------------------------------------- *)
(* The scan after a rollback                                             *)
(* --------------------------------------------------------------------- *)

(* Once an old gap has been rolled back, the gap-ending row is processed,
   gapInSeqNo stays set, and the rows after it on the page are not looked
   at. *)
Lemma scanItems_after_rollback now database databaseId item rest w st w1 rolled :
  Scan.gapInSeqNo st = false →
  Scan.lastSeqNo st + 1 < Item.sequence_no item →
  SECONDS_BEFORE_ROLLBACK_GAP_TRIGGERED < now - Item.creation_date item →
  Connection.rollback now (Scan.lastSeqNo st) (Item.sequence_no item) databaseId w
  = (w1, Ok rolled) →
  Connection.scanItems now database databaseId (item :: rest) w st
  = (w1, Ok {| Scan.lastSeqNo := Item.sequence_no item;
               Scan.gapInSeqNo := true;
               Scan.ddbTransactionLog :=
                 let log := Scan.ddbTransactionLog st
                            ++ List.filter (Connection.notYetSent database) rolled in
                 if Connection.notYetSent database item then log ++ [item] else log |}).
Proof.
  intros Hgap Hjump%Z.ltb_lt Hold%Z.ltb_lt Hroll.
  cbn [Connection.scanItems]. rewrite Hgap, Hjump, Hold, Hroll. simpl.
  by rewrite scanItems_stopped.
Qed.

(* ... and the do-while loop asks for no further page. *)
Lemma scanPages_after_gap now database databaseId seqNo fuel esk w st w1 resp w2 st' :
  Ddb.query w databaseId seqNo esk = (w1, resp) →
  Connection.scanItems now database databaseId (Ddb.Items resp) w1 st = (w2, Ok st') →
  Scan.gapInSeqNo st' = true →
  Connection.scanPages now (S fuel) database databaseId seqNo esk w st
  = Some (w2, Ok st').
Proof.
  intros Hq Hscan Hgap. cbn [Connection.scanPages]. rewrite Hq, Hscan, Hgap.
  by destruct (Ddb.LastEvaluatedKey resp).
Qed.

(** C2. The table holds rows 5, 7 and 8 of database D (pages of two rows,
    row 7 older than the rollback threshold) and the client is at
    lastSeqNo = 4. push rolls back slot 6 and processes row 7, but the scan
    then stops: row 8, on the next page, is not read, and the batch sent is
    5, 6 (Rollback), 7 with lastSeqNo = 7. *)
Theorem push_stops_after_rollback :
  (λ res : Ddb.t * Connection.t * Outcome,
     (Socket.sent (Connection.socket res.1.2),
      DatabaseState.lastSeqNo <$> Connection.databases res.1.2 !! "D",
      res.2))
  <$> Connection.push sampleSize sampleBundle 100000 5
        (Ddb.mk [sampleItem 5 0; sampleItem 7 0; sampleItem 8 0] [] 2)
        connectionAt4 "D" None None None
  = Some ([ApplyTransactions barePayload
             [toWire (sampleItem 5 0);
              toWire (Connection.rolledBackItem 100000 "D" 6);
              toWire (sampleItem 7 0)]
             false],
          Some 7, Returned).
Proof. vm_compute. reflexivity. Qed.

(* Without the gap the same scan goes on to the second page. *)
Lemma push_paginates_without_gap :
  (λ res : Ddb.t * Connection.t * Outcome,
     (Socket.sent (Connection.socket res.1.2),
      DatabaseState.lastSeqNo <$> Connection.databases res.1.2 !! "D"))
  <$> Connection.push sampleSize sampleBundle 100000 5
        (Ddb.mk [sampleItem 5 0; sampleItem 6 0; sampleItem 7 0; sampleItem 8 0] [] 2)
        connectionAt4 "D" None None None
  = Some ([ApplyTransactions barePayload
             [toWire (sampleItem 5 0); toWire (sampleItem 6 0);
              toWire (sampleItem 7 0); toWire (sampleItem 8 0)]
             false],
          Some 8).
Proof. vm_compute. reflexivity. Qed.

(* --------------------------------------------------------------------- *)
(* lastSeqNo is monotone                                                 *)
(* --------------------------------------------------------------------- *)

(* One operation on its own never lowers database.lastSeqNo: across every
   push that runs from entry to end with nothing else on the connection in
   between, across every fan-out of a committed transaction to a connection
   (the fast path through sendPayload or the slow path through push), and
   across every sendPayload on a buffer in ascending seqNo order (the order in
   which the range scan and the fan-out hand buffers to it), the lastSeqNo of
   each DatabaseState of the connection afterwards is at least what it was
   before. *)
Lemma lastSeqNo_monotone
    (est : Item.t → Z) (gb : string → Z → option string) (now : Z) :
  (∀ fuel w this databaseId h k r w' this' out d database,
     Connection.push est gb now fuel w this databaseId h k r = Some (w', this', out) →
     Connection.databases this !! d = Some database →
     ∃ database', Connection.databases this' !! d = Some database'
       ∧ DatabaseState.lastSeqNo database ≤ DatabaseState.lastSeqNo database')
  ∧ (∀ fuel w conn transaction w' conn' out d database,
       Connections.pushTo est gb now fuel w conn transaction = Some (w', conn', out) →
       Connection.databases conn !! d = Some database →
       ∃ database', Connection.databases conn' !! d = Some database'
         ∧ DatabaseState.lastSeqNo database ≤ DatabaseState.lastSeqNo database')
  ∧ (∀ this payload log database,
       ascending log →
       DatabaseState.lastSeqNo database
       ≤ DatabaseState.lastSeqNo (Connection.sendPayload est this payload log database).2).
Proof.
  split; [|split].
  - intros. by eapply push_lastSeqNo.
  - intros. by eapply pushTo_lastSeqNo.
  - intros. by apply sendPayload_lastSeqNo.
Qed.

Lemma lastSeqNo_monotone_witness :
  ∃ database',
    Connection.databases
      (Connection.set_database
         (Connection.set_socket connectionAt4
            (Socket.mk
               [ApplyTransactions barePayload
                  [toWire (sampleItem 5 0); toWire (sampleItem 6 0)] false]
               None))
         "D" (DatabaseState.mk (-1) 6 200 true)) !! "D" = Some database'
    ∧ 4 ≤ DatabaseState.lastSeqNo database'.
Proof.
  exact (proj1 (lastSeqNo_monotone sampleSize sampleBundle 100000)
           5%nat (Ddb.mk [sampleItem 6 0; sampleItem 5 0] [] 10) connectionAt4
           "D" None None None _ _ _ "D" (DatabaseState.mk (-1) 4 0 true)
           eq_refl eq_refl).
Defined.

(* push run in one piece is pushBegin followed at once by pushResume. *)
Lemma push_begin_resume est gb now fuel w this databaseId h k r :
  Connection.push est gb now fuel w this databaseId h k r
  = match Connection.pushBegin gb this databaseId h k r with
    | None => Some (w, this, Returned)
    | Some pending => Connection.pushResume est now fuel w this databaseId pending
    end.
Proof.
  unfold Connection.push, Connection.pushBegin, Connection.pushResume.
  by destruct (Connection.databases this !! databaseId).
Qed.

(** C9. Two pushes that overlap lower database.lastSeqNo. Database D is open
    with bundleSeqNo = 3, lastSeqNo = 0, and rows 4 and 5 are stored. A
    reopening push at 5 enters (lastSeqNo is 0, so its payload takes the
    bundle) and awaits; an opening push runs to its end, sends the bundle
    with rows 4 and 5 and leaves lastSeqNo = 5; the reopening push resumes,
    buffers nothing (no row is above 5), passes its re-check (lastSeqNo is
    the 5 it was asked to reopen at), sends its payload with an empty
    transactionLog and assigns lastSeqNo = payload.bundleSeqNo = 3, below the
    5 it held. *)
Theorem overlapping_pushes_lower_lastSeqNo :
  ∃ pending w1 conn1 w2 conn2,
    Connection.pushBegin sampleBundle freshAt3 "D" (Some "h") (Some "k") (Some 5)
    = Some pending
    ∧ Connection.push sampleSize sampleBundle 100000 5 rowsAfterBundle freshAt3 "D"
        (Some "h") (Some "k") None
      = Some (w1, conn1, Returned)
    ∧ Connection.databases conn1 !! "D" = Some (DatabaseState.mk 3 5 200 true)
    ∧ Connection.pushResume sampleSize 100000 5 w1 conn1 "D" pending
      = Some (w2, conn2, Returned)
    ∧ Connection.databases conn2 !! "D" = Some (DatabaseState.mk 3 3 200 true)
    ∧ Socket.sent (Connection.socket conn2)
      = [ApplyTransactions
           (Payload.mk "D" (Some "h") (Some "k") (Some 3) (Some "blob"))
           [toWire (sampleItem 4 0); toWire (sampleItem 5 0)] false;
         ApplyTransactions (Payload.mk "D" None None (Some 3) (Some "blob")) [] false].
Proof.
  eexists _, _, _, _, _.
  split; [reflexivity|]. split; [vm_compute; reflexivity|].
  split; [reflexivity|]. split; [vm_compute; reflexivity|].
  split; reflexivity.
Qed.

(* --------------------------------------------------------------------- *)
(* rollback is not atomic                                                *)
(* --------------------------------------------------------------------- *)

(* The puts before the failing one succeeded exactly as in a rollback of the
   shorter window, and nothing happened after the failing put. *)
Lemma rollbackLoop_prefix now n i databaseId w acc w' e :
  Connection.rollbackLoop now n i databaseId w acc = (w', Throw e) →
  ∃ (k : nat) (wk : Ddb.t), (k < n)%nat
    ∧ Connection.rollbackLoop now k i databaseId w acc
      = (wk, Ok (acc ++ sentinels now databaseId i k))
    ∧ Ddb.put wk (Connection.rolledBackItem now databaseId (i + Z.of_nat k))
      = (w', Throw e).
Proof.
  revert i w acc. induction n as [|n IH]; intros i w acc; [done|].
  cbn [Connection.rollbackLoop].
  destruct (Ddb.put w _) as [w1 [u|e1]] eqn:Hput.
  - intros Hrec. destruct (IH _ _ _ Hrec) as (k & wk & Hk & Hloop & Hfail).
    exists (S k), wk. split; [lia|]. split.
    + cbn [Connection.rollbackLoop]. rewrite Hput, Hloop, sentinels_S.
      by rewrite <- app_assoc.
    + by replace (i + Z.of_nat (S k)) with (i + 1 + Z.of_nat k) by lia.
  - intros [= <- <-]. exists O, w. split; [lia|]. split.
    + simpl. by rewrite app_nil_r.
    + by rewrite Z.add_0_r.
Qed.

Lemma push_Threw est gb now fuel w this databaseId h k r w' this' e :
  Connection.push est gb now fuel w this databaseId h k r = Some (w', this', Threw e) →
  this' = this
  ∧ ∃ database, Connection.databases this !! databaseId = Some database
      ∧ scan now fuel w databaseId database = Some (w', Throw e).
Proof.
  intros Hpush.
  destruct (Connection.databases this !! databaseId) as [db0|] eqn:Hdb;
    [|rewrite push_closed in Hpush by done; by simplify_eq].
  destruct (scan now fuel w databaseId db0) as [[w1 [st|e1]]|] eqn:Hscan.
  - rewrite (push_scan_Ok _ _ _ _ _ _ _ _ _ _ _ _ _ Hdb Hscan) in Hpush.
    cbn zeta in Hpush.
    repeat (destruct (_ && _); [by simplify_eq|]).
    destruct (Scan.ddbTransactionLog st); [|by simplify_eq].
    destruct (_ || _); by simplify_eq.
  - rewrite (push_scan_Throw _ _ _ _ _ _ _ _ _ _ _ _ _ Hdb Hscan) in Hpush.
    injection Hpush as <- <- <-. eauto.
  - by rewrite (push_out_of_fuel _ _ _ _ _ _ _ _ _ _ _ Hdb Hscan) in Hpush.
Qed.

(* The item loop over pre ++ items is the loop over pre followed, from the
   state and the store it leaves, by the loop over items. *)
Lemma scanItems_app now database databaseId pre items w st :
  Connection.scanItems now database databaseId (pre ++ items) w st
  = match Connection.scanItems now database databaseId pre w st with
    | (w1, Ok st1) => Connection.scanItems now database databaseId items w1 st1
    | (w1, Throw e) => (w1, Throw e)
    end.
Proof.
  revert w st. induction pre as [|x pre IH]; intros w st; [done|].
  cbn [app Connection.scanItems].
  destruct (Scan.gapInSeqNo st) eqn:Hgap.
  { destruct items; cbn [Connection.scanItems]; by rewrite ?Hgap. }
  destruct (_ && _).
  - destruct (Connection.rollback _ _ _ _ _) as [w1 [rolled|e]]; [apply IH | done].
  - destruct (_ <? _); apply IH.
Qed.

(* A throw of rollback at a row ends the item loop by that throw. *)
Lemma scanItems_rollback_Throw now database databaseId item rest w st w' e :
  Scan.gapInSeqNo st = false →
  Scan.lastSeqNo st + 1 < Item.sequence_no item →
  SECONDS_BEFORE_ROLLBACK_GAP_TRIGGERED < now - Item.creation_date item →
  Connection.rollback now (Scan.lastSeqNo st) (Item.sequence_no item) databaseId w
  = (w', Throw e) →
  Connection.scanItems now database databaseId (item :: rest) w st = (w', Throw e).
Proof.
  intros Hgap Hlt Hold Hroll. cbn [Connection.scanItems]. rewrite Hgap.
  rewrite (proj2 (Z.ltb_lt _ _) Hlt), (proj2 (Z.ltb_lt _ _) Hold). cbn [andb].
  by rewrite Hroll.
Qed.

(* A throw of the item loop ends the page loop by that throw. *)
Lemma scanPages_items_Throw now fuel database databaseId seqNo key w st w1 response w' e :
  Ddb.query w databaseId seqNo key = (w1, response) →
  Connection.scanItems now database databaseId (Ddb.Items response) w1 st
  = (w', Throw e) →
  Connection.scanPages now (S fuel) database databaseId seqNo key w st
  = Some (w', Throw e).
Proof. intros Hquery Hitems. cbn [Connection.scanPages]. by rewrite Hquery, Hitems. Qed.

(* After the failed conditional put, push does not return: the catch block
   rethrows, and push ends by throwing. *)
Lemma push_rethrows_rollback_failure :
  snd <$> Connection.push sampleSize sampleBundle 100000 5 racingTable
            connectionAt4 "D" None None None
  = Some (Threw ConditionalCheckFailedException).
Proof. vm_compute. reflexivity. Qed.

(** C10, amended. rollback(lastSeqNo, thisSeqNo, databaseId) issues its
    conditional puts in increasing order of n over [lastSeqNo + 1,
    thisSeqNo - 1]. When all succeed it returns one sentinel per slot, in that
    order. When the put for slot n is the first to fail, the puts for the
    slots before n have succeeded exactly as in a rollback of the window
    [lastSeqNo + 1, n - 1], their sentinels stay in the table, nothing is put
    after slot n, and the error is propagated instead of a list. The
    enclosing push then catches the error and rethrows it: it ends by
    throwing, with the connection (socket and DatabaseStates) unchanged.
    Step by step: a throw of rollback at a row that ends an old gap is the
    throw of the item loop of that page, wherever the row stands in the page;
    a throw of the item loop is the throw of the page loop, at whichever
    page; a throw of the page loop is the throw of push; and, end to end, a
    push whose first page reaches such a row ends by throwing the error of
    the failed put. *)
Theorem rollback_not_atomic
    (est : Item.t → Z) (gb : string → Z → option string) (now : Z) :
  (∀ lastSeqNo thisSeqNo databaseId w w' rolled,
     Connection.rollback now lastSeqNo thisSeqNo databaseId w = (w', Ok rolled) →
     rolled = sentinels now databaseId (lastSeqNo + 1) (Z.to_nat (thisSeqNo - 1 - lastSeqNo))
     ∧ ∀ x, x ∈ rolled → x ∈ Ddb.table w')
  ∧ (∀ lastSeqNo thisSeqNo databaseId w w' e,
       Connection.rollback now lastSeqNo thisSeqNo databaseId w = (w', Throw e) →
       ∃ (n : Z) (wn : Ddb.t) (written : list Item.t),
         lastSeqNo < n < thisSeqNo
         ∧ Connection.rollback now lastSeqNo n databaseId w = (wn, Ok written)
         ∧ Ddb.put wn (Connection.rolledBackItem now databaseId n) = (w', Throw e)
         ∧ (∀ x, x ∈ written → x ∈ Ddb.table w')
         ∧ (∀ m, lastSeqNo < m < n →
              Connection.rolledBackItem now databaseId m ∈ written))
  ∧ (∀ fuel w this databaseId h k r database w' e,
       Connection.databases this !! databaseId = Some database →
       scan now fuel w databaseId database = Some (w', Throw e) →
       Connection.push est gb now fuel w this databaseId h k r
       = Some (w', this, Threw e))
  ∧ (∀ fuel w this databaseId h k r w' this' e,
       Connection.push est gb now fuel w this databaseId h k r
       = Some (w', this', Threw e) →
       this' = this)
  ∧ (∀ database databaseId pre item rest w st0 w1 st w' e,
       Connection.scanItems now database databaseId pre w st0 = (w1, Ok st) →
       Scan.gapInSeqNo st = false →
       Scan.lastSeqNo st + 1 < Item.sequence_no item →
       SECONDS_BEFORE_ROLLBACK_GAP_TRIGGERED < now - Item.creation_date item →
       Connection.rollback now (Scan.lastSeqNo st) (Item.sequence_no item) databaseId w1
       = (w', Throw e) →
       Connection.scanItems now database databaseId (pre ++ item :: rest) w st0
       = (w', Throw e))
  ∧ (∀ fuel database databaseId seqNo key w st w1 response w' e,
       Ddb.query w databaseId seqNo key = (w1, response) →
       Connection.scanItems now database databaseId (Ddb.Items response) w1 st
       = (w', Throw e) →
       Connection.scanPages now (S fuel) database databaseId seqNo key w st
       = Some (w', Throw e))
  ∧ (∀ fuel w this databaseId h k r database w1 response pre item rest w2 st w' e,
       Connection.databases this !! databaseId = Some database →
       Ddb.query w databaseId (Scan.lastSeqNo (startScan database)) None
       = (w1, response) →
       Ddb.Items response = pre ++ item :: rest →
       Connection.scanItems now database databaseId pre w1 (startScan database)
       = (w2, Ok st) →
       Scan.gapInSeqNo st = false →
       Scan.lastSeqNo st + 1 < Item.sequence_no item →
       SECONDS_BEFORE_ROLLBACK_GAP_TRIGGERED < now - Item.creation_date item →
       Connection.rollback now (Scan.lastSeqNo st) (Item.sequence_no item) databaseId w2
       = (w', Throw e) →
       Connection.push est gb now (S fuel) w this databaseId h k r
       = Some (w', this, Threw e)).
Proof.
  assert (∀ database databaseId pre item rest w st0 w1 st w' e,
            Connection.scanItems now database databaseId pre w st0 = (w1, Ok st) →
            Scan.gapInSeqNo st = false →
            Scan.lastSeqNo st + 1 < Item.sequence_no item →
            SECONDS_BEFORE_ROLLBACK_GAP_TRIGGERED < now - Item.creation_date item →
            Connection.rollback now (Scan.lastSeqNo st) (Item.sequence_no item)
              databaseId w1 = (w', Throw e) →
            Connection.scanItems now database databaseId (pre ++ item :: rest) w st0
            = (w', Throw e)) as Hitems.
  { intros * Hpre Hgap Hlt Hold Hroll. rewrite scanItems_app, Hpre.
    by apply scanItems_rollback_Throw. }
  split; [|split; [|split; [|split; [|split; [exact Hitems|split]]]]].
  - intros *. apply rollback_Ok.
  - intros lastSeqNo thisSeqNo databaseId w w' e Hroll.
    unfold Connection.rollback in Hroll.
    destruct (rollbackLoop_prefix _ _ _ _ _ _ _ _ Hroll) as (k & wk & Hk & Hloop & Hfail).
    exists (lastSeqNo + 1 + Z.of_nat k), wk, (sentinels now databaseId (lastSeqNo + 1) k).
    split; [lia|]. split; [|split; [done|split]].
    + unfold Connection.rollback.
      replace (Z.to_nat (lastSeqNo + 1 + Z.of_nat k - 1 - lastSeqNo)) with k by lia.
      exact Hloop.
    + intros x Hx. apply rollbackLoop_Ok in Hloop as [_ Hin].
      pose proof (put_incl wk (Connection.rolledBackItem now databaseId
                                 (lastSeqNo + 1 + Z.of_nat k)) x (Hin x Hx)) as Hput.
      by rewrite Hfail in Hput.
    + intros m Hm. unfold sentinels. apply list_elem_of_fmap.
      exists m. split; [done|]. apply elem_of_seqZ. lia.
  - intros. eapply push_scan_Throw; eassumption.
  - intros * Hpush. by apply push_Threw in Hpush as [-> _].
  - intros *. apply scanPages_items_Throw.
  - intros * Hdb Hquery Hpage Hpre Hgap Hlt Hold Hroll.
    eapply push_scan_Throw; [exact Hdb|]. unfold scan.
    eapply scanPages_items_Throw; [exact Hquery|]. rewrite Hpage.
    by eapply Hitems.
Qed.

Lemma rollback_not_atomic_witness :
  ∃ (n : Z) (wn : Ddb.t) (written : list Item.t),
    4 < n < 8
    ∧ Connection.rollback 100000 4 n "D" (Ddb.settle racingTable) = (wn, Ok written)
    ∧ Ddb.put wn (Connection.rolledBackItem 100000 "D" n)
      = (Ddb.mk [sampleItem 8 8000; Connection.rolledBackItem 100000 "D" 5;
                 sampleItem 6 99000] [] 10,
         Throw ConditionalCheckFailedException)
    ∧ (∀ x, x ∈ written →
         x ∈ [sampleItem 8 8000; Connection.rolledBackItem 100000 "D" 5;
              sampleItem 6 99000])
    ∧ (∀ m, 4 < m < n → Connection.rolledBackItem 100000 "D" m ∈ written).
Proof.
  exact (proj1 (proj2 (rollback_not_atomic sampleSize sampleBundle 100000))
           4 8 "D" (Ddb.settle racingTable) _ ConditionalCheckFailedException eq_refl).
Defined.

(* --------------------------------------------------------------------- *)
(* The registry                                                          *)
(* --------------------------------------------------------------------- *)

Lemma register_rejected C userId socket clientId uuid :
  clientId ∈ presentClients C ∨ inherited clientId = true →
  ∃ C', Connections.register C userId socket clientId uuid
        = (C', Socket.close socket Client_Already_Connected, None)
    ∧ presentClients C' = presentClients C
    ∧ ∀ u i, connectionAt C' u i = connectionAt C u i.
Proof.
  intros Hin. unfold Connections.register, presentClients in *.
  assert (bool_decide (clientId ∉ default ∅ (Connections.uniqueClients C))
          && negb (inherited clientId) = false) as ->.
  { destruct Hin as [Hin| ->]; [|apply andb_false_r].
    by rewrite bool_decide_eq_false_2 by (intros Hn; by apply Hn). }
  eexists. split; [done|]. split; [done|].
  intros u i. unfold connectionAt. simpl.
  destruct (default ∅ (Connections.sockets C) !! userId) as [conns|] eqn:Hu; [done|].
  destruct (decide (u = userId)) as [->|Hne].
  - by rewrite lookup_insert_eq, Hu.
  - by rewrite lookup_insert_ne.
Qed.

Lemma register_accepted C userId socket clientId uuid :
  clientId ∉ presentClients C → inherited clientId = false →
  ∃ C', Connections.register C userId socket clientId uuid
        = (C', socket, Some (Connection.new userId socket clientId uuid))
    ∧ presentClients C' = {[clientId]} ∪ presentClients C
    ∧ connectionAt C' userId uuid = Some (Connection.new userId socket clientId uuid)
    ∧ ∀ u i, (u, i) ≠ (userId, uuid) → connectionAt C' u i = connectionAt C u i.
Proof.
  intros Hnotin Hown. unfold Connections.register, presentClients in *.
  rewrite bool_decide_eq_true_2, Hown by done. cbn [negb andb].
  eexists. split; [done|]. split; [done|]. unfold connectionAt. simpl. split.
  - by rewrite !lookup_insert_eq.
  - intros u i Hne. destruct (decide (u = userId)) as [->|Hu].
    + rewrite lookup_insert_eq.
      assert (i ≠ uuid) as Hi by congruence.
      rewrite lookup_insert_ne by done.
      destruct (default ∅ (Connections.sockets C) !! userId) as [conns|] eqn:Hold.
      * by rewrite Hold.
      * by rewrite lookup_insert_eq.
    + rewrite lookup_insert_ne by done.
      destruct (default ∅ (Connections.sockets C) !! userId) as [conns|] eqn:Hold; [done|].
      by rewrite lookup_insert_ne.
Qed.

(* register(userId, socket, clientId) on a clientId that does not name a
   property of Object.prototype: if clientId is present in uniqueClients,
   the socket is closed with 'Client Already Connected', the call returns
   false, uniqueClients is unchanged and no Connection is added anywhere in
   sockets; otherwise the socket is left open, clientId is marked present,
   and the Connection built with the minted connectionId is returned and
   stored at sockets[userId][connectionId], every other entry of sockets
   staying as it was. *)
Lemma register_spec
    (C : Connections.t) (userId : string) (socket : Socket.t) (clientId uuid : string) :
  (clientId ∈ presentClients C →
   ∃ C', Connections.register C userId socket clientId uuid
         = (C', Socket.close socket Client_Already_Connected, None)
     ∧ presentClients C' = presentClients C
     ∧ ∀ u i, connectionAt C' u i = connectionAt C u i)
  ∧ (clientId ∉ presentClients C → inherited clientId = false →
     ∃ C', Connections.register C userId socket clientId uuid
           = (C', socket, Some (Connection.new userId socket clientId uuid))
       ∧ presentClients C' = {[clientId]} ∪ presentClients C
       ∧ connectionAt C' userId uuid
         = Some (Connection.new userId socket clientId uuid)
       ∧ ∀ u i, (u, i) ≠ (userId, uuid) → connectionAt C' u i = connectionAt C u i).
Proof.
  split; [intros Hin; apply register_rejected; by left | apply register_accepted].
Qed.

(** C5. The first register of the clientId "constructor" is refused: on the
    registry before any register, where uniqueClients holds no clientId and
    sockets holds no Connection, register("U", socket, "constructor") closes
    the socket with 'Client Already Connected', returns false, marks nothing
    present and stores no Connection. The test !uniqueClients[clientId]
    finds Object.prototype.constructor. *)
Theorem register_refuses_inherited_clientId :
  ("constructor" ∉ presentClients Connections.initial)
  ∧ Connections.register Connections.initial "U" sampleSocket "constructor" "id1"
    = (Connections.mk (Some {[ "U" := ∅ ]}) (Some ∅),
       Socket.close sampleSocket Client_Already_Connected, None)
  ∧ presentClients
      (Connections.register Connections.initial "U" sampleSocket "constructor" "id1").1.1
    = ∅
  ∧ ∀ u i,
      connectionAt
        (Connections.register Connections.initial "U" sampleSocket "constructor" "id1").1.1
        u i = None.
Proof.
  split; [apply not_elem_of_empty|].
  destruct (register_rejected Connections.initial "U" sampleSocket "constructor" "id1")
    as (C' & Hreg & Hp & Hat); [by right|].
  split; [by vm_compute|]. rewrite Hreg. simpl. split; [by rewrite Hp|].
  intros u i. rewrite Hat. unfold connectionAt. simpl. by rewrite lookup_empty.
Qed.

(* --------------------------------------------------------------------- *)
(* Registry uniqueness                                                   *)
(* --------------------------------------------------------------------- *)

Lemma registryInv_initial : registryInv Connections.initial.
Proof.
  split.
  - intros u i c. unfold connectionAt. simpl. by rewrite lookup_empty.
  - intros clientId. unfold presentClients. simpl. set_solver.
  - intros u i c u' i' c'. unfold connectionAt. simpl. by rewrite lookup_empty.
Qed.

Lemma registryInv_register C userId socket clientId uuid :
  registryInv C → connectionAt C userId uuid = None →
  registryInv (step C (Register userId socket clientId uuid)).
Proof.
  intros [Hidx Hpres Huniq] Hfresh. simpl.
  destruct (decide (clientId ∈ presentClients C ∨ inherited clientId = true))
    as [Hin|Hnotin].
  - destruct (register_rejected C userId socket clientId uuid Hin)
      as (C' & -> & Hp & Hat). simpl.
    split.
    + intros u i c. rewrite Hat, Hp. apply Hidx.
    + intros cid. rewrite Hp. intros (u & i & c & Hc & Hcid)%Hpres.
      exists u, i, c. by rewrite Hat.
    + intros u i c u' i' c'. rewrite !Hat. apply Huniq.
  - assert (clientId ∉ presentClients C) as Hnew0 by (intros ?; apply Hnotin; by left).
    assert (inherited clientId = false) as Hown
      by (destruct (inherited clientId); [destruct Hnotin; by right | done]).
    destruct (register_accepted C userId socket clientId uuid Hnew0 Hown)
      as (C' & -> & Hp & Hnew & Hat). simpl.
    assert (∀ u i c, connectionAt C' u i = Some c →
              (u = userId ∧ i = uuid ∧ c = Connection.new userId socket clientId uuid)
              ∨ ((u, i) ≠ (userId, uuid) ∧ connectionAt C u i = Some c)) as Hcases.
    { intros u i c Hc. destruct (decide ((u, i) = (userId, uuid))) as [[= -> ->]|Hne].
      - left. rewrite Hnew in Hc. by injection Hc as <-.
      - right. by rewrite Hat in Hc. }
    split.
    + intros u i c [(-> & -> & ->)|[_ Hold]]%Hcases; rewrite Hp.
      * simpl. split; [|done]. apply elem_of_union. left. by apply elem_of_singleton.
      * destruct (Hidx _ _ _ Hold) as (Hin & ? & ?).
        split; [|done]. apply elem_of_union. by right.
    + intros cid. rewrite Hp. intros [->%elem_of_singleton|Hold]%elem_of_union.
      * by exists userId, uuid, (Connection.new userId socket clientId uuid).
      * destruct (Hpres cid Hold) as (u & i & c & Hc & Hcid).
        exists u, i, c. split; [|done]. rewrite Hat; [done|].
        intros [= -> ->]. congruence.
    + intros u i c u' i' c'
        [(-> & -> & ->)|[_ Hold]]%Hcases [(-> & -> & ->)|[_ Hold']]%Hcases Heq.
      * done.
      * destruct (Hidx _ _ _ Hold') as (Hin & _). simpl in Heq. by rewrite <- Heq in Hin.
      * destruct (Hidx _ _ _ Hold) as (Hin & _). simpl in Heq. by rewrite Heq in Hin.
      * by eapply Huniq.
Qed.

Lemma close_live C connection :
  connectionAt C (Connection.userId connection) (Connection.id connection)
  = Some connection →
  Connection.clientId connection ∈ presentClients C →
  ∃ C', Connections.close C connection = (C', Returned)
    ∧ presentClients C' = presentClients C ∖ {[Connection.clientId connection]}
    ∧ connectionAt C' (Connection.userId connection) (Connection.id connection) = None
    ∧ ∀ u i, (u, i) ≠ (Connection.userId connection, Connection.id connection) →
        connectionAt C' u i = connectionAt C u i.
Proof.
  unfold connectionAt, presentClients, Connections.close.
  destruct (Connections.sockets C) as [sockets0|]; simpl;
    [|by rewrite lookup_empty].
  destruct (sockets0 !! Connection.userId connection) as [conns|] eqn:Hu; [|done].
  intros Hc. destruct (Connections.uniqueClients C) as [unique0|]; simpl;
    [|set_solver].
  intros _. eexists. split; [done|]. simpl. split; [done|]. split.
  - by rewrite lookup_insert_eq, lookup_delete_eq.
  - intros u i Hne. destruct (decide (u = Connection.userId connection)) as [->|Hu'].
    + rewrite lookup_insert_eq, Hu. apply lookup_delete_ne. congruence.
    + by rewrite lookup_insert_ne.
Qed.

Lemma registryInv_close C connection :
  registryInv C →
  connectionAt C (Connection.userId connection) (Connection.id connection)
  = Some connection →
  registryInv (step C (Close connection)).
Proof.
  intros [Hidx Hpres Huniq] Hlive. simpl.
  destruct (Hidx _ _ _ Hlive) as (Hin & _).
  destruct (close_live C connection Hlive Hin) as (C' & -> & Hp & Hgone & Hat). simpl.
  assert (∀ u i c, connectionAt C' u i = Some c →
            (u, i) ≠ (Connection.userId connection, Connection.id connection)
            ∧ connectionAt C u i = Some c) as Hold.
  { intros u i c Hc.
    destruct (decide ((u, i) = (Connection.userId connection, Connection.id connection)))
      as [[= -> ->]|Hne]; [congruence|].
    split; [done|]. by rewrite Hat in Hc. }
  split.
  - intros u i c [Hne Hc]%Hold. destruct (Hidx _ _ _ Hc) as (Hcin & ? & ?).
    split; [|done]. rewrite Hp. apply elem_of_difference. split; [done|].
    intros Heq%elem_of_singleton.
    destruct (Huniq _ _ _ _ _ _ Hc Hlive Heq) as [-> ->]. done.
  - intros cid. rewrite Hp. intros [Hcin Hne]%elem_of_difference.
    destruct (Hpres cid Hcin) as (u & i & c & Hc & Hcid).
    exists u, i, c. split; [|done]. rewrite Hat; [done|].
    intros [= -> ->]. rewrite Hlive in Hc. injection Hc as <-. set_solver.
  - intros u i c u' i' c' [_ Hc]%Hold [_ Hc']%Hold. by eapply Huniq.
Qed.

Lemma reachable_registryInv C : reachable C → registryInv C.
Proof.
  induction 1 as [|C userId socket clientId uuid _ IH Hfresh|C connection _ IH Hlive].
  - apply registryInv_initial.
  - by apply registryInv_register.
  - by apply registryInv_close.
Qed.

(* The uniqueness invariant does not survive a close of a connection that
   was closed before: after staleCloseRun the second connection is in
   sockets, alone with its clientId, while "C" is not in uniqueClients. *)
Lemma stale_close_breaks_uniqueness :
  ("C" ∉ presentClients staleCloseRun) ∧ exactlyOne staleCloseRun "C".
Proof.
  set (C := staleCloseRun).
  assert (Connections.sockets C
          = Some {[ "U" := {[ "id2" := Connection.new "U" sampleSocket "C" "id2" ]} ]}) as Hs
    by (vm_compute; reflexivity).
  assert (Connections.uniqueClients C = Some ∅) as Hu by (vm_compute; reflexivity).
  split.
  - unfold presentClients. rewrite Hu. simpl. set_solver.
  - exists "U", "id2", (Connection.new "U" sampleSocket "C" "id2").
    unfold connectionAt. rewrite Hs. simpl. split; [done|]. split; [done|].
    intros u' i' c' Hc' _.
    destruct (decide (u' = "U")) as [->|Hne].
    + rewrite lookup_singleton_eq in Hc'.
      apply lookup_singleton_Some in Hc' as [<- _]. done.
    + by rewrite lookup_singleton_ne in Hc'.
Qed.

(** C6, amended. Starting from the empty registry, after any sequence of
    register operations, each minting a connectionId not in use for the user,
    and close operations, each given a Connection that is in sockets at that
    moment, clientId is in uniqueClients if and only if exactly one Connection
    with that clientId exists in sockets. *)
Theorem registry_uniqueness (C : Connections.t) (clientId : string) :
  reachable C →
  (clientId ∈ presentClients C ↔ exactlyOne C clientId).
Proof.
  intros [Hidx Hpres Huniq]%reachable_registryInv. split.
  - intros (u & i & c & Hc & Hcid)%Hpres. exists u, i, c.
    split; [done|]. split; [done|].
    intros u' i' c' Hc' Hcid'.
    destruct (Huniq _ _ _ _ _ _ Hc' Hc) as [-> ->]; [congruence | done].
  - intros (u & i & c & Hc & <- & _). by destruct (Hidx _ _ _ Hc).
Qed.

Lemma registry_uniqueness_witness :
  "C" ∈ presentClients
          (step (step (step Connections.initial (Register "U" sampleSocket "C" "id1"))
                   (Close (Connection.new "U" sampleSocket "C" "id1")))
             (Register "V" sampleSocket "C" "id2"))
  ↔ exactlyOne
      (step (step (step Connections.initial (Register "U" sampleSocket "C" "id1"))
               (Close (Connection.new "U" sampleSocket "C" "id1")))
         (Register "V" sampleSocket "C" "id2"))
      "C".
Proof.
  apply registry_uniqueness.
  apply reachable_register; [apply reachable_close; [apply reachable_register|]|].
  - apply reachable_initial.
  - reflexivity.
  - vm_compute. reflexivity.
  - vm_compute. reflexivity.
Defined.

(* --------------------------------------------------------------------- *)
(* The seed-exchange mediator                                            *)
(* --------------------------------------------------------------------- *)

(* What the user-scoped sendSeedRequest does to the entry at (u, i). *)
Lemma sendSeedRequest_at C userId connectionId rpk u i c :
  connectionAt C u i = Some c →
  connectionAt (Connections.sendSeedRequest C userId connectionId rpk) u i
  = Some (if bool_decide (u = userId
                          ∧ is_Some (connectionAt C userId connectionId))
          then Connection.sendSeedRequest
                 (if bool_decide (i = connectionId)
                  then Connection.openSeedRequest c rpk
                  else c) rpk
          else c).
Proof.
  intros Hc.
  destruct (connectionAt C userId connectionId) as [origin|] eqn:Ho.
  - (* the origin is registered: the broadcast runs *)
    unfold connectionAt, Connections.sendSeedRequest in *.
    destruct (Connections.sockets C) as [sockets0|] eqn:Hs;
      simpl in *; [|by rewrite lookup_empty in Ho].
    destruct (sockets0 !! userId) as [conns|] eqn:Hu; [|done].
    rewrite Ho. simpl.
    destruct (decide (u = userId)) as [->|Hne].
    + rewrite Hu in Hc. rewrite lookup_insert_eq, lookup_fmap.
      rewrite bool_decide_eq_true_2 by (split; [done | by eexists]).
      destruct (decide (i = connectionId)) as [->|Hi].
      * rewrite lookup_insert_eq. simpl. rewrite bool_decide_eq_true_2 by done.
        congruence.
      * rewrite lookup_insert_ne by done. rewrite Hc. simpl.
        by rewrite (bool_decide_eq_false_2 (i = connectionId)).
    + rewrite lookup_insert_ne by done.
      by rewrite (bool_decide_eq_false_2 (u = userId ∧ _)) by (intros [? _]; done).
  - (* the origin is missing: the call returns at once *)
    assert (Connections.sendSeedRequest C userId connectionId rpk = C) as ->.
    { unfold connectionAt, Connections.sendSeedRequest in *.
      destruct (Connections.sockets C) as [sockets0|]; simpl in *; [|done].
      destruct (sockets0 !! userId) as [conns|]; [|done]. by rewrite Ho. }
    rewrite Hc. rewrite bool_decide_eq_false_2; [done|].
    intros [_ [? ?]]. done.
Qed.

(** C7. The per-connection broadcaster sendSeedRequest is a no-op on a
    connection whose keyValidated is false, and the user-scoped
    sendSeedRequest changes a connection only by recording the key on the
    origin and by running that broadcaster: every connection in the registry
    is afterwards either as it was or the result of the broadcaster, so a
    connection whose keyValidated is false has nothing sent on its socket and
    keeps keyValidated = false. *)
Theorem seed_request_only_to_validated :
  (∀ this rpk,
     Connection.keyValidated this = false →
     Connection.sendSeedRequest this rpk = this)
  ∧ (∀ C userId connectionId rpk u i c,
       connectionAt C u i = Some c →
       ∃ c', connectionAt (Connections.sendSeedRequest C userId connectionId rpk) u i
             = Some c'
         ∧ (c' = c
            ∨ c' = Connection.sendSeedRequest c rpk
            ∨ c' = Connection.sendSeedRequest (Connection.openSeedRequest c rpk) rpk)
         ∧ (Connection.keyValidated c = false →
            Connection.socket c' = Connection.socket c
            ∧ Connection.keyValidated c' = false))
  ∧ (∀ C userId connectionId rpk u i,
       connectionAt C u i = None →
       connectionAt (Connections.sendSeedRequest C userId connectionId rpk) u i = None).
Proof.
  split; [|split].
  - intros this rpk Hkey. unfold Connection.sendSeedRequest. by rewrite Hkey.
  - intros C userId connectionId rpk u i c Hc.
    rewrite (sendSeedRequest_at _ _ _ _ _ _ _ Hc).
    eexists. split; [done|].
    destruct (bool_decide (u = userId ∧ _)); [|by eauto].
    destruct (bool_decide (i = connectionId)).
    + split; [by eauto|]. intros Hkey.
      unfold Connection.sendSeedRequest, Connection.openSeedRequest. simpl.
      by rewrite Hkey.
    + split; [by eauto|]. intros Hkey.
      unfold Connection.sendSeedRequest. by rewrite Hkey.
  - intros C userId connectionId rpk u i Hnone.
    destruct (connectionAt C userId connectionId) as [origin|] eqn:Ho.
    + unfold connectionAt, Connections.sendSeedRequest in *.
      destruct (Connections.sockets C) as [sockets0|] eqn:Hs;
        simpl in *; [|by rewrite lookup_empty in Ho].
      destruct (sockets0 !! userId) as [conns|] eqn:Hu; [|done].
      rewrite Ho. simpl.
      destruct (decide (u = userId)) as [->|Hne].
      * rewrite Hu in Hnone. rewrite lookup_insert_eq, lookup_fmap.
        assert (i ≠ connectionId) as Hneq by congruence.
        by rewrite lookup_insert_ne, Hnone.
      * by rewrite lookup_insert_ne.
    + assert (Connections.sendSeedRequest C userId connectionId rpk = C) as ->; [|done].
      unfold connectionAt, Connections.sendSeedRequest in *.
      destruct (Connections.sockets C) as [sockets0|]; simpl in *; [|done].
      destruct (sockets0 !! userId) as [conns|]; [|done]. by rewrite Ho.
Qed.

(* What the user-scoped sendSeed does to the entry at (u, i). *)
Lemma sendSeed_at C userId spk rpk seed u i c :
  connectionAt C u i = Some c →
  connectionAt (Connections.sendSeed C userId spk rpk seed) u i
  = Some (if bool_decide (u = userId) then Connection.sendSeed c spk rpk seed else c).
Proof.
  intros Hc. unfold connectionAt, Connections.sendSeed in *.
  destruct (Connections.sockets C) as [sockets0|] eqn:Hs;
    simpl in *; [|by rewrite lookup_empty in Hc].
  destruct (sockets0 !! userId) as [conns|] eqn:Hu; simpl.
  - destruct (decide (u = userId)) as [->|Hne].
    + rewrite Hu in Hc. rewrite lookup_insert_eq, lookup_fmap, Hc. simpl.
      by rewrite bool_decide_eq_true_2.
    + rewrite lookup_insert_ne by done.
      by rewrite (bool_decide_eq_false_2 (u = userId)).
  - rewrite Hs. simpl.
    rewrite (bool_decide_eq_false_2 (u = userId)); [done|].
    intros ->. by rewrite Hu in Hc.
Qed.

(** C8. For every call sendSeed(userId, senderPublicKey, requesterPublicKey,
    encryptedSeed) and every connection in the registry: a connection of that
    user whose stored requesterPublicKey equals the message's has
    {route: ReceiveSeed, senderPublicKey, encryptedSeed} sent on its socket
    and is otherwise unchanged; every other connection, of that user or of
    another, is left exactly as it was. *)
Theorem sendSeed_only_to_requester
    (C : Connections.t) (userId senderPublicKey : string)
    (requesterPublicKey : option string) (encryptedSeed : string)
    (u i : string) (c : Connection.t)
    (Hc : connectionAt C u i = Some c) :
  ∃ c', connectionAt
          (Connections.sendSeed C userId senderPublicKey requesterPublicKey encryptedSeed)
          u i = Some c'
    ∧ (u = userId ∧ Connection.requesterPublicKey c = requesterPublicKey →
       c' = Connection.set_socket c
              (Socket.send (Connection.socket c)
                 (ReceiveSeed encryptedSeed senderPublicKey)))
    ∧ (u ≠ userId ∨ Connection.requesterPublicKey c ≠ requesterPublicKey → c' = c).
Proof.
  rewrite (sendSeed_at _ _ _ _ _ _ _ _ Hc). eexists. split; [done|].
  unfold Connection.sendSeed. split.
  - intros [-> Heq]. rewrite bool_decide_eq_true_2 by done.
    by rewrite bool_decide_eq_false_2 by (intros Hn; by apply Hn).
  - intros [Hne|Hne].
    + by rewrite bool_decide_eq_false_2.
    + destruct (bool_decide (u = userId)); [|done].
      by rewrite bool_decide_eq_true_2.
Qed.

Lemma sendSeed_only_to_requester_witness :
  ∃ c', connectionAt (Connections.sendSeed seedRegistry "U" "pkA" (Some "pkN") "enc")
          "U" "idN" = Some c'
    ∧ ("U" = "U" ∧ Connection.requesterPublicKey deviceN = Some "pkN" →
       c' = Connection.set_socket deviceN
              (Socket.send (Connection.socket deviceN) (ReceiveSeed "enc" "pkA")))
    ∧ ("U" ≠ "U" ∨ Connection.requesterPublicKey deviceN ≠ Some "pkN" → c' = deviceN).
Proof.
  exact (sendSeed_only_to_requester seedRegistry "U" "pkA" (Some "pkN") "enc"
           "U" "idN" deviceN eq_refl).
Defined.

Lemma seed_request_only_to_validated_witness :
  ∃ c', connectionAt (Connections.sendSeedRequest seedRegistry "U" "idN" (Some "pkN"))
          "U" "idN" = Some c'
    ∧ (c' = deviceN
       ∨ c' = Connection.sendSeedRequest deviceN (Some "pkN")
       ∨ c' = Connection.sendSeedRequest
                (Connection.openSeedRequest deviceN (Some "pkN")) (Some "pkN"))
    ∧ (Connection.keyValidated deviceN = false →
       Connection.socket c' = Connection.socket deviceN
       ∧ Connection.keyValidated c' = false).
Proof.
  exact (proj1 (proj2 seed_request_only_to_validated)
           seedRegistry "U" "idN" (Some "pkN") "U" "idN" deviceN eq_refl).
Defined.

(* Scenario: the request of N reaches A and not N itself; the seed sent by A
   reaches N and neither A nor the device of the other user. *)
Lemma seed_exchange_scenario :
  let requested := Connections.sendSeedRequest seedRegistry "U" "idN" (Some "pkN") in
  let delivered := Connections.sendSeed requested "U" "pkA" (Some "pkN") "enc" in
  (λ c, Socket.sent (Connection.socket c)) <$> connectionAt delivered "U" "idA"
  = Some [ReceiveRequestForSeed (Some "pkN")]
  ∧ (λ c, Socket.sent (Connection.socket c)) <$> connectionAt delivered "U" "idN"
    = Some [ReceiveSeed "enc" "pkA"]
  ∧ (λ c, Socket.sent (Connection.socket c)) <$> connectionAt delivered "V" "idV"
    = Some [].
Proof. vm_compute. done. Qed.

(* ===================================================================== *)
(* Further properties                                                    *)
(* ===================================================================== *)

(* ===================================================================== *)
(* Further properties                                                    *)
(* ===================================================================== *)

(* --------------------------------------------------------------------- *)
(* The store keeps its rows and its primary key                          *)
(* --------------------------------------------------------------------- *)

Lemma sameKey_spec a b : Ddb.sameKey a b = true ↔ keyOf a = keyOf b.
Proof.
  unfold Ddb.sameKey, keyOf. rewrite andb_true_iff, String.eqb_eq, Z.eqb_eq.
  split; [intros [-> ->]; done | intros [= -> ->]; done].
Qed.

Lemma occupied_spec rows item :
  Ddb.occupied rows item = true ↔ keyOf item ∈ keyOf <$> rows.
Proof.
  unfold Ddb.occupied. rewrite existsb_exists, list_elem_of_fmap. split.
  - intros (x & Hx%list_elem_of_In & Hk%sameKey_spec). eauto.
  - intros (x & Hk & Hx%list_elem_of_In). exists x. by rewrite sameKey_spec.
Qed.

Lemma occupied_mono rows rows' item :
  (∀ x, x ∈ rows → x ∈ rows') →
  Ddb.occupied rows item = true → Ddb.occupied rows' item = true.
Proof.
  rewrite !occupied_spec, !list_elem_of_fmap.
  intros Hincl (x & Hk & Hx). exists x. auto.
Qed.

Lemma commit_keysUnique rows item :
  keysUnique rows → keysUnique (Ddb.commit rows item).
Proof.
  unfold keysUnique, Ddb.commit. intros Hnd.
  destruct (Ddb.occupied rows item) eqn:Hocc; [done|].
  rewrite fmap_app. apply NoDup_app. split; [done|]. split.
  - intros k Hk ->%list_elem_of_singleton.
    apply occupied_spec in Hk. congruence.
  - apply NoDup_singleton.
Qed.

Lemma settle_keysUnique w :
  keysUnique (Ddb.table w) → keysUnique (Ddb.table (Ddb.settle w)).
Proof.
  unfold Ddb.settle. destruct (Ddb.inflight w) as [|batch later]; [done|]. simpl.
  generalize (Ddb.table w). induction batch as [|b batch IH]; intros rows Hnd; [done|].
  simpl. by apply IH, commit_keysUnique.
Qed.

Lemma put_keysUnique w item :
  keysUnique (Ddb.table w) → keysUnique (Ddb.table (Ddb.put w item).1).
Proof.
  intros Hnd%settle_keysUnique. unfold Ddb.put.
  destruct (Ddb.occupied _ item) eqn:Hocc; simpl; [done|].
  pose proof (commit_keysUnique _ item Hnd) as Hc.
  unfold Ddb.commit in Hc. by rewrite Hocc in Hc.
Qed.

(* What a property of the table needs to survive a whole push. *)
Lemma scanItems_table (P : list Item.t → Prop) now database databaseId items w st :
  (∀ w0 item, P (Ddb.table w0) → P (Ddb.table (Ddb.put w0 item).1)) →
  P (Ddb.table w) →
  P (Ddb.table (Connection.scanItems now database databaseId items w st).1).
Proof.
  intros Hput. revert w st. induction items as [|item rest IH]; intros w st HP; [done|].
  cbn [Connection.scanItems]. destruct (Scan.gapInSeqNo st); [done|].
  destruct (_ && _).
  - assert (P (Ddb.table (Connection.rollback now (Scan.lastSeqNo st)
                            (Item.sequence_no item) databaseId w).1)) as HP'.
    { unfold Connection.rollback. generalize (@nil Item.t), (Scan.lastSeqNo st + 1).
      clear -Hput HP. revert w HP.
      induction (Z.to_nat _) as [|n IHn]; intros w HP acc i; [done|].
      cbn [Connection.rollbackLoop].
      pose proof (Hput w (Connection.rolledBackItem now databaseId i) HP) as Hw.
      destruct (Ddb.put w _) as [w1 [u|e]]; [|done]. by apply IHn. }
    destruct (Connection.rollback _ _ _ _ _) as [w1 [rolled|e]]; [|done].
    by apply IH.
  - destruct (_ <? _); by apply IH.
Qed.

Lemma scanPages_table (P : list Item.t → Prop) now database databaseId seqNo
    fuel esk w st w' res :
  (∀ w0, P (Ddb.table w0) → P (Ddb.table (Ddb.settle w0))) →
  (∀ w0 item, P (Ddb.table w0) → P (Ddb.table (Ddb.put w0 item).1)) →
  P (Ddb.table w) →
  Connection.scanPages now fuel database databaseId seqNo esk w st = Some (w', res) →
  P (Ddb.table w').
Proof.
  intros Hsettle Hput. revert esk w st.
  induction fuel as [|fuel IH]; intros esk w st HP; [done|].
  cbn [Connection.scanPages].
  destruct (Ddb.query w databaseId seqNo esk) as [w1 resp] eqn:Hq.
  apply query_spec in Hq as (-> & _).
  pose proof (scanItems_table P now database databaseId (Ddb.Items resp)
                (Ddb.settle w) st Hput (Hsettle w HP)) as Hscan.
  destruct (Connection.scanItems _ _ _ _ _ _) as [w2 [st'|e]].
  - destruct (Ddb.LastEvaluatedKey resp) as [k|].
    + destruct (Scan.gapInSeqNo st'); [by intros [= <- <-]|]. by apply IH.
    + by intros [= <- <-].
  - by intros [= <- <-].
Qed.

Lemma push_table (P : list Item.t → Prop) est gb now fuel w this databaseId h k r
    w' this' out :
  (∀ w0, P (Ddb.table w0) → P (Ddb.table (Ddb.settle w0))) →
  (∀ w0 item, P (Ddb.table w0) → P (Ddb.table (Ddb.put w0 item).1)) →
  P (Ddb.table w) →
  Connection.push est gb now fuel w this databaseId h k r = Some (w', this', out) →
  P (Ddb.table w').
Proof.
  intros Hsettle Hput HP Hpush.
  destruct (Connection.databases this !! databaseId) as [database|] eqn:Hdb;
    [|rewrite push_closed in Hpush by done; by simplify_eq].
  destruct (scan now fuel w databaseId database) as [[w1 [st|e]]|] eqn:Hscan.
  - pose proof (scanPages_table P _ _ _ _ _ _ _ _ _ _ Hsettle Hput HP Hscan) as HP'.
    rewrite (push_scan_Ok _ _ _ _ _ _ _ _ _ _ _ _ _ Hdb Hscan) in Hpush.
    cbn zeta in Hpush.
    repeat (destruct (_ && _); [by simplify_eq|]).
    destruct (Scan.ddbTransactionLog st); [|by simplify_eq].
    destruct (_ || _); by simplify_eq.
  - pose proof (scanPages_table P _ _ _ _ _ _ _ _ _ _ Hsettle Hput HP Hscan) as HP'.
    rewrite (push_scan_Throw _ _ _ _ _ _ _ _ _ _ _ _ _ Hdb Hscan) in Hpush.
    by simplify_eq.
  - by rewrite (push_out_of_fuel _ _ _ _ _ _ _ _ _ _ _ Hdb Hscan) in Hpush.
Qed.

(** X1. A push never removes or replaces a row of the transactions table,
    and it keeps the primary key: if no two rows share (database-id,
    sequence-no) before the push, none do after it, whatever other writers
    commit meanwhile and whether or not the push rolls back a gap. *)
Theorem push_keeps_rows_and_keys
    (est : Item.t → Z) (gb : string → Z → option string) (now : Z) (fuel : nat)
    (w w' : Ddb.t) (this this' : Connection.t) (databaseId : string)
    (h k : option string) (r : option Z) (out : Outcome)
    (Hpush : Connection.push est gb now fuel w this databaseId h k r
             = Some (w', this', out)) :
  (∀ row, row ∈ Ddb.table w → row ∈ Ddb.table w')
  ∧ (keysUnique (Ddb.table w) → keysUnique (Ddb.table w')).
Proof.
  split.
  - intros row Hrow.
    eapply (push_table (λ rows, row ∈ rows)); [| |exact Hrow|exact Hpush].
    + intros w0. apply settle_incl.
    + intros w0 item. apply put_incl.
  - intros Hnd.
    eapply (push_table keysUnique); [| |exact Hnd|exact Hpush].
    + apply settle_keysUnique.
    + intros w0 item. apply put_keysUnique.
Qed.

Lemma push_keeps_rows_and_keys_witness :
  ∃ w' this' out,
    Connection.push sampleSize sampleBundle 100000 5 racingTable connectionAt4
      "D" None None None = Some (w', this', out)
    ∧ (∀ row, row ∈ Ddb.table racingTable → row ∈ Ddb.table w')
    ∧ (keysUnique (Ddb.table racingTable) → keysUnique (Ddb.table w')).
Proof.
  eexists _, _, _. split; [reflexivity|].
  exact (push_keeps_rows_and_keys sampleSize sampleBundle 100000 5 racingTable _
           connectionAt4 _ "D" None None None _ eq_refl).
Defined.

(* --------------------------------------------------------------------- *)
(* The batches of push have no gap                                       *)
(* --------------------------------------------------------------------- *)












(* What sendPayload does with a buffer that starts right after the cursor. *)
Lemma sendPayload_contiguous est this payload database c (first : Item.t) rest :
  DatabaseState.lastSeqNo database ≤ c →
  Item.sequence_no first = c + 1 →
  contiguous payload database first →
  Connection.sendPayload est this payload (first :: rest) database =
  let size := Connection.sizeOf est (first :: rest) in
  let full :=
    bool_decide (TRANSACTION_SIZE_BUNDLE_TRIGGER
                 ≤ DatabaseState.transactionLogSize database + size) in
  (Connection.set_socket this
     (Socket.send (Connection.socket this)
        (ApplyTransactions payload (toWire <$> (first :: rest)) full)),
   {| DatabaseState.bundleSeqNo := DatabaseState.bundleSeqNo database;
      DatabaseState.lastSeqNo := Item.sequence_no (List.last rest first);
      DatabaseState.transactionLogSize :=
        if full then 0 else DatabaseState.transactionLogSize database + size;
      DatabaseState.init := true |}).
Proof.
  intros Hc Hfirst Hgate.
  assert (Connection.notYetSent database first = true) as Hp
    by (unfold Connection.notYetSent; apply Z.ltb_lt; lia).
  assert (sliceToSend database (first :: rest) = first :: rest) as Hslice
    by (unfold sliceToSend; simpl; by rewrite Hp).
  assert (firstSurviving database (first :: rest) = Some first) as Hfs
    by (unfold firstSurviving; simpl; by rewrite Hp).
  destruct (sendPayload_cases est this payload (first :: rest) database)
    as [[Hn _]|[(f & l & _ & Hf & Hnc & _)|(f & l & Hs & _ & _ & ->)]].
  - congruence.
  - rewrite Hfs in Hf. injection Hf as <-. done.
  - rewrite Hslice in Hs. by injection Hs as <- <-.
Qed.




(* --------------------------------------------------------------------- *)
(* What a push may and may not change                                    *)
(* --------------------------------------------------------------------- *)

Lemma set_database_same this databaseId database :
  Connection.databases this !! databaseId = Some database →
  Connection.set_database this databaseId database = this.
Proof.
  intros Hdb. unfold Connection.set_database. rewrite insert_id by done.
  by destruct this.
Qed.

Lemma advances_refl database : advances database database.
Proof. split; [done|done|lia|done]. Qed.

(* sendPayload either does nothing or sends one message and advances the
   DatabaseState. *)
Lemma sendPayload_shape est this payload log database :
  ascending log →
  Connection.sendPayload est this payload log database = (this, database)
  ∨ ∃ transactionLog flag database',
      Connection.sendPayload est this payload log database
      = (Connection.set_socket this
           (Socket.send (Connection.socket this)
              (ApplyTransactions payload transactionLog flag)),
         database')
      ∧ transactionLog ≠ []
      ∧ advances database database'
      ∧ DatabaseState.init database' = true.
Proof.
  intros Hasc.
  pose proof (sendPayload_lastSeqNo est this payload log database Hasc) as Hmono.
  destruct (sendPayload_cases est this payload log database)
    as [[_ Heq]|[(first & rest & _ & _ & _ & Heq)|(first & rest & _ & _ & _ & Heq)]];
    [by left..|].
  right. rewrite Heq in Hmono |- *. cbn zeta in *.
  eexists _, _, _. split; [done|]. split; [done|]. split; [|done].
  split; simpl; [done|done|exact Hmono|].
  intros _. case_bool_decide; [done | lia].
Qed.

(* A completed push either leaves the connection as it was, or sends one
   ApplyTransactions message and advances the DatabaseState of databaseId. *)
Lemma push_shape est gb now fuel w this databaseId h k r w' this' out database :
  Connection.push est gb now fuel w this databaseId h k r = Some (w', this', out) →
  Connection.databases this !! databaseId = Some database →
  this' = this
  ∨ ∃ transactionLog flag database',
      this' = Connection.set_database
                (Connection.set_socket this
                   (Socket.send (Connection.socket this)
                      (ApplyTransactions (pushPayload gb databaseId h k r database)
                         transactionLog flag)))
                databaseId database'
      ∧ out = Returned
      ∧ advances database database'
      ∧ DatabaseState.init database' = true.
Proof.
  intros Hpush Hdb.
  destruct (scan now fuel w databaseId database) as [[w1 [st|e]]|] eqn:Hscan;
    [|rewrite (push_scan_Throw _ _ _ _ _ _ _ _ _ _ _ _ _ Hdb Hscan) in Hpush;
      left; by simplify_eq
     |by rewrite (push_out_of_fuel _ _ _ _ _ _ _ _ _ _ _ Hdb Hscan) in Hpush].
  pose proof (scan_ascending _ _ _ _ _ _ _ Hscan) as Hasc.
  rewrite (push_scan_Ok _ _ _ _ _ _ _ _ _ _ _ _ _ Hdb Hscan) in Hpush.
  cbn zeta in Hpush.
  repeat (destruct (_ && _); [left; by simplify_eq|]).
  destruct (Scan.ddbTransactionLog st) as [|first rest] eqn:Hlog.
  - destruct (_ || _); [|left; by simplify_eq].
    right. injection Hpush as <- <- <-.
    eexists _, _, _. split; [done|]. split; [done|]. split; [|done].
    split; simpl; [done|done| |done].
    destruct (truthy _) eqn:Hb; [|lia].
    apply (bundle_truthy_attached gb databaseId h k r) in Hb. lia.
  - injection Hpush as <- <- <-.
    destruct (sendPayload_shape est this (pushPayload gb databaseId h k r database)
                (first :: rest) database Hasc)
      as [->|(tl & flag & database' & -> & _ & Hadv & Hinit)]; simpl.
    + left. by apply set_database_same.
    + right. eauto 10.
Qed.

(* The post-scan re-checks, for use in the statements below. *)
Lemma push_abandoned_rechecks_aux est gb now fuel w this databaseId h k r
    w' this' out database :
  Connection.push est gb now fuel w this databaseId h k r = Some (w', this', out) →
  Connection.databases this !! databaseId = Some database →
  (openingDatabase h k r = true ∧ DatabaseState.lastSeqNo database ≠ 0
   ∨ reopeningDatabase r = true ∧ r ≠ Some (DatabaseState.lastSeqNo database)
   ∨ openingDatabase h k r = false ∧ DatabaseState.init database = false) →
  this' = this.
Proof.
  intros Hpush Hdb Hcheck.
  destruct (scan now fuel w databaseId database) as [[w1 [st|e]]|] eqn:Hscan;
    [|rewrite (push_scan_Throw _ _ _ _ _ _ _ _ _ _ _ _ _ Hdb Hscan) in Hpush;
      by simplify_eq
     |by rewrite (push_out_of_fuel _ _ _ _ _ _ _ _ _ _ _ Hdb Hscan) in Hpush].
  rewrite (push_scan_Ok _ _ _ _ _ _ _ _ _ _ _ _ _ Hdb Hscan) in Hpush.
  cbn zeta in Hpush.
  destruct (openingDatabase h k r && _) eqn:H1; [by simplify_eq|].
  destruct (reopeningDatabase r && _) eqn:H2; [by simplify_eq|].
  destruct (negb (openingDatabase h k r) && _) eqn:H3; [by simplify_eq|].
  exfalso. destruct Hcheck as [[Ho Hne]|[[Hr Hne]|[Ho Hinit]]].
  - rewrite Ho in H1. simpl in H1. apply negb_false_iff, Z.eqb_eq in H1. done.
  - rewrite Hr in H2. simpl in H2. apply negb_false_iff in H2.
    apply bool_decide_eq_true in H2. congruence.
  - rewrite Ho, Hinit in H3. done.
Qed.

(** X3. The three post-scan re-checks of push abandon the send: an opening
    push on a database whose lastSeqNo is not 0, a reopening push whose
    reopenAtSeqNo is not the database's lastSeqNo, and a push that is neither
    an opening nor a reopening on a database whose init is false all leave
    the connection (socket and every DatabaseState) exactly as it was. *)
Theorem push_abandoned_by_rechecks
    (est : Item.t → Z) (gb : string → Z → option string) (now : Z) (fuel : nat)
    (w w' : Ddb.t) (this this' : Connection.t) (databaseId : string)
    (h k : option string) (r : option Z) (out : Outcome)
    (database : DatabaseState.t)
    (Hpush : Connection.push est gb now fuel w this databaseId h k r
             = Some (w', this', out))
    (Hdb : Connection.databases this !! databaseId = Some database)
    (Hcheck : openingDatabase h k r = true ∧ DatabaseState.lastSeqNo database ≠ 0
              ∨ reopeningDatabase r = true ∧ r ≠ Some (DatabaseState.lastSeqNo database)
              ∨ openingDatabase h k r = false ∧ DatabaseState.init database = false) :
  this' = this.
Proof. by eapply push_abandoned_rechecks_aux. Qed.

Lemma push_abandoned_by_rechecks_witness :
  ∃ w' this' out,
    Connection.push sampleSize sampleBundle 100000 5 twoRows
      (Connection.openDatabase sampleConnection "D" 0 None) "D" None None None
    = Some (w', this', out)
    ∧ this' = Connection.openDatabase sampleConnection "D" 0 None.
Proof.
  eexists _, _, _. split; [reflexivity|].
  exact (push_abandoned_by_rechecks sampleSize sampleBundle 100000 5 twoRows _
           (Connection.openDatabase sampleConnection "D" 0 None) _ "D"
           None None None _ (DatabaseState.mk (-1) 0 0 false)
           eq_refl eq_refl (or_intror (or_intror (conj eq_refl eq_refl)))).
Defined.

(** X4. A completed push changes nothing of the connection but its socket
    log and the DatabaseState of the database pushed: userId, clientId, id,
    keyValidated and requesterPublicKey stay, the socket is not closed, at
    most one message is appended to what was sent, no database is opened or
    dropped, and every other DatabaseState is untouched. *)
Theorem push_frame
    (est : Item.t → Z) (gb : string → Z → option string) (now : Z) (fuel : nat)
    (w w' : Ddb.t) (this this' : Connection.t) (databaseId : string)
    (h k : option string) (r : option Z) (out : Outcome)
    (Hpush : Connection.push est gb now fuel w this databaseId h k r
             = Some (w', this', out)) :
  Connection.userId this' = Connection.userId this
  ∧ Connection.clientId this' = Connection.clientId this
  ∧ Connection.id this' = Connection.id this
  ∧ Connection.keyValidated this' = Connection.keyValidated this
  ∧ Connection.requesterPublicKey this' = Connection.requesterPublicKey this
  ∧ Socket.closed (Connection.socket this') = Socket.closed (Connection.socket this)
  ∧ (∃ new, Socket.sent (Connection.socket this')
            = Socket.sent (Connection.socket this) ++ new
       ∧ (length new ≤ 1)%nat)
  ∧ dom (Connection.databases this') = dom (Connection.databases this)
  ∧ ∀ d, d ≠ databaseId →
      Connection.databases this' !! d = Connection.databases this !! d.
Proof.
  assert (this' = this →
          Connection.userId this' = Connection.userId this
          ∧ Connection.clientId this' = Connection.clientId this
          ∧ Connection.id this' = Connection.id this
          ∧ Connection.keyValidated this' = Connection.keyValidated this
          ∧ Connection.requesterPublicKey this' = Connection.requesterPublicKey this
          ∧ Socket.closed (Connection.socket this') = Socket.closed (Connection.socket this)
          ∧ (∃ new, Socket.sent (Connection.socket this')
                    = Socket.sent (Connection.socket this) ++ new
               ∧ (length new ≤ 1)%nat)
          ∧ dom (Connection.databases this') = dom (Connection.databases this)
          ∧ ∀ d, d ≠ databaseId →
              Connection.databases this' !! d = Connection.databases this !! d) as Hsame.
  { intros ->. split_and!; try done. exists []. rewrite app_nil_r. split; [done | simpl; lia]. }
  destruct (Connection.databases this !! databaseId) as [database|] eqn:Hdb;
    [|rewrite push_closed in Hpush by done; apply Hsame; by simplify_eq].
  destruct (push_shape _ _ _ _ _ _ _ _ _ _ _ _ _ _ Hpush Hdb)
    as [->|(tl & flag & database' & -> & _)]; [by apply Hsame|].
  simpl. split_and!; try done.
  - eexists [_]. split; [done | simpl; lia].
  - rewrite dom_insert_L. apply subseteq_union_1_L, singleton_subseteq_l.
    by apply elem_of_dom_2 in Hdb.
  - intros d Hd. by rewrite lookup_insert_ne.
Qed.

Lemma push_frame_witness :
  ∃ w' this' out,
    Connection.push sampleSize sampleBundle 100000 5 twoRows connectionAt4
      "D" None None None = Some (w', this', out)
    ∧ Connection.id this' = Connection.id connectionAt4
    ∧ ∃ new, Socket.sent (Connection.socket this')
             = Socket.sent (Connection.socket connectionAt4) ++ new
        ∧ (length new ≤ 1)%nat.
Proof.
  eexists _, _, _. split; [reflexivity|].
  pose proof (push_frame sampleSize sampleBundle 100000 5 twoRows _
                connectionAt4 _ "D" None None None _ eq_refl)
    as (_ & _ & Hid & _ & _ & _ & Hsent & _).
  exact (conj Hid Hsent).
Defined.

(** X5. A completed push never changes bundleSeqNo, never clears init, and
    never lets transactionLogSize reach the bundling trigger of 50 KiB if it
    was below it: the DatabaseState it leaves for the database pushed has the
    same bundleSeqNo, init still true if it was, and transactionLogSize below
    50 * 1024 if it was. *)
Theorem push_preserves_database_invariants
    (est : Item.t → Z) (gb : string → Z → option string) (now : Z) (fuel : nat)
    (w w' : Ddb.t) (this this' : Connection.t) (databaseId : string)
    (h k : option string) (r : option Z) (out : Outcome)
    (database : DatabaseState.t)
    (Hpush : Connection.push est gb now fuel w this databaseId h k r
             = Some (w', this', out))
    (Hdb : Connection.databases this !! databaseId = Some database) :
  ∃ database',
    Connection.databases this' !! databaseId = Some database'
    ∧ DatabaseState.bundleSeqNo database' = DatabaseState.bundleSeqNo database
    ∧ (DatabaseState.init database = true → DatabaseState.init database' = true)
    ∧ (DatabaseState.transactionLogSize database < 50 * 1024 →
       DatabaseState.transactionLogSize database' < 50 * 1024).
Proof.
  destruct (push_shape _ _ _ _ _ _ _ _ _ _ _ _ _ _ Hpush Hdb)
    as [->|(tl & flag & database' & -> & _ & [H1 H2 _ H4] & _)].
  - exists database. done.
  - exists database'. simpl. rewrite lookup_insert_eq. done.
Qed.

Lemma push_preserves_database_invariants_witness :
  ∃ w' this' out,
    Connection.push sampleSize sampleBundle 100000 5 twoRows connectionAt4
      "D" None None None = Some (w', this', out)
    ∧ ∃ database',
        Connection.databases this' !! "D" = Some database'
        ∧ DatabaseState.bundleSeqNo database' = -1
        ∧ (true = true → DatabaseState.init database' = true)
        ∧ (0 < 50 * 1024 → DatabaseState.transactionLogSize database' < 50 * 1024).
Proof.
  eexists _, _, _. split; [reflexivity|].
  exact (push_preserves_database_invariants sampleSize sampleBundle 100000 5 twoRows _
           connectionAt4 _ "D" None None None _ (DatabaseState.mk (-1) 4 0 true)
           eq_refl eq_refl).
Defined.

(* --------------------------------------------------------------------- *)
(* The fan-out fast path                                                 *)
(* --------------------------------------------------------------------- *)

Lemma sizeOf_singleton est (transaction : Item.t) :
  Connection.sizeOf est [transaction] = est transaction.
Proof. unfold Connection.sizeOf. simpl. lia. Qed.

Lemma pushTo_fast est gb now fuel w conn transaction database :
  Connection.databases conn !! Item.database_id transaction = Some database →
  Item.sequence_no transaction = DatabaseState.lastSeqNo database + 1 →
  Connections.pushTo est gb now fuel w conn transaction =
  let full :=
    bool_decide (TRANSACTION_SIZE_BUNDLE_TRIGGER
                 ≤ DatabaseState.transactionLogSize database + est transaction) in
  Some (w,
        Connection.set_database
          (Connection.set_socket conn
             (Socket.send (Connection.socket conn)
                (ApplyTransactions (fanOutPayload transaction) [toWire transaction] full)))
          (Item.database_id transaction)
          {| DatabaseState.bundleSeqNo := DatabaseState.bundleSeqNo database;
             DatabaseState.lastSeqNo := Item.sequence_no transaction;
             DatabaseState.transactionLogSize :=
               if full then 0
               else DatabaseState.transactionLogSize database + est transaction;
             DatabaseState.init := true |},
        Returned).
Proof.
  intros Hdb Hnext. unfold Connections.pushTo. rewrite Hdb.
  rewrite (proj2 (Z.eqb_eq _ _) Hnext).
  fold (fanOutPayload transaction).
  rewrite (sendPayload_contiguous est conn (fanOutPayload transaction) database
             (DatabaseState.lastSeqNo database) transaction []);
    [|lia|done|by left].
  cbn zeta. by rewrite sizeOf_singleton.
Qed.

(** X6. The fan-out fast path: when the committed transaction carries the
    sequence number right after the connection's lastSeqNo for its database,
    the dispatcher sends exactly that one transaction in one ApplyTransactions
    message without dbNameHash, dbKey or bundle, moves lastSeqNo to it, sets
    init, applies the bundling rule to its size, and does not touch the
    store; it does so whether or not the database's init was already true. *)
Theorem fanOut_fast_path
    (est : Item.t → Z) (gb : string → Z → option string) (now : Z) (fuel : nat)
    (w : Ddb.t) (conn : Connection.t) (transaction : Item.t)
    (database : DatabaseState.t)
    (Hdb : Connection.databases conn !! Item.database_id transaction = Some database)
    (Hnext : Item.sequence_no transaction = DatabaseState.lastSeqNo database + 1) :
  ∃ flag,
    (flag = true ↔
     50 * 1024 ≤ DatabaseState.transactionLogSize database + est transaction)
    ∧ Connections.pushTo est gb now fuel w conn transaction
      = Some (w,
              Connection.set_database
                (Connection.set_socket conn
                   (Socket.send (Connection.socket conn)
                      (ApplyTransactions (fanOutPayload transaction)
                         [toWire transaction] flag)))
                (Item.database_id transaction)
                {| DatabaseState.bundleSeqNo := DatabaseState.bundleSeqNo database;
                   DatabaseState.lastSeqNo := Item.sequence_no transaction;
                   DatabaseState.transactionLogSize :=
                     if flag then 0
                     else DatabaseState.transactionLogSize database + est transaction;
                   DatabaseState.init := true |},
              Returned).
Proof.
  rewrite (pushTo_fast _ _ _ _ _ _ _ _ Hdb Hnext). cbn zeta.
  eexists. split; [|done].
  change (50 * 1024) with TRANSACTION_SIZE_BUNDLE_TRIGGER.
  apply bool_decide_eq_true.
Qed.

Lemma fanOut_fast_path_witness :
  ∃ flag,
    (flag = true ↔ 50 * 1024 ≤ 0 + sampleSize (sampleItem 5 0))
    ∧ Connections.pushTo sampleSize sampleBundle 100000 5 twoRows connectionAt4
        (sampleItem 5 0)
      = Some (twoRows,
              Connection.set_database
                (Connection.set_socket connectionAt4
                   (Socket.send (Connection.socket connectionAt4)
                      (ApplyTransactions (fanOutPayload (sampleItem 5 0))
                         [toWire (sampleItem 5 0)] flag)))
                "D"
                {| DatabaseState.bundleSeqNo := -1;
                   DatabaseState.lastSeqNo := 5;
                   DatabaseState.transactionLogSize :=
                     if flag then 0 else 0 + sampleSize (sampleItem 5 0);
                   DatabaseState.init := true |},
              Returned).
Proof.
  exact (fanOut_fast_path sampleSize sampleBundle 100000 5 twoRows connectionAt4
           (sampleItem 5 0) (DatabaseState.mk (-1) 4 0 true) eq_refl eq_refl).
Defined.

(** X7. The fast path is not held back by init. On a database just opened for
    the first time (lastSeqNo = 0, init = false), a fan-out of the
    transaction with sequence number 1 sends it as a bare batch and sets
    lastSeqNo = 1; any opening push that completes afterwards finds
    lastSeqNo different from 0 and sends nothing. The socket has then
    received the transaction but no message carrying dbNameHash and dbKey. *)
Theorem fast_path_preempts_opening
    (est : Item.t → Z) (gb : string → Z → option string) (now now' : Z)
    (fuel fuel' : nat) (w w1 w2 w3 : Ddb.t) (conn conn1 conn3 : Connection.t)
    (bundleSeqNo : Z) (transaction : Item.t) (h k : option string)
    (out1 out3 : Outcome)
    (Hseq : Item.sequence_no transaction = 1)
    (Hfan : Connections.pushTo est gb now fuel w
              (Connection.openDatabase conn (Item.database_id transaction)
                 bundleSeqNo None)
              transaction
            = Some (w1, conn1, out1))
    (Hopening : openingDatabase h k None = true)
    (Hpush : Connection.push est gb now' fuel' w2 conn1
               (Item.database_id transaction) h k None
             = Some (w3, conn3, out3)) :
  conn3 = conn1
  ∧ ∃ flag,
      Socket.sent (Connection.socket conn3)
      = Socket.sent (Connection.socket conn)
        ++ [ApplyTransactions (fanOutPayload transaction) [toWire transaction] flag].
Proof.
  set (conn0 := Connection.openDatabase conn _ _ _) in Hfan.
  set (database :=
         {| DatabaseState.bundleSeqNo := if 0 <? bundleSeqNo then bundleSeqNo else -1;
            DatabaseState.lastSeqNo := 0;
            DatabaseState.transactionLogSize := 0;
            DatabaseState.init := false |}).
  assert (Connection.databases conn0 !! Item.database_id transaction = Some database)
    as Hdb by (unfold conn0, Connection.openDatabase; simpl; by rewrite lookup_insert_eq).
  rewrite (pushTo_fast est gb now fuel w conn0 transaction database Hdb) in Hfan
    by (simpl; lia).
  cbn zeta in Hfan. injection Hfan as <- <- <-.
  assert (conn3 = Connection.set_database
                    (Connection.set_socket conn0
                       (Socket.send (Connection.socket conn0)
                          (ApplyTransactions (fanOutPayload transaction)
                             [toWire transaction]
                             (bool_decide (TRANSACTION_SIZE_BUNDLE_TRIGGER
                                           ≤ 0 + est transaction)))))
                    (Item.database_id transaction)
                    {| DatabaseState.bundleSeqNo := DatabaseState.bundleSeqNo database;
                       DatabaseState.lastSeqNo := Item.sequence_no transaction;
                       DatabaseState.transactionLogSize :=
                         if bool_decide (TRANSACTION_SIZE_BUNDLE_TRIGGER
                                         ≤ 0 + est transaction)
                         then 0 else 0 + est transaction;
                       DatabaseState.init := true |}) as ->.
  { eapply push_abandoned_rechecks_aux; [exact Hpush| |].
    - simpl. apply lookup_insert_eq.
    - left. split; [done|]. simpl. lia. }
  split; [done|]. simpl. eauto.
Qed.

Lemma fast_path_preempts_opening_witness :
  ∃ w1 conn1 out1 w3 conn3 out3,
    Connections.pushTo sampleSize sampleBundle 100000 5
      (Ddb.mk [sampleItem 1 0] [] 10)
      (Connection.openDatabase sampleConnection "D" 0 None) (sampleItem 1 0)
    = Some (w1, conn1, out1)
    ∧ Connection.push sampleSize sampleBundle 100000 5
        (Ddb.mk [sampleItem 1 0] [] 10) conn1 "D" (Some "h") (Some "k") None
      = Some (w3, conn3, out3)
    ∧ conn3 = conn1
    ∧ ∃ flag,
        Socket.sent (Connection.socket conn3)
        = Socket.sent (Connection.socket sampleConnection)
          ++ [ApplyTransactions (fanOutPayload (sampleItem 1 0))
                [toWire (sampleItem 1 0)] flag].
Proof.
  eexists _, _, _, _, _, _. split; [reflexivity|]. split; [reflexivity|].
  exact (fast_path_preempts_opening sampleSize sampleBundle 100000 100000 5 5
           (Ddb.mk [sampleItem 1 0] [] 10) _ (Ddb.mk [sampleItem 1 0] [] 10) _
           sampleConnection _ _ 0 (sampleItem 1 0) (Some "h") (Some "k") _ _
           eq_refl eq_refl eq_refl eq_refl).
Defined.

(* --------------------------------------------------------------------- *)
(* Rollback and the young gap                                            *)
(* --------------------------------------------------------------------- *)

(** X8. A rollback cannot be repeated: once rollback(lastSeqNo, thisSeqNo,
    databaseId) has succeeded on a non-empty window, a second rollback of the
    same window, at any later time, fails at its first conditional put with
    ConditionalCheckFailedException, returns no list and writes nothing (the
    table only takes in what other writers had in flight). *)
Theorem rollback_not_repeatable
    (now now' : Z) (lastSeqNo thisSeqNo : Z) (databaseId : string)
    (w w1 : Ddb.t) (rolled : list Item.t)
    (Hfirst : Connection.rollback now lastSeqNo thisSeqNo databaseId w = (w1, Ok rolled))
    (Hwindow : lastSeqNo + 1 < thisSeqNo) :
  Connection.rollback now' lastSeqNo thisSeqNo databaseId w1
  = (Ddb.settle w1, Throw ConditionalCheckFailedException).
Proof.
  apply rollback_Ok in Hfirst as [-> Hin].
  unfold Connection.rollback.
  destruct (Z.to_nat (thisSeqNo - 1 - lastSeqNo)) as [|n] eqn:Hn; [lia|].
  cbn [Connection.rollbackLoop]. unfold Ddb.put.
  assert (Ddb.occupied (Ddb.table (Ddb.settle w1))
            (Connection.rolledBackItem now' databaseId (lastSeqNo + 1)) = true) as ->; [|done].
  apply occupied_spec, list_elem_of_fmap.
  exists (Connection.rolledBackItem now databaseId (lastSeqNo + 1)). split; [done|].
  apply settle_incl, Hin. rewrite sentinels_S. apply list_elem_of_here.
Qed.

Lemma rollback_not_repeatable_witness :
  ∃ w1 rolled,
    Connection.rollback 100000 4 8 "D" (Ddb.mk [sampleItem 8 8000] [] 10)
    = (w1, Ok rolled)
    ∧ Connection.rollback 200000 4 8 "D" w1
      = (Ddb.settle w1, Throw ConditionalCheckFailedException).
Proof.
  eexists _, _. split; [reflexivity|].
  exact (rollback_not_repeatable 100000 200000 4 8 "D"
           (Ddb.mk [sampleItem 8 8000] [] 10) _ _ eq_refl eq_refl).
Defined.

Lemma scanItems_young now database databaseId items w st :
  allYoung now items →
  ∃ st', Connection.scanItems now database databaseId items w st = (w, Ok st').
Proof.
  intros Hy. revert st. induction Hy as [|item rest Hitem _ IH]; intros st; [by eexists|].
  cbn [Connection.scanItems]. destruct (Scan.gapInSeqNo st); [by eexists|].
  assert ((SECONDS_BEFORE_ROLLBACK_GAP_TRIGGERED <? now - Item.creation_date item) = false)
    as -> by (apply Z.ltb_ge; exact Hitem).
  rewrite andb_false_r. destruct (_ <? _); apply IH.
Qed.

Lemma settle_quiet w : Ddb.inflight w = [] → Ddb.settle w = w.
Proof. unfold Ddb.settle. by intros ->. Qed.

Lemma scanPages_young now database databaseId seqNo fuel esk w st w' res :
  Ddb.inflight w = [] → allYoung now (Ddb.table w) →
  Connection.scanPages now fuel database databaseId seqNo esk w st = Some (w', res) →
  w' = w ∧ ∃ st', res = Ok st'.
Proof.
  intros Hquiet Hyoung. revert esk st.
  induction fuel as [|fuel IH]; intros esk st; [done|].
  cbn [Connection.scanPages].
  destruct (Ddb.query w databaseId seqNo esk) as [w1 resp] eqn:Hq.
  destruct (query_spec _ _ _ _ _ _ Hq) as (Hw1 & _ & Hsel & _).
  rewrite settle_quiet in Hw1 by done. subst w1.
  assert (allYoung now (Ddb.Items resp)) as Hpage.
  { apply Forall_forall. intros x [Hx _]%Hsel.
    exact (proj1 (Forall_forall _ _) Hyoung x Hx). }
  destruct (scanItems_young now database databaseId _ w st Hpage) as [st1 ->].
  destruct (Ddb.LastEvaluatedKey resp) as [k|].
  - destruct (Scan.gapInSeqNo st1); [intros [= <- <-]; eauto|]. apply IH.
  - intros [= <- <-]. eauto.
Qed.

(** X9. push rolls back nothing while every row of the table is at most 10 s
    old: with no concurrent writer, a push on such a table leaves the table
    exactly as it was (no sentinel is written, however many sequence numbers
    are missing) and does not throw. *)
Theorem push_young_table_no_write
    (est : Item.t → Z) (gb : string → Z → option string) (now : Z) (fuel : nat)
    (w w' : Ddb.t) (this this' : Connection.t) (databaseId : string)
    (h k : option string) (r : option Z) (out : Outcome)
    (Hquiet : Ddb.inflight w = [])
    (Hyoung : allYoung now (Ddb.table w))
    (Hpush : Connection.push est gb now fuel w this databaseId h k r
             = Some (w', this', out)) :
  w' = w ∧ out = Returned.
Proof.
  destruct (Connection.databases this !! databaseId) as [database|] eqn:Hdb;
    [|rewrite push_closed in Hpush by done; by simplify_eq].
  destruct (scan now fuel w databaseId database) as [[w1 res]|] eqn:Hscan;
    [|by rewrite (push_out_of_fuel _ _ _ _ _ _ _ _ _ _ _ Hdb Hscan) in Hpush].
  destruct (scanPages_young _ _ _ _ _ _ _ _ _ _ Hquiet Hyoung Hscan) as [-> [st ->]].
  rewrite (push_scan_Ok _ _ _ _ _ _ _ _ _ _ _ _ _ Hdb Hscan) in Hpush.
  cbn zeta in Hpush.
  repeat (destruct (_ && _); [by simplify_eq|]).
  destruct (Scan.ddbTransactionLog st); [|by simplify_eq].
  destruct (_ || _); by simplify_eq.
Qed.

Lemma push_young_table_no_write_witness :
  ∃ w' this' out,
    Connection.push sampleSize sampleBundle 100 5 (Ddb.mk [sampleItem 8 0] [] 10)
      connectionAt4 "D" None None None = Some (w', this', out)
    ∧ allYoung 100 [sampleItem 8 0]
    ∧ w' = Ddb.mk [sampleItem 8 0] [] 10 ∧ out = Returned.
Proof.
  assert (allYoung 100 [sampleItem 8 0]) as Hyoung
    by (apply Forall_cons; split; [vm_compute; discriminate | apply Forall_nil_2]).
  eexists _, _, _. split; [reflexivity|]. split; [exact Hyoung|].
  exact (push_young_table_no_write sampleSize sampleBundle 100 5
           (Ddb.mk [sampleItem 8 0] [] 10) _ connectionAt4 _ "D" None None None _
           eq_refl Hyoung eq_refl).
Defined.

(* --------------------------------------------------------------------- *)
(* The registry: close                                                   *)
(* --------------------------------------------------------------------- *)

Lemma close_returned C connection sockets0 conns unique0 :
  Connections.sockets C = Some sockets0 →
  sockets0 !! Connection.userId connection = Some conns →
  Connections.uniqueClients C = Some unique0 →
  Connections.close C connection
  = (Connections.mk
       (Some (<[Connection.userId connection :=
                  delete (Connection.id connection) conns]> sockets0))
       (Some (unique0 ∖ {[Connection.clientId connection]})),
     Returned).
Proof. unfold Connections.close. by intros -> -> ->. Qed.

(** X10. close undoes register: after a register that is accepted (it
    returns a Connection) with a connectionId not in use for the user,
    closing the connection it returned brings back every sockets[u][i] and
    the set uniqueClients as they were before the register. *)
Theorem close_undoes_register
    (C C1 : Connections.t) (userId : string) (socket socket1 : Socket.t)
    (clientId uuid : string) (connection : Connection.t)
    (Haccepted : Connections.register C userId socket clientId uuid
                 = (C1, socket1, Some connection))
    (Hfresh : connectionAt C userId uuid = None) :
  ∃ C2,
    Connections.close C1 connection = (C2, Returned)
    ∧ presentClients C2 = presentClients C
    ∧ ∀ u i, connectionAt C2 u i = connectionAt C u i.
Proof.
  destruct (decide (clientId ∈ presentClients C ∨ inherited clientId = true))
    as [Hrej|Hacc].
  { destruct (register_rejected C userId socket clientId uuid Hrej) as (C' & Heq & _).
    rewrite Heq in Haccepted. discriminate. }
  assert (clientId ∉ presentClients C) as Hnew by (intros ?; apply Hacc; by left).
  assert (inherited clientId = false) as Hown
    by (destruct (inherited clientId); [destruct Hacc; by right | done]).
  destruct (register_accepted C userId socket clientId uuid Hnew Hown)
    as (C1' & Hreg & Hp1 & Hat1 & Hother1).
  rewrite Hreg in Haccepted. injection Haccepted as <- _ <-.
  set (connection := Connection.new userId socket clientId uuid) in *.
  assert (Connection.clientId connection ∈ presentClients C1') as Hin.
  { rewrite Hp1. apply elem_of_union. left. by apply elem_of_singleton. }
  destruct (close_live C1' connection Hat1 Hin) as (C2 & Hclose & Hp2 & Hgone & Hother2).
  exists C2. split; [done|]. split.
  - rewrite Hp2, Hp1. simpl. apply set_eq. intros x.
    rewrite elem_of_difference, elem_of_union, !elem_of_singleton.
    split; [intros [[->|?] ?]; done|]. intros Hx. split; [by right|]. by intros ->.
  - intros u i. destruct (decide ((u, i) = (userId, uuid))) as [[= -> ->]|Hne].
    + by rewrite Hfresh.
    + rewrite Hother2 by done. by apply Hother1.
Qed.

Lemma close_undoes_register_witness :
  ∃ C1 connection,
    Connections.register oneClient "U" sampleSocket "C2" "id2"
    = (C1, sampleSocket, Some connection)
    ∧ ∃ C2,
        Connections.close C1 connection = (C2, Returned)
        ∧ presentClients C2 = presentClients oneClient
        ∧ ∀ u i, connectionAt C2 u i = connectionAt oneClient u i.
Proof.
  eexists _, _. split; [reflexivity|].
  exact (close_undoes_register oneClient _ "U" sampleSocket _ "C2" "id2" _
           eq_refl eq_refl).
Defined.

(** X11. close is idempotent: when close(connection) returns, calling it
    again with the same connection returns too and leaves the registry
    exactly as the first call left it. *)
Theorem close_idempotent
    (C C1 : Connections.t) (connection : Connection.t)
    (Hclose : Connections.close C connection = (C1, Returned)) :
  Connections.close C1 connection = (C1, Returned).
Proof.
  unfold Connections.close in Hclose.
  destruct (Connections.sockets C) as [sockets0|] eqn:Hs; [|done].
  destruct (sockets0 !! Connection.userId connection) as [conns|] eqn:Hu; [|done].
  destruct (Connections.uniqueClients C) as [unique0|] eqn:Huc; [|done].
  injection Hclose as <-.
  erewrite close_returned; [|done|apply lookup_insert_eq|done].
  f_equal. f_equal; f_equal.
  - rewrite insert_insert_eq. f_equal. apply delete_delete_eq.
  - apply set_eq. intros x. rewrite !elem_of_difference. tauto.
Qed.

Lemma close_idempotent_witness :
  ∃ C1,
    Connections.close oneClient firstConnection = (C1, Returned)
    ∧ Connections.close C1 firstConnection = (C1, Returned).
Proof.
  eexists. split; [reflexivity|].
  exact (close_idempotent oneClient _ firstConnection eq_refl).
Defined.

(* sockets and uniqueClients are created together and never removed. *)
Lemma run_defined_together ops :
  Connections.sockets (run ops) = None ↔ Connections.uniqueClients (run ops) = None.
Proof.
  unfold run. induction ops as [|op ops IH] using rev_ind; [done|].
  rewrite foldl_app. simpl. set (C := foldl step Connections.initial ops) in *.
  destruct op as [u s c i|connection]; simpl.
  - unfold Connections.register. destruct (_ && _); simpl; split; by intros ?.
  - unfold Connections.close.
    destruct (Connections.sockets C) as [sockets0|] eqn:Hs;
      [|simpl; by rewrite Hs].
    destruct (sockets0 !! Connection.userId connection);
      [|simpl; by rewrite Hs].
    destruct (Connections.uniqueClients C) eqn:Hu; simpl;
      [split; by intros ?|].
    destruct IH as [_ IH]. by specialize (IH eq_refl).
Qed.

Lemma insert_is_Some {V : Type} (m : gmap string V) (u userId : string) (b : V) :
  is_Some (<[u := b]> m !! userId) ↔ is_Some (m !! userId) ∨ u = userId.
Proof.
  destruct (decide (u = userId)) as [->|Hne].
  - rewrite lookup_insert_eq. split; [by right | by eexists].
  - rewrite lookup_insert_ne by done. split; [by left|]. by intros [?|?].
Qed.

Lemma step_bucket C op userId :
  is_Some (default ∅ (Connections.sockets (step C op)) !! userId)
  ↔ is_Some (default ∅ (Connections.sockets C) !! userId) ∨ registersUser userId op.
Proof.
  destruct op as [u s c i|connection]; simpl.
  - unfold Connections.register.
    set (sockets1 := default ∅ (Connections.sockets C)).
    assert (is_Some (sockets1 !! u) → u = userId → is_Some (sockets1 !! userId)) as Hu
      by (by intros ? <-).
    destruct (sockets1 !! u) as [conns|] eqn:Hlook;
      destruct (_ && _); simpl; rewrite ?insert_is_Some.
    + tauto.
    + split; [tauto|]. intros [?|?]; [done|]. apply Hu; by eauto.
    + tauto.
    + tauto.
  - unfold Connections.close.
    destruct (Connections.sockets C) as [sockets0|] eqn:Hs; simpl;
      [|rewrite ?Hs; simpl; tauto].
    destruct (sockets0 !! Connection.userId connection) as [conns|] eqn:Hu;
      [|simpl; rewrite ?Hs; simpl; tauto].
    assert (is_Some (<[Connection.userId connection :=
                         delete (Connection.id connection) conns]> sockets0 !! userId)
            ↔ is_Some (sockets0 !! userId)) as Hins.
    { rewrite insert_is_Some. split; [|tauto]. intros [?|<-]; [done|]. by eexists. }
    destruct (Connections.uniqueClients C); simpl; rewrite Hins; tauto.
Qed.

(* A user has a bucket in sockets exactly when register was called for it. *)
Lemma run_bucket ops userId :
  is_Some (default ∅ (Connections.sockets (run ops)) !! userId)
  ↔ Exists (registersUser userId) ops.
Proof.
  unfold run. induction ops as [|op ops IH] using rev_ind.
  - simpl. rewrite lookup_empty, Exists_nil. split; [by intros [? ?] | done].
  - rewrite foldl_app, Exists_app, Exists_cons, Exists_nil. simpl.
    rewrite step_bucket, IH. tauto.
Qed.

(** X12. After any sequence of register and close calls, close(connection)
    throws a TypeError exactly when register was never called for the
    connection's userId (accepted or rejected, a register creates
    sockets[userId], and nothing removes it); when it throws it leaves the
    registry untouched, and otherwise it returns. *)
Theorem close_throws_iff_user_unknown (ops : list Op) (connection : Connection.t) :
  (Exists (registersUser (Connection.userId connection)) ops →
   (Connections.close (run ops) connection).2 = Returned)
  ∧ (¬ Exists (registersUser (Connection.userId connection)) ops →
     Connections.close (run ops) connection = (run ops, Threw TypeError)).
Proof.
  rewrite <- run_bucket. pose proof (run_defined_together ops) as Hboth.
  unfold Connections.close.
  destruct (Connections.sockets (run ops)) as [sockets0|] eqn:Hs; simpl.
  - destruct (sockets0 !! Connection.userId connection) as [conns|] eqn:Hu.
    + split; [|intros Hn; exfalso; apply Hn; by eexists]. intros _.
      destruct (Connections.uniqueClients (run ops)); [done|].
      destruct Hboth as [_ Hboth]. by specialize (Hboth eq_refl).
    + split; [by intros [? ?] | done].
  - rewrite lookup_empty. split; [by intros [? ?] | done].
Qed.

(* --------------------------------------------------------------------- *)
(* The seed exchange across the connections of a user                    *)
(* --------------------------------------------------------------------- *)

Lemma sendSeedRequest_unregistered C userId connectionId rpk :
  connectionAt C userId connectionId = None →
  Connections.sendSeedRequest C userId connectionId rpk = C.
Proof.
  unfold connectionAt, Connections.sendSeedRequest.
  destruct (Connections.sockets C) as [sockets0|]; simpl; [|done].
  destruct (sockets0 !! userId) as [conns|]; [|done]. by intros ->.
Qed.

(** X13. The user-scoped sendSeedRequest, called for a connection that is in
    the registry: every connection of that user whose keyValidated is true
    has exactly one {route: ReceiveRequestForSeed, requesterPublicKey}
    appended to its socket, the connections of the user that are not
    validated and all connections of other users have nothing sent, the
    origin connection now stores the requesterPublicKey, and no other stored
    key, validation flag or DatabaseState changes. *)
Theorem seed_request_reaches_validated
    (C : Connections.t) (userId connectionId : string) (rpk : option string)
    (origin : Connection.t) (u i : string) (c : Connection.t)
    (Horigin : connectionAt C userId connectionId = Some origin)
    (Hc : connectionAt C u i = Some c) :
  ∃ c', connectionAt (Connections.sendSeedRequest C userId connectionId rpk) u i
        = Some c'
    ∧ Socket.sent (Connection.socket c')
      = Socket.sent (Connection.socket c)
        ++ (if bool_decide (u = userId) && Connection.keyValidated c
            then [ReceiveRequestForSeed rpk] else [])
    ∧ Connection.requesterPublicKey c'
      = (if bool_decide (u = userId ∧ i = connectionId)
         then rpk else Connection.requesterPublicKey c)
    ∧ Connection.keyValidated c' = Connection.keyValidated c
    ∧ Connection.databases c' = Connection.databases c
    ∧ Socket.closed (Connection.socket c') = Socket.closed (Connection.socket c).
Proof.
  rewrite (sendSeedRequest_at _ _ _ _ _ _ _ Hc), Horigin. eexists. split; [done|].
  destruct (decide (u = userId)) as [->|Hne].
  - rewrite (bool_decide_eq_true_2 (userId = userId ∧ is_Some (Some origin)))
      by (split; [done | by eexists]).
    rewrite (bool_decide_eq_true_2 (userId = userId)) by done.
    destruct (decide (i = connectionId)) as [->|Hi].
    + rewrite !bool_decide_eq_true_2 by done.
      unfold Connection.sendSeedRequest, Connection.openSeedRequest. simpl.
      destruct (Connection.keyValidated c) eqn:Hkv; simpl; by rewrite ?app_nil_r.
    + rewrite (bool_decide_eq_false_2 (i = connectionId)) by done.
      rewrite (bool_decide_eq_false_2 (userId = userId ∧ i = connectionId))
        by (by intros [_ ?]).
      unfold Connection.sendSeedRequest.
      destruct (Connection.keyValidated c) eqn:Hkv; simpl; by rewrite ?app_nil_r.
  - rewrite (bool_decide_eq_false_2 (u = userId ∧ is_Some (Some origin)))
      by (by intros [? _]).
    rewrite (bool_decide_eq_false_2 (u = userId ∧ i = connectionId))
      by (by intros [? _]).
    rewrite (bool_decide_eq_false_2 (u = userId)) by done.
    simpl. by rewrite app_nil_r.
Qed.

Lemma seed_request_reaches_validated_witness :
  ∃ c', connectionAt (Connections.sendSeedRequest seedRegistry "U" "idN" (Some "pkN"))
          "U" "idA" = Some c'
    ∧ Socket.sent (Connection.socket c')
      = Socket.sent (Connection.socket deviceA)
        ++ (if bool_decide ("U" = "U") && Connection.keyValidated deviceA
            then [ReceiveRequestForSeed (Some "pkN")] else [])
    ∧ Connection.requesterPublicKey c'
      = (if bool_decide ("U" = "U" ∧ "idA" = "idN")
         then Some "pkN" else Connection.requesterPublicKey deviceA)
    ∧ Connection.keyValidated c' = Connection.keyValidated deviceA
    ∧ Connection.databases c' = Connection.databases deviceA
    ∧ Socket.closed (Connection.socket c') = Socket.closed (Connection.socket deviceA).
Proof.
  exact (seed_request_reaches_validated seedRegistry "U" "idN" (Some "pkN")
           deviceN "U" "idA" deviceA eq_refl eq_refl).
Defined.

(** X14. A seed request issued for a connection that is not in the registry
    (unknown user or unknown connectionId) is dropped whole: the registry is
    left exactly as it was, so not even the validated connections of that
    user receive the request. *)
Theorem seed_request_from_unknown_connection_dropped
    (C : Connections.t) (userId connectionId : string) (rpk : option string)
    (Hgone : connectionAt C userId connectionId = None) :
  Connections.sendSeedRequest C userId connectionId rpk = C.
Proof. by apply sendSeedRequest_unregistered. Qed.

Lemma seed_request_from_unknown_connection_dropped_witness :
  Connections.sendSeedRequest seedRegistry "U" "idX" (Some "pkX") = seedRegistry.
Proof.
  exact (seed_request_from_unknown_connection_dropped seedRegistry "U" "idX"
           (Some "pkX") eq_refl).
Defined.

(** X15. Request and delivery compose: after sendSeedRequest for a registered
    connection, a sendSeed to the same user carrying the same
    requesterPublicKey puts {route: ReceiveSeed, senderPublicKey,
    encryptedSeed} on the socket of the requesting connection, right after
    the request itself if that connection was validated; any other
    connection of the user receives the seed only if it stores that very
    key. *)
Theorem seed_request_then_delivery
    (C : Connections.t) (userId connectionId senderPublicKey : string)
    (rpk : option string) (encryptedSeed : string)
    (origin : Connection.t) (i : string) (c : Connection.t)
    (Horigin : connectionAt C userId connectionId = Some origin)
    (Hc : connectionAt C userId i = Some c) :
  ∃ c', connectionAt
          (Connections.sendSeed
             (Connections.sendSeedRequest C userId connectionId rpk)
             userId senderPublicKey rpk encryptedSeed)
          userId i = Some c'
    ∧ Socket.sent (Connection.socket c')
      = Socket.sent (Connection.socket c)
        ++ (if Connection.keyValidated c then [ReceiveRequestForSeed rpk] else [])
        ++ (if bool_decide (i = connectionId ∨ Connection.requesterPublicKey c = rpk)
            then [ReceiveSeed encryptedSeed senderPublicKey] else []).
Proof.
  pose proof (sendSeedRequest_at C userId connectionId rpk userId i c Hc) as H1.
  rewrite Horigin in H1.
  rewrite (bool_decide_eq_true_2 (userId = userId ∧ _)) in H1
    by (split; [done | by eexists]).
  rewrite (sendSeed_at _ _ _ _ _ _ _ _ H1).
  rewrite (bool_decide_eq_true_2 (userId = userId)) by done.
  eexists. split; [done|].
  unfold Connection.sendSeed, Connection.sendSeedRequest, Connection.openSeedRequest.
  destruct (decide (i = connectionId)) as [->|Hi].
  - rewrite (bool_decide_eq_true_2 (connectionId = connectionId)) by done.
    rewrite (bool_decide_eq_true_2 (_ ∨ _)) by (by left).
    destruct (Connection.keyValidated c) eqn:Hkv; simpl;
      rewrite bool_decide_eq_false_2 by (intros Hn; by apply Hn); simpl;
      by rewrite <- ?app_assoc.
  - rewrite (bool_decide_eq_false_2 (i = connectionId)) by done.
    destruct (decide (Connection.requesterPublicKey c = rpk)) as [Heq|Hne].
    + rewrite (bool_decide_eq_true_2 (_ ∨ _)) by (by right).
      destruct (Connection.keyValidated c) eqn:Hkv; simpl;
        rewrite bool_decide_eq_false_2 by (intros Hn; by apply Hn); simpl;
        by rewrite <- ?app_assoc.
    + rewrite (bool_decide_eq_false_2 (_ ∨ _)) by (intros [?|?]; done).
      destruct (Connection.keyValidated c) eqn:Hkv; simpl;
        rewrite bool_decide_eq_true_2 by done; simpl; by rewrite ?app_nil_r.
Qed.

Lemma seed_request_then_delivery_witness :
  ∃ c', connectionAt
          (Connections.sendSeed
             (Connections.sendSeedRequest seedRegistry "U" "idN" (Some "pkN"))
             "U" "pkA" (Some "pkN") "enc")
          "U" "idN" = Some c'
    ∧ Socket.sent (Connection.socket c')
      = Socket.sent (Connection.socket deviceN)
        ++ (if Connection.keyValidated deviceN
            then [ReceiveRequestForSeed (Some "pkN")] else [])
        ++ (if bool_decide ("idN" = "idN"
                            ∨ Connection.requesterPublicKey deviceN = Some "pkN")
            then [ReceiveSeed "enc" "pkA"] else []).
Proof.
  exact (seed_request_then_delivery seedRegistry "U" "idN" "pkA" (Some "pkN") "enc"
           deviceN "idN" deviceN eq_refl eq_refl).
Defined.

(* --------------------------------------------------------------------- *)
(* Connections.openDatabase                                              *)
(* --------------------------------------------------------------------- *)

(* openDatabase on a registered connection: the push it starts, and where
   the connection ends up. *)
Lemma openDatabase_registered est gb now fuel w C userId connectionId databaseId
    bundleSeqNo h k r conn :
  connectionAt C userId connectionId = Some conn →
  Connections.openDatabase est gb now fuel w C userId connectionId databaseId
    bundleSeqNo h k r
  = match Connection.push est gb now fuel w
            (match Connection.databases conn !! databaseId with
             | None => Connection.openDatabase conn databaseId bundleSeqNo r
             | Some _ => conn
             end) databaseId h k r with
    | None => None
    | Some (w', conn2, _) =>
      Some (w',
            Connections.mk
              (Some (<[userId := <[connectionId := conn2]>
                                   (default ∅ (default ∅ (Connections.sockets C) !! userId))]>
                       (default ∅ (Connections.sockets C))))
              (Connections.uniqueClients C),
            true)
    end.
Proof.
  unfold connectionAt, Connections.openDatabase.
  destruct (Connections.sockets C) as [sockets0|]; simpl; [|by rewrite lookup_empty].
  destruct (sockets0 !! userId) as [conns|]; [|done]. simpl. by intros ->.
Qed.

Lemma connectionAt_stored C userId connectionId conn2 u i :
  connectionAt
    (Connections.mk
       (Some (<[userId := <[connectionId := conn2]>
                            (default ∅ (default ∅ (Connections.sockets C) !! userId))]>
                (default ∅ (Connections.sockets C))))
       (Connections.uniqueClients C)) u i
  = if bool_decide ((u, i) = (userId, connectionId)) then Some conn2
    else connectionAt C u i.
Proof.
  unfold connectionAt. simpl.
  destruct (decide (u = userId)) as [->|Hu].
  - rewrite lookup_insert_eq. destruct (decide (i = connectionId)) as [->|Hi].
    + by rewrite lookup_insert_eq, bool_decide_eq_true_2.
    + rewrite lookup_insert_ne by done.
      rewrite bool_decide_eq_false_2 by congruence.
      by destruct (default ∅ (Connections.sockets C) !! userId).
  - rewrite lookup_insert_ne by done. by rewrite bool_decide_eq_false_2 by congruence.
Qed.

Lemma foldl_commit_from batch rows x :
  x ∈ foldl Ddb.commit rows batch → x ∈ rows ∨ x ∈ batch.
Proof.
  revert rows. induction batch as [|b batch IH]; intros rows; simpl; [by left|].
  intros [Hx|Hx]%IH; [|right; by apply elem_of_cons; right].
  unfold Ddb.commit in Hx. destruct (Ddb.occupied rows b); [by left|].
  apply elem_of_app in Hx as [?|Hx]; [by left|].
  apply list_elem_of_singleton in Hx as ->. right. apply list_elem_of_here.
Qed.

Lemma filter_none {A} (f : A → bool) (l : list A) :
  (∀ x, x ∈ l → f x = false) → List.filter f l = [].
Proof.
  induction l as [|x l IH]; intros Hall; [done|]. cbn [List.filter].
  rewrite (Hall x) by apply list_elem_of_here.
  apply IH. intros y Hy. apply Hall. by apply elem_of_cons; right.
Qed.

(* With no row of the database in sight, the scan reads one empty page. *)
Lemma scan_noRows now fuel w databaseId database :
  noRowsOf databaseId w →
  scan now (S fuel) w databaseId database = Some (Ddb.settle w, Ok (startScan database)).
Proof.
  intros Hnone. unfold scan. cbn [Connection.scanPages]. unfold Ddb.query.
  assert (List.filter
            (Ddb.selected databaseId (Scan.lastSeqNo (startScan database)) None)
            (Ddb.table (Ddb.settle w)) = []) as ->.
  2: { change (merge_sort Ddb.bySeqNo []) with (@nil Item.t). by rewrite take_nil. }
  assert (∀ x, x ∈ Ddb.table (Ddb.settle w) → Item.database_id x ≠ databaseId) as Hrows.
  { intros x Hx. unfold noRowsOf in Hnone.
    apply (proj1 (Forall_forall _ _) Hnone). unfold Ddb.settle in Hx.
    destruct (Ddb.inflight w) as [|batch later]; [apply elem_of_app; by left|].
    simpl in *. apply foldl_commit_from in Hx as [?|?]; apply elem_of_app;
      [by left | right; apply elem_of_app; by left]. }
  apply filter_none. intros x Hx. unfold Ddb.selected.
  assert ((Item.database_id x =? databaseId)%string = false) as ->; [|done].
  by apply String.eqb_neq, Hrows.
Qed.

(** X16. First open of a database with nothing in its log: for a registered
    connection that has not opened databaseId, a truthy dbNameHash and dbKey,
    no reopenAtSeqNo, and no row of the database stored or in flight,
    openDatabase returns true, sends one ApplyTransactions message that
    carries dbNameHash, dbKey, an empty transactionLog and (when bundleSeqNo
    > 0) the bundle preface, and leaves the database open with init = true,
    transactionLogSize = 0, bundleSeqNo normalised to -1 when not positive,
    and lastSeqNo = bundleSeqNo if a bundle blob was fetched, else 0. No other
    connection and no clientId mark changes. *)
Theorem openDatabase_first_open_empty_log
    (est : Item.t → Z) (gb : string → Z → option string) (now : Z) (fuel : nat)
    (w : Ddb.t) (C : Connections.t) (userId connectionId databaseId : string)
    (bundleSeqNo : Z) (h k : option string) (conn : Connection.t)
    (Hconn : connectionAt C userId connectionId = Some conn)
    (Hnew : Connection.databases conn !! databaseId = None)
    (Hh : truthy h = true) (Hk : truthy k = true)
    (Hnone : noRowsOf databaseId w) :
  let attached := if 0 <? bundleSeqNo then gb databaseId bundleSeqNo else None in
  let payload :=
    {| Payload.dbId := databaseId;
       Payload.dbNameHash := h;
       Payload.dbKey := k;
       Payload.bundleSeqNo := if 0 <? bundleSeqNo then Some bundleSeqNo else None;
       Payload.bundle := attached |} in
  let database' :=
    {| DatabaseState.bundleSeqNo := if 0 <? bundleSeqNo then bundleSeqNo else -1;
       DatabaseState.lastSeqNo := if truthy attached then bundleSeqNo else 0;
       DatabaseState.transactionLogSize := 0;
       DatabaseState.init := true |} in
  ∃ C',
    Connections.openDatabase est gb now (S fuel) w C userId connectionId databaseId
      bundleSeqNo h k None
    = Some (Ddb.settle w, C', true)
    ∧ connectionAt C' userId connectionId
      = Some (Connection.set_database
                (Connection.set_socket conn
                   (Socket.send (Connection.socket conn)
                      (ApplyTransactions payload [] false)))
                databaseId database')
    ∧ (∀ u i, (u, i) ≠ (userId, connectionId) → connectionAt C' u i = connectionAt C u i)
    ∧ presentClients C' = presentClients C.
Proof.
  intros attached payload database'.
  rewrite (openDatabase_registered _ _ _ _ _ _ _ _ _ _ _ _ _ _ Hconn), Hnew.
  set (conn1 := Connection.openDatabase conn databaseId bundleSeqNo None).
  set (database :=
         {| DatabaseState.bundleSeqNo := if 0 <? bundleSeqNo then bundleSeqNo else -1;
            DatabaseState.lastSeqNo := 0;
            DatabaseState.transactionLogSize := 0;
            DatabaseState.init := false |}).
  assert (Connection.databases conn1 !! databaseId = Some database) as Hdb
    by (unfold conn1, Connection.openDatabase; simpl; by rewrite lookup_insert_eq).
  rewrite (push_scan_Ok est gb now (S fuel) w conn1 databaseId h k None database
             (Ddb.settle w) (startScan database) Hdb (scan_noRows _ _ _ _ _ Hnone)).
  cbn zeta.
  assert (openingDatabase h k None = true) as -> by (unfold openingDatabase; by rewrite Hh, Hk).
  assert (attachesBundle database = (0 <? bundleSeqNo)) as Hattach.
  { unfold attachesBundle, database. simpl.
    destruct (0 <? bundleSeqNo) eqn:Hb; [by rewrite Hb | done]. }
  assert (pushPayload gb databaseId h k None database = payload) as ->.
  { unfold pushPayload, payload, attached. rewrite Hattach.
    unfold openingDatabase. rewrite Hh, Hk. simpl.
    by destruct (0 <? bundleSeqNo). }
  simpl. eexists. split; [done|]. split; [|split; [|done]].
  - rewrite connectionAt_stored, bool_decide_eq_true_2 by done. f_equal.
    unfold Connection.set_database, Connection.set_socket, conn1,
      Connection.openDatabase. simpl. rewrite insert_insert_eq. f_equal.
    unfold database', attached. f_equal; f_equal.
    by destruct (0 <? bundleSeqNo).
  - intros u i Hne. by rewrite connectionAt_stored, bool_decide_eq_false_2.
Qed.

Lemma openDatabase_first_open_empty_log_witness :
  ∃ C',
    Connections.openDatabase sampleSize sampleBundle 100000 1 (Ddb.mk [] [] 2)
      oneClient "U" "id1" "D" 100 (Some "h") (Some "k") None
    = Some (Ddb.settle (Ddb.mk [] [] 2), C', true)
    ∧ connectionAt C' "U" "id1"
      = Some (Connection.set_database
                (Connection.set_socket firstConnection
                   (Socket.send (Connection.socket firstConnection)
                      (ApplyTransactions
                         (Payload.mk "D" (Some "h") (Some "k") (Some 100) (Some "blob"))
                         [] false)))
                "D" (DatabaseState.mk 100 100 0 true))
    ∧ (∀ u i, (u, i) ≠ ("U", "id1") → connectionAt C' u i = connectionAt oneClient u i)
    ∧ presentClients C' = presentClients oneClient.
Proof.
  exact (openDatabase_first_open_empty_log sampleSize sampleBundle 100000 0
           (Ddb.mk [] [] 2) oneClient "U" "id1" "D" 100 (Some "h") (Some "k")
           firstConnection eq_refl eq_refl eq_refl eq_refl (Forall_nil_2 _)).
Defined.

(* --------------------------------------------------------------------- *)
(* user.js: the seed exchange against its table                          *)
(* --------------------------------------------------------------------- *)

Lemma call_seedExchange w :
  Tables.seedExchange (Tables.call w).1 = Tables.seedExchange w.
Proof. unfold Tables.call. by destruct (Tables.faults w). Qed.

Lemma call_users w : Tables.users (Tables.call w).1 = Tables.users w.
Proof. unfold Tables.call. by destruct (Tables.faults w). Qed.

Lemma call_quiet w : Tables.faults w = [] → Tables.call w = (w, false).
Proof. unfold Tables.call. by intros ->. Qed.

Lemma truthy_Some s : truthy (Some s) = true ↔ s ≠ "".
Proof.
  simpl. destruct (String.eqb_spec s "") as [->|Hne]; simpl.
  - split; [done | intros Hs; by destruct Hs].
  - done.
Qed.

(* What requestSeed does when a row is already stored at its key. *)
Lemma requestSeed_existing now w C userId spk connectionId key row :
  key ≠ "" →
  Tables.seedExchange w !! (userId, key) = Some row →
  ∃ w',
    Tables.seedExchange w' = Tables.seedExchange w
    ∧ Tables.users w' = Tables.users w
    ∧ (Tables.faults w = [] → w' = w)
    ∧ (User.requestSeed now w C userId spk connectionId (Some key)
       = (w', C,
          User.errorResponse User.Internal_Server_Error
            (User.TextWith "Failed to request seed with " ServiceFailure))
       ∧ Tables.faults w ≠ []
       ∨ User.requestSeed now w C userId spk connectionId (Some key)
         = (w',
            if truthy (Tables.encrypted_seed row) then C
            else Connections.sendSeedRequest C userId connectionId (Some key),
            if truthy (Tables.encrypted_seed row)
            then User.successResponse
                   (User.SeedReply spk (default "" (Tables.encrypted_seed row)))
            else User.successResponse (User.Text "Successfully sent out request for seed!"))).
Proof.
  intros Hkey%truthy_Some Hrow. unfold User.requestSeed. rewrite Hkey. cbn [negb].
  unfold Tables.putSeedExchange.
  pose proof (call_seedExchange w) as Hs1. pose proof (call_users w) as Hu1.
  pose proof (call_quiet w) as Hq1.
  destruct (Tables.call w) as [w1 fault1]. simpl in Hs1, Hu1.
  destruct fault1.
  { exists w1. split; [done|]. split; [done|]. split; [|left; split; [done|]].
    - intros Hf. by specialize (Hq1 Hf).
    - intros Hf. by specialize (Hq1 Hf). }
  rewrite Hs1, Hrow. unfold Tables.getSeedExchange.
  pose proof (call_seedExchange w1) as Hs2. pose proof (call_users w1) as Hu2.
  pose proof (call_quiet w1) as Hq2.
  destruct (Tables.call w1) as [w2 fault2]. simpl in Hs2, Hu2.
  assert (Tables.faults w = [] → w1 = w ∧ w2 = w ∧ fault2 = false) as Hq.
  { intros Hf. specialize (Hq1 Hf). injection Hq1 as ->.
    specialize (Hq2 Hf). by injection Hq2 as -> ->. }
  exists w2. split; [congruence|]. split; [congruence|].
  split; [intros Hf; by destruct (Hq Hf) as (_ & -> & _)|].
  destruct fault2.
  { left. split; [done|]. intros Hf. by destruct (Hq Hf) as (_ & _ & ?). }
  right. rewrite Hs2, Hs1, Hrow.
  destruct (Tables.encrypted_seed row) as [seed|]; [|done].
  by destruct (truthy (Some seed)).
Qed.

(** X18. user.js sendSeed forwards a seed only after storing it: either the
    call answers Success!, both requesterPublicKey and encryptedSeed were
    non-empty strings, the row (userId, requesterPublicKey) of the seed
    exchange table now holds the encryptedSeed, and the registry is the one
    Connections.sendSeed leaves; or the call answers with an error response,
    no socket has received anything and the table is as it was. *)
Theorem sendSeed_stores_before_forwarding
    (ddbClient ddbClient' : Tables.t) (connections connections' : Connections.t)
    (userId senderPublicKey : string) (requesterPublicKey encryptedSeed : option string)
    (response : User.Response)
    (Hcall : User.sendSeed ddbClient connections userId senderPublicKey
               requesterPublicKey encryptedSeed
             = (ddbClient', connections', response)) :
  (∃ key seed,
      requesterPublicKey = Some key ∧ encryptedSeed = Some seed
      ∧ key ≠ "" ∧ seed ≠ ""
      ∧ response = User.successResponse (User.Text "Success!")
      ∧ Tables.seedExchange ddbClient' !! (userId, key) ≫= Tables.encrypted_seed
        = Some seed
      ∧ connections'
        = Connections.sendSeed connections userId senderPublicKey (Some key) seed)
  ∨ ((∃ status data, response = User.errorResponse status data)
     ∧ connections' = connections
     ∧ Tables.seedExchange ddbClient' = Tables.seedExchange ddbClient).
Proof.
  unfold User.sendSeed in Hcall.
  destruct requesterPublicKey as [key|], encryptedSeed as [seed|];
    try (injection Hcall as <- <- <-; right; split; [by eexists _, _ | done]).
  destruct (truthy (Some key)) eqn:Hkey; cbn [negb orb] in Hcall;
    [|injection Hcall as <- <- <-; right; split; [by eexists _, _ | done]].
  destruct (truthy (Some seed)) eqn:Hseed; cbn [negb orb] in Hcall;
    [|injection Hcall as <- <- <-; right; split; [by eexists _, _ | done]].
  unfold Tables.updateSeedExchange in Hcall.
  pose proof (call_seedExchange ddbClient) as Hs1.
  destruct (Tables.call ddbClient) as [w1 fault]. simpl in Hs1.
  destruct fault; injection Hcall as <- <- <-.
  - right. split; [by eexists _, _ | done].
  - left. exists key, seed. apply truthy_Some in Hkey, Hseed.
    split_and!; try done. simpl. by rewrite lookup_insert_eq.
Qed.

Lemma sendSeed_stores_before_forwarding_witness :
  ∃ ddbClient' connections' response,
    User.sendSeed pendingTables seedRegistry "U" "pkA" (Some "pkN") (Some "enc")
    = (ddbClient', connections', response)
    ∧ ((∃ key seed,
           Some "pkN" = Some key ∧ Some "enc" = Some seed
           ∧ key ≠ "" ∧ seed ≠ ""
           ∧ response = User.successResponse (User.Text "Success!")
           ∧ Tables.seedExchange ddbClient' !! ("U", key) ≫= Tables.encrypted_seed
             = Some seed
           ∧ connections' = Connections.sendSeed seedRegistry "U" "pkA" (Some key) seed)
       ∨ ((∃ status data, response = User.errorResponse status data)
          ∧ connections' = seedRegistry
          ∧ Tables.seedExchange ddbClient' = Tables.seedExchange pendingTables)).
Proof.
  eexists _, _, _. split; [reflexivity|].
  exact (sendSeed_stores_before_forwarding pendingTables _ seedRegistry _ "U" "pkA"
           (Some "pkN") (Some "enc") _ eq_refl).
Defined.

(** X19. user.js requestSeed never overwrites: when a row is already stored
    at (userId, requesterPublicKey), whatever the call answers, the seed
    exchange table is left exactly as it was (the ttl of the row is not
    renewed and an encrypted-seed it holds is not erased), and so is the
    users table. *)
Theorem requestSeed_keeps_existing_row
    (now : Z) (ddbClient ddbClient' : Tables.t) (connections connections' : Connections.t)
    (userId senderPublicKey connectionId key : string) (row : Tables.SeedExchangeRow)
    (response : User.Response)
    (Hrow : Tables.seedExchange ddbClient !! (userId, key) = Some row)
    (Hcall : User.requestSeed now ddbClient connections userId senderPublicKey
               connectionId (Some key)
             = (ddbClient', connections', response)) :
  Tables.seedExchange ddbClient' = Tables.seedExchange ddbClient
  ∧ Tables.users ddbClient' = Tables.users ddbClient.
Proof.
  destruct (decide (key = "")) as [->|Hkey].
  { unfold User.requestSeed in Hcall. simpl in Hcall. by injection Hcall as <- _ _. }
  destruct (requestSeed_existing now ddbClient connections userId senderPublicKey
              connectionId key row Hkey Hrow)
    as (w' & Hs & Hu & _ & [[Heq _]|Heq]);
    rewrite Heq in Hcall; by injection Hcall as <- _ _.
Qed.

Lemma requestSeed_keeps_existing_row_witness :
  ∃ ddbClient' connections' response,
    User.requestSeed 200000 pendingTables seedRegistry "U" "pkA" "idN" (Some "pkN")
    = (ddbClient', connections', response)
    ∧ Tables.seedExchange ddbClient' = Tables.seedExchange pendingTables
    ∧ Tables.users ddbClient' = Tables.users pendingTables.
Proof.
  eexists _, _, _. split; [reflexivity|].
  exact (requestSeed_keeps_existing_row 200000 pendingTables _ seedRegistry _
           "U" "pkA" "idN" "pkN" (Tables.mkSeedExchangeRow None (Some 86500)) _
           eq_refl eq_refl).
Defined.

(** X20. Delivery and a later request compose: once user.js sendSeed has
    answered with a success response for (userId, requesterPublicKey,
    encryptedSeed), a requestSeed for the same user and key answers
    {senderPublicKey, encryptedSeed} with that encryptedSeed and the
    senderPublicKey of its own call, sends nothing on any socket and writes
    nothing, provided the service fails none of its calls. *)
Theorem sendSeed_then_requestSeed
    (now : Z) (ddbClient ddbClient1 : Tables.t) (connections connections1 : Connections.t)
    (userId senderPublicKey senderPublicKey' connectionId key seed : string)
    (data : User.Data)
    (Hsent : User.sendSeed ddbClient connections userId senderPublicKey
               (Some key) (Some seed)
             = (ddbClient1, connections1, User.successResponse data))
    (Hquiet : Tables.faults ddbClient1 = []) :
  User.requestSeed now ddbClient1 connections1 userId senderPublicKey' connectionId
    (Some key)
  = (ddbClient1, connections1,
     User.successResponse (User.SeedReply senderPublicKey' seed)).
Proof.
  unfold User.sendSeed in Hsent.
  destruct (truthy (Some key)) eqn:Hkey; cbn [negb orb] in Hsent; [|done].
  destruct (truthy (Some seed)) eqn:Hseed; cbn [negb orb] in Hsent; [|done].
  unfold Tables.updateSeedExchange in Hsent.
  destruct (Tables.call ddbClient) as [w1 fault].
  destruct fault; [done|]. injection Hsent as <- <- <-.
  apply truthy_Some in Hkey.
  set (row := Tables.mkSeedExchangeRow (Some seed)
                (Tables.seedExchange w1 !! (userId, key) ≫= Tables.ttl)) in *.
  set (w := Tables.mk (<[(userId, key) := row]> (Tables.seedExchange w1))
              (Tables.users w1) (Tables.faults w1)) in *.
  assert (Tables.seedExchange w !! (userId, key) = Some row) as Hrow
    by apply lookup_insert_eq.
  destruct (requestSeed_existing now w
              (Connections.sendSeed connections userId senderPublicKey (Some key) seed)
              userId senderPublicKey' connectionId key row Hkey Hrow)
    as (w' & _ & _ & Hsame & [[_ Hf]|Heq]); [by destruct Hf|].
  rewrite Heq, (Hsame Hquiet). unfold row. cbn [Tables.encrypted_seed default].
  by rewrite Hseed.
Qed.

Lemma sendSeed_then_requestSeed_witness :
  ∃ ddbClient1 connections1 data,
    User.sendSeed pendingTables seedRegistry "U" "pkA" (Some "pkN") (Some "enc")
    = (ddbClient1, connections1, User.successResponse data)
    ∧ User.requestSeed 200000 ddbClient1 connections1 "U" "pkB" "idN" (Some "pkN")
      = (ddbClient1, connections1,
         User.successResponse (User.SeedReply "pkB" "enc")).
Proof.
  eexists _, _, _. split; [reflexivity|].
  exact (sendSeed_then_requestSeed 200000 pendingTables _ seedRegistry _
           "U" "pkA" "pkB" "idN" "pkN" "enc" _ eq_refl eq_refl).
Defined.

(** X21. user.js requestSeed broadcasts a request only while an unanswered
    row for it is stored: if the call changes the registry at all, then it
    answers Successfully sent out request for seed!, the registry is the one
    Connections.sendSeedRequest leaves, and after the call the seed exchange
    table holds a row at (userId, requesterPublicKey) without a truthy
    encrypted-seed. *)
Theorem requestSeed_broadcasts_only_unanswered
    (now : Z) (ddbClient ddbClient' : Tables.t) (connections connections' : Connections.t)
    (userId senderPublicKey connectionId : string) (requesterPublicKey : option string)
    (response : User.Response)
    (Hcall : User.requestSeed now ddbClient connections userId senderPublicKey
               connectionId requesterPublicKey
             = (ddbClient', connections', response)) :
  connections' = connections
  ∨ ∃ key row,
      requesterPublicKey = Some key ∧ key ≠ ""
      ∧ connections'
        = Connections.sendSeedRequest connections userId connectionId (Some key)
      ∧ response
        = User.successResponse (User.Text "Successfully sent out request for seed!")
      ∧ Tables.seedExchange ddbClient' !! (userId, key) = Some row
      ∧ truthy (Tables.encrypted_seed row) = false.
Proof.
  destruct requesterPublicKey as [key|];
    [|unfold User.requestSeed in Hcall; injection Hcall as _ <- _; by left].
  destruct (decide (key = "")) as [->|Hkey];
    [unfold User.requestSeed in Hcall; simpl in Hcall; injection Hcall as _ <- _; by left|].
  destruct (Tables.seedExchange ddbClient !! (userId, key)) as [row|] eqn:Hrow.
  - destruct (requestSeed_existing now ddbClient connections userId senderPublicKey
                connectionId key row Hkey Hrow)
      as (w' & Hs & _ & _ & [[Heq _]|Heq]);
      rewrite Heq in Hcall; injection Hcall as <- <- <-; [by left|].
    destruct (truthy (Tables.encrypted_seed row)) eqn:Hseed; [by left|].
    right. exists key, row. rewrite Hs. by split_and!.
  - unfold User.requestSeed in Hcall.
    rewrite (proj2 (truthy_Some key) Hkey) in Hcall. cbn [negb] in Hcall.
    unfold Tables.putSeedExchange in Hcall.
    pose proof (call_seedExchange ddbClient) as Hs1.
    destruct (Tables.call ddbClient) as [w1 fault]. simpl in Hs1.
    destruct fault; [injection Hcall as _ <- _; by left|].
    rewrite Hs1, Hrow in Hcall. injection Hcall as <- <- <-.
    right. exists key, (Tables.mkSeedExchangeRow None (Some (getTtl now SECONDS_IN_A_DAY))).
    simpl. rewrite lookup_insert_eq. by split_and!.
Qed.

Lemma requestSeed_broadcasts_only_unanswered_witness :
  ∃ ddbClient' connections' response,
    User.requestSeed 200000 sampleTables seedRegistry "U" "pkA" "idN" (Some "pkN")
    = (ddbClient', connections', response)
    ∧ (connections' = seedRegistry
       ∨ ∃ key row,
           Some "pkN" = Some key ∧ key ≠ ""
           ∧ connections'
             = Connections.sendSeedRequest seedRegistry "U" "idN" (Some key)
           ∧ response
             = User.successResponse
                 (User.Text "Successfully sent out request for seed!")
           ∧ Tables.seedExchange ddbClient' !! ("U", key) = Some row
           ∧ truthy (Tables.encrypted_seed row) = false).
Proof.
  eexists _, _, _. split; [reflexivity|].
  exact (requestSeed_broadcasts_only_unanswered 200000 sampleTables _ seedRegistry _
           "U" "pkA" "idN" (Some "pkN") _ eq_refl).
Defined.

(* --------------------------------------------------------------------- *)
(* user.js: validateKey                                                  *)
(* --------------------------------------------------------------------- *)

Lemma deleteSeedRequest_cases w userId conn key :
  Connection.requesterPublicKey conn = Some key →
  User.deleteSeedRequest w userId conn
  = (((Tables.call w).1, conn) : Tables.t * Connection.t)
    ∧ (Tables.call w).2 = true
  ∨ User.deleteSeedRequest w userId conn
    = (Tables.mk (delete (userId, key) (Tables.seedExchange w)) (Tables.users w)
         (Tables.faults (Tables.call w).1),
       Connection.deleteSeedRequest conn)
    ∧ (Tables.call w).2 = false.
Proof.
  intros Hk. unfold User.deleteSeedRequest, Tables.deleteSeedExchange. rewrite Hk.
  pose proof (call_seedExchange w) as Hs. pose proof (call_users w) as Hu.
  destruct (Tables.call w) as [w1 fault]. simpl in *.
  destruct fault; [by left|]. right. by rewrite Hs, Hu.
Qed.

(** X22. user.js validateKey validates only on a matching message: either it
    answers Success!, the message the user provided equals the validation
    message, and the connection comes back with keyValidated = true and the
    same socket and databases; or it answers with an error response and the
    connection and both tables are exactly as they were. *)
Theorem validateKey_only_on_match
    (ddbClient ddbClient' : Tables.t) (validationMessage : string)
    (userProvidedValidationMessage : option string) (user : User.t)
    (conn conn' : Connection.t) (response : User.Response)
    (Hcall : User.validateKey ddbClient validationMessage userProvidedValidationMessage
               user conn
             = (ddbClient', conn', response)) :
  (response = User.successResponse (User.Text "Success!")
   ∧ userProvidedValidationMessage = Some validationMessage
   ∧ Connection.keyValidated conn' = true
   ∧ Connection.socket conn' = Connection.socket conn
   ∧ Connection.databases conn' = Connection.databases conn)
  ∨ ((∃ status data, response = User.errorResponse status data)
     ∧ conn' = conn
     ∧ Tables.seedExchange ddbClient' = Tables.seedExchange ddbClient
     ∧ Tables.users ddbClient' = Tables.users ddbClient).
Proof.
  unfold User.validateKey in Hcall. case_bool_decide as Hmatch;
    [|injection Hcall as <- <- <-; right; split; [by eexists _, _ | done]].
  destruct (User.seed_not_saved_yet user).
  - unfold User.userSavedSeed, Tables.removeSeedNotSavedYet in Hcall.
    pose proof (call_seedExchange ddbClient) as Hs. pose proof (call_users ddbClient) as Hu.
    destruct (Tables.call ddbClient) as [w1 fault]. simpl in Hs, Hu.
    destruct fault;
      [injection Hcall as <- <- <-; right; split; [by eexists _, _ | done]|].
    destruct (Tables.users w1 !! (User.username user, User.app_id user)) as [row|];
      [|injection Hcall as <- <- <-; right; split; [by eexists _, _ | done]].
    destruct (_ && _ && _);
      injection Hcall as <- <- <-; [by left | right; split; [by eexists _, _ | done]].
  - left. destruct (truthy (Connection.requesterPublicKey conn)) eqn:Hrpk.
    + destruct (Connection.requesterPublicKey conn) as [key|] eqn:Hk; [|done].
      destruct (deleteSeedRequest_cases ddbClient (User.user_id user) conn key Hk)
        as [[Heq _]|[Heq _]];
        rewrite Heq in Hcall; by injection Hcall as <- <- <-.
    + by injection Hcall as <- <- <-.
Qed.

Lemma validateKey_only_on_match_witness :
  ∃ ddbClient' conn' response,
    User.validateKey sampleTables "msg" (Some "msg") sampleUser sampleConnection
    = (ddbClient', conn', response)
    ∧ ((response = User.successResponse (User.Text "Success!")
        ∧ Some "msg" = Some "msg"
        ∧ Connection.keyValidated conn' = true
        ∧ Connection.socket conn' = Connection.socket sampleConnection
        ∧ Connection.databases conn' = Connection.databases sampleConnection)
       ∨ ((∃ status data, response = User.errorResponse status data)
          ∧ conn' = sampleConnection
          ∧ Tables.seedExchange ddbClient' = Tables.seedExchange sampleTables
          ∧ Tables.users ddbClient' = Tables.users sampleTables)).
Proof.
  eexists _, _, _. split; [reflexivity|].
  exact (validateKey_only_on_match sampleTables _ "msg" (Some "msg") sampleUser
           sampleConnection _ _ eq_refl).
Defined.

(** X23. The first validation of a new user happens once: after validateKey
    has answered with a success response for a user object whose
    seed-not-saved-yet is set, every later validateKey with that same user
    object, for any message and any connection, answers with an error
    response and leaves the connection as it was; when the messages match and
    the service does not fail the call, the answer is Unauthorized, Invalid
    seed. *)
Theorem validateKey_first_time_once
    (ddbClient ddbClient1 : Tables.t) (validationMessage : string)
    (provided : option string) (user : User.t) (conn conn1 : Connection.t)
    (data : User.Data)
    (Hflag : User.seed_not_saved_yet user = true)
    (Hfirst : User.validateKey ddbClient validationMessage provided user conn
              = (ddbClient1, conn1, User.successResponse data))
    (validationMessage2 : string) (provided2 : option string) (conn2 : Connection.t) :
  ∃ ddbClient2 status text,
    User.validateKey ddbClient1 validationMessage2 provided2 user conn2
    = (ddbClient2, conn2, User.errorResponse status (User.Text text))
    ∧ (provided2 = Some validationMessage2 → (Tables.call ddbClient1).2 = false →
       status = User.Unauthorized ∧ text = "Invalid seed").
Proof.
  assert (∃ row, Tables.users ddbClient1 !! (User.username user, User.app_id user)
                 = Some row ∧ Tables.seed_not_saved_yet row = false)
    as (row & Hrow & Hsaved).
  { unfold User.validateKey in Hfirst. rewrite Hflag in Hfirst.
    case_bool_decide; [|done].
    unfold User.userSavedSeed, Tables.removeSeedNotSavedYet in Hfirst.
    destruct (Tables.call ddbClient) as [w1 fault]. destruct fault; [done|].
    destruct (Tables.users w1 !! (User.username user, User.app_id user)) as [row|];
      [|done].
    destruct (_ && _ && _); [|done]. injection Hfirst as <- _ _.
    eexists. simpl. by rewrite lookup_insert_eq. }
  unfold User.validateKey. rewrite Hflag.
  case_bool_decide as Hmatch; [|by eexists _, _, _].
  unfold User.userSavedSeed, Tables.removeSeedNotSavedYet.
  pose proof (call_users ddbClient1) as Hu.
  destruct (Tables.call ddbClient1) as [w2 fault]. simpl in Hu.
  destruct fault; [by eexists _, _, _|].
  rewrite Hu, Hrow, Hsaved. simpl. by eexists _, _, _.
Qed.

Lemma validateKey_first_time_once_witness :
  ∃ ddbClient1 conn1 data,
    User.validateKey sampleTables "msg" (Some "msg") sampleUser sampleConnection
    = (ddbClient1, conn1, User.successResponse data)
    ∧ ∃ ddbClient2 status text,
        User.validateKey ddbClient1 "msg2" (Some "msg2") sampleUser deviceN
        = (ddbClient2, deviceN, User.errorResponse status (User.Text text))
        ∧ (Some "msg2" = Some "msg2" → (Tables.call ddbClient1).2 = false →
           status = User.Unauthorized ∧ text = "Invalid seed").
Proof.
  eexists _, _, _. split; [reflexivity|].
  exact (validateKey_first_time_once sampleTables _ "msg" (Some "msg") sampleUser
           sampleConnection _ _ eq_refl eq_refl "msg2" (Some "msg2") deviceN).
Defined.

(** X24. Validation of a returning device cleans up its seed request: for a
    user object without seed-not-saved-yet, a matching message and a
    connection holding a non-empty requesterPublicKey, validateKey always
    answers Success! and validates the connection; if the service performs
    the delete, the row (user-id, requesterPublicKey) is gone from the seed
    exchange table and the connection's requesterPublicKey is cleared, and if
    the service fails it, the failure is swallowed and row and key stay. *)
Theorem validateKey_cleans_seed_request
    (ddbClient : Tables.t) (validationMessage key : string) (user : User.t)
    (conn : Connection.t)
    (Hsaved : User.seed_not_saved_yet user = false)
    (Hkey : Connection.requesterPublicKey conn = Some key)
    (Hnonempty : key ≠ "") :
  ∃ ddbClient' conn',
    User.validateKey ddbClient validationMessage (Some validationMessage) user conn
    = (ddbClient', conn', User.successResponse (User.Text "Success!"))
    ∧ Connection.keyValidated conn' = true
    ∧ Tables.users ddbClient' = Tables.users ddbClient
    ∧ if (Tables.call ddbClient).2
      then Tables.seedExchange ddbClient' = Tables.seedExchange ddbClient
           ∧ Connection.requesterPublicKey conn' = Some key
      else Tables.seedExchange ddbClient'
           = delete (User.user_id user, key) (Tables.seedExchange ddbClient)
           ∧ Connection.requesterPublicKey conn' = None.
Proof.
  unfold User.validateKey. rewrite bool_decide_eq_true_2 by done.
  rewrite Hsaved, Hkey, (proj2 (truthy_Some key) Hnonempty).
  destruct (deleteSeedRequest_cases ddbClient (User.user_id user) conn key Hkey)
    as [[Heq Hf]|[Heq Hf]]; rewrite Heq, Hf; eexists _, _; (split; [done|]); simpl.
  - split; [done|]. split; [apply call_users|]. split; [apply call_seedExchange | done].
  - done.
Qed.

Lemma validateKey_cleans_seed_request_witness :
  ∃ ddbClient' conn',
    User.validateKey pendingTables "msg" (Some "msg") returningUser deviceN
    = (ddbClient', conn', User.successResponse (User.Text "Success!"))
    ∧ Connection.keyValidated conn' = true
    ∧ Tables.users ddbClient' = Tables.users pendingTables
    ∧ if (Tables.call pendingTables).2
      then Tables.seedExchange ddbClient' = Tables.seedExchange pendingTables
           ∧ Connection.requesterPublicKey conn' = Some "pkN"
      else Tables.seedExchange ddbClient'
           = delete ("U", "pkN") (Tables.seedExchange pendingTables)
           ∧ Connection.requesterPublicKey conn' = None.
Proof.
  assert ("pkN" ≠ "") as Hne by discriminate.
  exact (validateKey_cleans_seed_request pendingTables "msg" "pkN" returningUser
           deviceN eq_refl eq_refl Hne).
Defined.
